(** * Scholar-Tool: the citation-graph builder, embedded and verified

    A shallow embedding of [src/scholar/utils.py], [src/utils.py] and
    [src/scholar/graph.py]: the rate-limited page fetcher, the filter and
    sort pipeline, the relation cache of [PaperGraph], the breadth-first
    expansion and the densification pass.

    Conventions of the embedding.
    - The bibliographic API is an oracle [server]: it answers a request
      knowing the whole history of the run (the [World]), so a response may
      depend on every request and every wait that came before.
    - A JSON object is a record of [Field]s; a field is [Missing], [Null] or
      holds a value, because [d.get(k)], [d.get(k, default)] and [d[k]]
      tell these apart.
    - Python truthiness is written out ([truthy_Z], [truthy_str], ...).
    - Python's [dict] is a [gmap], its [set] a [gset]; the node and edge
      tables of the networkx graph are insertion-ordered association
      lists, so that the absence of duplicates is a property to prove.
    - An exception is a value [Raised e]; a loop whose number of rounds
      depends on the server's answers takes fuel and reports [OutOfFuel].
    - A [str] is the sequence of the UTF-8 bytes of its characters;
      [len] and slices count characters. What [str.isalnum] says of a
      character outside ASCII, and whether a path can be opened for
      writing, are oracles too ([Unicode], [Disk]). *)

From stdpp Require Import base gmap strings list.
From Stdlib Require Import ZArith Ascii Sorted Permutation.

Local Open Scope Z_scope.

(* ===================================================================== *)
(** ** Python values *)
(* ===================================================================== *)

Module Py.

(** The state of a key in a JSON object read as a dict. *)
Inductive Field (A : Type) : Type :=
| Missing
| Null
| Val (a : A).
Arguments Missing {A}.
Arguments Null {A}.
Arguments Val {A} a.

(** [d.get(k)]: [None] when the key is missing or null. *)
Definition dict_get {A} (f : Field A) : option A :=
  match f with Val a => Some a | _ => None end.

(** [d.get(k, default)]: the default only replaces a missing key. *)
Definition dict_get_default {A} (f : Field A) (d : A) : option A :=
  match f with Missing => Some d | Null => None | Val a => Some a end.

(** The exceptions the program can meet; [OSError] stands for the error
    of a file that cannot be opened for writing ([FileNotFoundError],
    [PermissionError], ...). *)
Inductive exn := KeyError | IndexError | TypeError | OSError.

(** What a call produces: a value, an exception, or no answer within the
    fuel given to its loop. *)
Inductive Outcome (A : Type) : Type :=
| Done (a : A)
| Raised (e : exn)
| OutOfFuel.
Arguments Done {A} a.
Arguments Raised {A} e.
Arguments OutOfFuel {A}.

(** [d[k]]: raises [KeyError] on a missing key. *)
Definition dict_item {A} (f : Field A) : Outcome (option A) :=
  match f with Missing => Raised KeyError | Null => Done None | Val a => Done (Some a) end.

(** Truth value of an optional integer, string, boolean, list. *)
Definition truthy_Z (o : option Z) : bool :=
  match o with Some z => negb (z =? 0) | None => false end.

Definition truthy_str (o : option string) : bool :=
  match o with Some s => negb (String.eqb s "") | None => false end.

Definition truthy_bool (o : option bool) : bool :=
  match o with Some b => b | None => false end.

Definition truthy_list {A} (o : option (list A)) : bool :=
  match o with Some (_ :: _) => true | _ => false end.

(** [v or 0] on an optional integer. *)
Definition or_zero (o : option Z) : Z :=
  match o with Some z => z | None => 0 end.

(** [len(l)] as a Python integer. *)
Definition len {A} (l : list A) : Z := Z.of_nat (length l).

(** [l[:n]]; a negative [n] counts from the end. *)
Definition slice_to {A} (n : Z) (l : list A) : list A :=
  if 0 <=? n then take (Z.to_nat n) l
  else take (length l - Z.to_nat (- n))%nat l.

(** [l[:n]] where [n] may be [None]. *)
Definition slice_to_opt {A} (n : option Z) (l : list A) : list A :=
  match n with None => l | Some k => slice_to k l end.

(** [l.remove(x)]: drops the first occurrence (the caller checks
    membership first, so the [ValueError] case does not arise). *)
Fixpoint list_remove (x : string) (l : list string) : list string :=
  match l with
  | [] => []
  | y :: l' => if String.eqb x y then l' else y :: list_remove x l'
  end.

(** Comparison of two tuples of integers, as Python compares tuples:
    the first position where they differ decides. *)
Fixpoint tuple_ltb (a b : list Z) : bool :=
  match a, b with
  | [], [] => false
  | [], _ :: _ => true
  | _ :: _, [] => false
  | x :: a', y :: b' => if x <? y then true else if y <? x then false else tuple_ltb a' b'
  end.

(** One step of a stable descending sort: [x], which stood before every
    element of [l] in the input, goes in front of the first element whose
    key is not greater than its own. *)
Fixpoint insert_desc {A} (key : A -> list Z) (x : A) (l : list A) : list A :=
  match l with
  | [] => [x]
  | y :: l' => if tuple_ltb (key x) (key y) then y :: insert_desc key x l' else x :: l
  end.

(** [l.sort(key=key, reverse=True)]: descending by key, and stable, i.e.
    entries with equal keys keep the order they had in [l]. *)
Definition list_sort_reverse {A} (key : A -> list Z) (l : list A) : list A :=
  foldr (insert_desc key) [] l.

(** A Python [str] is a sequence of characters; here it is the sequence
    of their UTF-8 bytes. A byte [10xxxxxx] continues the character that
    the last byte of another form began. *)
Definition is_continuation (c : ascii) : bool :=
  let n := nat_of_ascii c in ((128 <=? n) && (n <? 192))%nat.

(** [len(s)]: the number of characters. *)
Fixpoint str_len (s : string) : nat :=
  match s with
  | EmptyString => O
  | String c rest => if is_continuation c then str_len rest else S (str_len rest)
  end.

(** [s[:n]] for [n >= 0]: the first [n] characters, each with all of its
    bytes. *)
Fixpoint str_take (n : nat) (s : string) : string :=
  match s with
  | EmptyString => EmptyString
  | String c rest =>
      if is_continuation c then String c (str_take n rest)
      else match n with
           | O => EmptyString
           | S n' => String c (str_take n' rest)
           end
  end.

(** The bytes that continue the character begun just before [s]. *)
Fixpoint continuation_bytes (s : string) : string :=
  match s with
  | EmptyString => EmptyString
  | String c rest => if is_continuation c then String c (continuation_bytes rest) else EmptyString
  end.

End Py.
Import Py.

(* ===================================================================== *)
(** ** The bibliographic API and the world around the program *)
(* ===================================================================== *)

Module Api.

(** A publication summary as the API returns it. *)
Record Paper := mkPaper {
  paperId : Field string;
  title : Field string;
  year : Field Z;
  citationCount : Field Z
}.

Definition empty_paper : Paper := mkPaper Missing Missing Missing Missing.

(** Truth value of a paper dict: [{}] is false. *)
Definition paper_truthy (p : Paper) : bool :=
  match paperId p, title p, year p, citationCount p with
  | Missing, Missing, Missing, Missing => false
  | _, _, _, _ => true
  end.

(** One relation entry: the influence flag and the related paper, under
    the key [citingPaper] or [citedPaper]. *)
Record Entry := mkEntry {
  isInfluential : Field bool;
  citingPaper : Field Paper;
  citedPaper : Field Paper
}.

Definition empty_entry : Entry := mkEntry Missing Missing Missing.

(** [x.get(paper_key)] *)
Definition entry_get (paper_key : string) (x : Entry) : option Paper :=
  if String.eqb paper_key "citingPaper" then dict_get (citingPaper x)
  else if String.eqb paper_key "citedPaper" then dict_get (citedPaper x)
  else None.

(** [x.get(paper_key) or {}] *)
Definition entry_paper (paper_key : string) (x : Entry) : Paper :=
  match entry_get paper_key x with
  | Some p => if paper_truthy p then p else empty_paper
  | None => empty_paper
  end.

(** The body of a response, by the shape the three endpoints use. *)
Inductive Json :=
| JEmpty                               (* a falsy body: null, {} *)
| JPaper (p : Paper)                   (* the details of one paper *)
| JSearch (data : Field (list Paper))  (* a search result *)
| JPage (data : Field (list Entry)).   (* one page of relation entries *)

Definition json_truthy (j : Json) : bool :=
  match j with
  | JEmpty => false
  | JPaper p => paper_truthy p
  | JSearch _ | JPage _ => true
  end.

(** Truth value of what [request_with_retry] returns. *)
Definition data_truthy (data : option Json) : bool :=
  match data with Some j => json_truthy j | None => false end.

(** A body read as a paper dict; a body of another shape has none of a
    paper's keys. *)
Definition json_paper (j : Json) : Paper :=
  match j with JPaper p => p | _ => empty_paper end.

(** [data.get("data")] read as relation entries; the hits of a search
    result have none of an entry's keys. *)
Definition json_entries (j : Json) : option (list Entry) :=
  match j with
  | JPage d => dict_get d
  | JSearch d => option_map (map (fun _ : Paper => empty_entry)) (dict_get d)
  | _ => None
  end.

(** [data.get("data")] read as search hits; a relation entry has none of
    a paper's keys. *)
Definition json_hits (j : Json) : option (list Paper) :=
  match j with
  | JSearch d => dict_get d
  | JPage d => option_map (map (fun _ : Entry => empty_paper)) (dict_get d)
  | _ => None
  end.

Inductive ParamValue := PStr (s : string) | PInt (n : Z).

(** [requests.get(url, params=params)] *)
Record Request := mkRequest {
  url : string;
  params : list (string * ParamValue)
}.

(** The outcome of one GET: a status and a parsed body, or a
    [requests.RequestException] (transport fault, unreadable body). *)
Inductive Response :=
| Http (status_code : Z) (body : Json)
| RequestException.

(** The diagnostics the program prints; progress lines are left out. *)
Inductive Message :=
| MsgRateLimited (wait : Z)
| MsgRequestError
| MsgRetriesExhausted
| MsgNotFound
| MsgSeedDetailsFailed
| MsgGraphEmpty
| MsgDrawing
| MsgFileWritten (filename : string).

(** What the program does to the outside, most recent first. *)
Inductive event :=
| Sent (r : Request)
| Slept (milliseconds : Z)
| Printed (m : Message)
| Saved (filename : string).   (* [net.save_graph(filename)] has returned *)

Definition World := list event.

(** [time.sleep(n)] for whole seconds and for milliseconds. *)
Definition seconds (n : Z) : Z := n * 1000.
Definition time_sleep (ms : Z) (w : World) : World := Slept ms :: w.
Definition print (m : Message) (w : World) : World := Printed m :: w.

Definition is_sent (e : event) : bool :=
  match e with Sent _ => true | _ => false end.

(** Number of network requests issued so far. *)
Definition requests (w : World) : nat := length (List.filter is_sent w).

(** The waits so far, oldest first, in milliseconds. *)
Definition waits (w : World) : list Z :=
  rev (omap (fun e => match e with Slept ms => Some ms | _ => None end) w).

Definition Server := World -> Request -> Response.

(** Two more things that the program takes from outside. [str.isalnum]
    of a character that is not ASCII is read off Python's Unicode
    database: the table is asked about the UTF-8 bytes of the character.
    Whether [open(path, "w")] succeeds is up to the file system: it is
    asked about the path. *)
Definition Unicode := string -> bool.
Definition Disk := string -> bool.

End Api.
Import Api.

(* ===================================================================== *)
(** ** src/scholar/utils.py *)
(* ===================================================================== *)

Module Utils.

Definition BASE_URL : string := "https://api.semanticscholar.org/graph/v1/paper".

(** The default of [max_retries]; no caller passes another value. *)
Definition default_max_retries : Z := 10.

(** The key tuple of [sort_papers]. *)
Definition dims (paper_key : string) (x : Entry) (k : string) : Z :=
  let p := entry_paper paper_key x in
  if String.eqb k "citation" then or_zero (dict_get (citationCount p))
  else if String.eqb k "influential" then Z.b2z (truthy_bool (dict_get (isInfluential x)))
  else if String.eqb k "year" then or_zero (dict_get (year p))
  else 0.

Definition key_order (strategy : string) : list string :=
  let order := ["citation"; "influential"; "year"]%string in
  if bool_decide (strategy ∈ order) then strategy :: list_remove strategy order
  else order.

Definition key_fn (paper_key strategy : string) (x : Entry) : list Z :=
  map (dims paper_key x) (key_order strategy).

Definition sort_papers (papers : list Entry) (paper_key strategy : string) : list Entry :=
  list_sort_reverse (key_fn paper_key strategy) papers.

(** [a < b] where both are known to be integers. *)
Definition int_ltb (a b : option Z) : bool :=
  match a, b with Some x, Some y => x <? y | _, _ => false end.

(** The local function [passes_filter] of [fetch_relations]. *)
Definition passes_filter (paper_key : string) (influential_only : bool)
           (since_year until_year : option Z) (x : Entry) : bool :=
  if influential_only && negb (truthy_bool (dict_get (isInfluential x))) then false
  else
    let year := dict_get (year (entry_paper paper_key x)) in
    if truthy_Z since_year && (negb (truthy_Z year) || int_ltb year since_year) then false
    else if truthy_Z until_year && (negb (truthy_Z year) || int_ltb until_year year) then false
    else true.

Definition relation_fields (paper_key : string) : string :=
  "isInfluential," +:+ paper_key +:+ ".paperId," +:+ paper_key +:+ ".title,"
    +:+ paper_key +:+ ".year," +:+ paper_key +:+ ".citationCount".

(** Rounds that the pagination loop of [fetch_relations] can need: every
    round that goes on adds at least 1000 entries (lemma
    [fetch_pages_fuel] shows that more fuel never changes the result). *)
Definition page_rounds (fetch_limit : Z) : nat := S (Z.to_nat fetch_limit).

Section WithServer.
Variable server : Server.

(** The [for i in range(max_retries)] loop of [request_with_retry], from
    attempt [i] on, with [budget] attempts left. *)
Fixpoint attempt (req : Request) (i : Z) (budget : nat) (w : World)
  : option Json * World :=
  match budget with
  | O => (None, print MsgRetriesExhausted w)
  | S budget' =>
      let w1 := Sent req :: w in
      match server w req with
      | Http status_code body =>
          if status_code =? 200 then (Some body, w1)
          else if status_code =? 429 then
            let wait := (i + 1) * 3 in
            attempt req (i + 1) budget'
              (time_sleep (seconds wait) (print (MsgRateLimited wait) w1))
          else (None, w1)
      | RequestException => (None, print MsgRequestError w1)
      end
  end.

Definition request_with_retry (url : string) (params : list (string * ParamValue))
           (max_retries : Z) (w : World) : option Json * World :=
  attempt (mkRequest url params) 0 (Z.to_nat max_retries) w.

(** Returns the id of the best match and what its description is built
    from ([title], [year]). *)
Definition search_paper (title : string) (w : World)
  : Outcome (option string * option (option string * Field Z)) * World :=
  let '(data, w1) :=
    request_with_retry (BASE_URL +:+ "/search")
      [("query", PStr title); ("limit", PInt 1); ("fields", PStr "paperId,title,year")]%string
      default_max_retries w in
  match (if data_truthy data then from_option json_hits None data else None) with
  | Some (p :: _) =>
      match dict_item (paperId p) with
      | Done pid =>
          match dict_item (Api.title p) with
          | Done t => (Done (pid, Some (t, year p)), w1)
          | Raised e => (Raised e, w1)
          | OutOfFuel => (OutOfFuel, w1)
          end
      | Raised e => (Raised e, w1)
      | OutOfFuel => (OutOfFuel, w1)
      end
  | _ => (Done (None, None), print MsgNotFound w1)
  end.

(** The [while len(results) < fetch_limit] loop of [fetch_relations]. *)
Fixpoint fetch_pages (fuel : nat) (paper_id relation_type fields : string)
         (fetch_limit : Z) (results : list Entry) (offset : Z) (w : World)
  : list Entry * World :=
  match fuel with
  | O => (results, w)
  | S fuel' =>
      if len results <? fetch_limit then
        let '(data, w1) :=
          request_with_retry (BASE_URL +:+ "/" +:+ paper_id +:+ "/" +:+ relation_type)
            [("fields", PStr fields); ("offset", PInt offset); ("limit", PInt 1000)]%string
            default_max_retries w in
        let batch := if data_truthy data then from_option json_entries None data else None in
        match batch with
        | Some (b :: bs) =>
            let results' := results ++ b :: bs in
            if len (b :: bs) <? 1000 then (results', w1)
            else fetch_pages fuel' paper_id relation_type fields fetch_limit
                   results' (offset + 1000) (time_sleep (seconds 1) w1)
        | _ => (results, w1)
        end
      else (results, w)
  end.

Definition fetch_relations (paper_id relation_type sort_by : string)
           (influential_only : bool) (since_year until_year num_results : option Z)
           (fetch_limit : Z) (w : World) : (list Entry * string) * World :=
  let paper_key :=
    (if String.eqb relation_type "citations" then "citingPaper" else "citedPaper")%string in
  let fields := relation_fields paper_key in
  let '(results, w1) :=
    fetch_pages (page_rounds fetch_limit) paper_id relation_type fields fetch_limit [] 0 w in
  let results :=
    List.filter (passes_filter paper_key influential_only since_year until_year) results in
  let results := slice_to_opt num_results (sort_papers results paper_key sort_by) in
  ((results, paper_key), w1).

End WithServer.

End Utils.

(* ===================================================================== *)
(** ** src/utils.py: the older copy used by the plain relation lookup *)
(* ===================================================================== *)

Module LegacyUtils.

Definition default_max_retries : Z := 5.

Section WithServer.
Variable server : Server.

Fixpoint attempt (req : Request) (i : Z) (budget : nat) (w : World)
  : option Json * World :=
  match budget with
  | O => (None, print MsgRetriesExhausted w)
  | S budget' =>
      let w1 := Sent req :: w in
      match server w req with
      | Http status_code body =>
          if status_code =? 200 then (Some body, w1)
          else if status_code =? 429 then
            let wait := (i + 1) * 3 in
            attempt req (i + 1) budget'
              (time_sleep (seconds wait) (print (MsgRateLimited wait) w1))
          else (None, w1)
      | RequestException => (None, print MsgRequestError w1)
      end
  end.

Definition request_with_retry (url : string) (params : list (string * ParamValue))
           (max_retries : Z) (w : World) : option Json * World :=
  attempt (mkRequest url params) 0 (Z.to_nat max_retries) w.

End WithServer.

End LegacyUtils.

(* ===================================================================== *)
(** ** src/scholar/graph.py *)
(* ===================================================================== *)

Module Graph.
Import Utils.

(** *** The networkx graph *)

Record Color := mkColor {
  background : string;
  border : string;
  highlight : string * string
}.

(** The attributes [add_node] gives a node. [size] is the float
    [10 + log10(max(citations, 1)) * 5]; the record keeps the integer
    [max(citations, 1)] it is computed from. [tooltip] keeps the three
    values its text is formatted from. [layer] is the argument of
    [add_node] that [color] and [borderWidth] are derived from, kept as a
    ghost field to state the properties of layers. *)
Record NodeAttrs := mkNodeAttrs {
  label : string;
  tooltip : string * Field Z * Z;
  color : Color;
  size_arg : Z;
  borderWidth : Z;
  layer : Z
}.

Record EdgeAttrs := mkEdgeAttrs {
  edge_color : string;
  width : Z
}.

(** [nx.DiGraph]: the node table and the edge table, in insertion order. *)
Record DiGraph := mkDiGraph {
  nodes : list (string * NodeAttrs);
  edges : list ((string * string) * EdgeAttrs)
}.

Definition empty_digraph : DiGraph := mkDiGraph [] [].

Definition node_ids (g : DiGraph) : list string := map fst (nodes g).
Definition edge_keys (g : DiGraph) : list (string * string) := map fst (edges g).

Definition has_node (g : DiGraph) (n : string) : bool :=
  bool_decide (n ∈ node_ids g).

Definition has_edge (g : DiGraph) (u v : string) : bool :=
  bool_decide ((u, v) ∈ edge_keys g).

Definition number_of_nodes (g : DiGraph) : Z := len (nodes g).

(** Assignment in an insertion-ordered table: an existing key keeps its
    place and takes the new value, a new key goes to the end. *)
Fixpoint table_set {K V} `{EqDecision K} (k : K) (v : V) (t : list (K * V)) : list (K * V) :=
  match t with
  | [] => [(k, v)]
  | (k', v') :: t' => if decide (k = k') then (k, v) :: t' else (k', v') :: table_set k v t'
  end.

Fixpoint table_get {K V} `{EqDecision K} (k : K) (t : list (K * V)) : option V :=
  match t with
  | [] => None
  | (k', v') :: t' => if decide (k = k') then Some v' else table_get k t'
  end.

(** [G.add_node(n, **attrs)] *)
Definition nx_add_node (g : DiGraph) (n : string) (attrs : NodeAttrs) : DiGraph :=
  mkDiGraph (table_set n attrs (nodes g)) (edges g).

(** [G.add_edge(u, v, **attrs)]. networkx would also create an endpoint
    that is not a node yet; [_add_edge] calls it only when both are
    nodes, so the node table is left as it is. *)
Definition nx_add_edge (g : DiGraph) (u v : string) (attrs : EdgeAttrs) : DiGraph :=
  mkDiGraph (nodes g) (table_set (u, v) attrs (edges g)).

Definition node_attrs (g : DiGraph) (n : string) : option NodeAttrs :=
  table_get n (nodes g).

Definition edge_attrs (g : DiGraph) (u v : string) : option EdgeAttrs :=
  table_get (u, v) (edges g).

(** *** PaperGraph *)

(** The key of [_cache]:
    [(paper_id, relation_type, influential_only, since_year, until_year)]. *)
Definition CacheKey : Type := string * string * bool * option Z * option Z.

(** A cached relation list: [(paper_info, is_influential)] pairs. *)
Definition Relations : Type := list (option Paper * option bool).

Record PaperGraph := mkPaperGraph {
  G : DiGraph;
  visited : gset string;
  _cache : gmap CacheKey Relations
}.

(** [PaperGraph()] *)
Definition init : PaperGraph := mkPaperGraph empty_digraph ∅ ∅.

Definition set_G (self : PaperGraph) (g : DiGraph) : PaperGraph :=
  mkPaperGraph g (visited self) (_cache self).

(** [width] is an int or a list of ints. *)
Inductive Width := WInt (n : Z) | WList (l : list Z).

(** [l[i]] with Python's negative indices and [IndexError]. *)
Definition list_item (l : list Z) (i : Z) : Outcome Z :=
  let j := if i <? 0 then i + len l else i in
  if j <? 0 then Raised IndexError
  else match l !! Z.to_nat j with Some x => Done x | None => Raised IndexError end.

(** [(title[:20] + '...') if len(title) > 20 else title] *)
Definition short_label (title : string) : string :=
  if (20 <? str_len title)%nat then str_take 20 title +:+ "..." else title.

Definition add_node (paper_info : Paper) (layer : Z) (self : PaperGraph)
  : Outcome (bool * PaperGraph) :=
  if negb (paper_truthy paper_info) then Done (false, self)
  else
    let pid := dict_get (paperId paper_info) in
    match pid with
    | None => Done (false, self)
    | Some pid =>
        if String.eqb pid "" then Done (false, self)
        else if has_node (G self) pid then Done (true, self)
        else
          match dict_get_default (title paper_info) "Unknown"%string with
          | None => Raised TypeError         (* len(None) *)
          | Some title =>
              let year := year paper_info in
              let citations := or_zero (dict_get (citationCount paper_info)) in
              let color :=
                mkColor "#aaaaaa" (if layer =? 0 then "#0066ff" else "#888888")
                        ("#0066ff", "#0044cc")%string in
              let border_width := if layer =? 0 then 3 else 1 in
              let attrs :=
                mkNodeAttrs (short_label title) (title, year, citations) color
                            (Z.max citations 1) border_width layer in
              Done (true, set_G self (nx_add_node (G self) pid attrs))
          end
    end.

Definition _add_edge (source target : string) (is_influential : option bool)
           (self : PaperGraph) : PaperGraph :=
  if negb (has_node (G self) source) || negb (has_node (G self) target) then self
  else if has_edge (G self) source target then self
  else
    let edge_color := (if truthy_bool is_influential then "#666666" else "#dddddd")%string in
    let edge_width := if truthy_bool is_influential then 3 else 1 in
    set_G self (nx_add_edge (G self) source target (mkEdgeAttrs edge_color edge_width)).

(** [c.isalnum() or c in " -_"] for an ASCII character [c]. *)
Definition keeps_char (c : ascii) : bool :=
  let n := nat_of_ascii c in
  ((48 <=? n) && (n <=? 57) || (65 <=? n) && (n <=? 90) || (97 <=? n) && (n <=? 122)
   || (n =? 32) || (n =? 45) || (n =? 95))%nat.

(** [safe_filename], character by character. Of an ASCII character
    [keeps_char] decides, and a space that is kept becomes an underscore.
    A character outside ASCII is never one of [" -_"], so it is kept
    exactly when [c.isalnum()] holds, which Python reads off the Unicode
    database: [isalnum] is that table, asked about the UTF-8 bytes of the
    character. [keep] tells whether the character whose bytes are being
    read is kept. *)
Fixpoint safe_filename_from (isalnum : Unicode) (keep : bool) (title : string) : string :=
  match title with
  | EmptyString => EmptyString
  | String c rest =>
      if is_continuation c then
        if keep then String c (safe_filename_from isalnum keep rest)
        else safe_filename_from isalnum keep rest
      else if (nat_of_ascii c <? 128)%nat then
        if keeps_char c
        then String (if (nat_of_ascii c =? 32)%nat then "_"%char else c)
                    (safe_filename_from isalnum false rest)
        else safe_filename_from isalnum false rest
      else
        let keep := isalnum (String c (continuation_bytes rest)) in
        if keep then String c (safe_filename_from isalnum keep rest)
        else safe_filename_from isalnum keep rest
  end.

Definition safe_filename (isalnum : Unicode) (title : string) : string :=
  safe_filename_from isalnum false title.

Section WithServer.
Variable server : Server.

(** The order in which Python iterates over a set is not fixed by the
    language; it is a parameter, and no property below depends on it. *)
Variable set_order : gset string -> list string.

(** What [str.isalnum] says of the characters outside ASCII, and which
    paths can be opened for writing. *)
Variable isalnum : Unicode.
Variable disk : Disk.

Definition _get_relations (paper_id relation_type : string) (influential_only : bool)
           (since_year until_year : option Z) (fetch_limit : Z)
           (self : PaperGraph) (w : World) : Relations * PaperGraph * World :=
  let cache_key : CacheKey :=
    (paper_id, relation_type, influential_only, since_year, until_year) in
  match _cache self !! cache_key with
  | Some cached => (cached, self, w)
  | None =>
      let '((items, key), w1) :=
        fetch_relations server paper_id relation_type "citation" influential_only
                        since_year until_year None fetch_limit w in
      let value : Relations :=
        map (fun item => (entry_get key item,
                          dict_get_default (isInfluential item) false)) items in
      (value, mkPaperGraph (G self) (visited self) (<[cache_key := value]> (_cache self)), w1)
  end.

(** The body of [for p_info, is_influential in items], folded over the
    items; the state is the graph and the queue. *)
Fixpoint visit_items (m current_pid : string) (current_depth depth : Z)
         (items : Relations) (self : PaperGraph) (queue : list (string * Z))
  : Outcome (PaperGraph * list (string * Z)) :=
  match items with
  | [] => Done (self, queue)
  | (p_info, is_influential) :: items' =>
      let next := visit_items m current_pid current_depth depth items' in
      match p_info with
      | None => next self queue
      | Some p_info =>
          if negb (paper_truthy p_info) || negb (truthy_str (dict_get (paperId p_info)))
          then next self queue
          else
            let target_id := default ""%string (dict_get (paperId p_info)) in
            match add_node p_info (current_depth + 1) self with
            | Done (_, self1) =>
                let self2 :=
                  if String.eqb m "references"
                  then _add_edge current_pid target_id is_influential self1
                  else _add_edge target_id current_pid is_influential self1 in
                if bool_decide (target_id ∉ visited self2) then
                  let self3 :=
                    mkPaperGraph (G self2) ({[target_id]} ∪ visited self2) (_cache self2) in
                  if current_depth + 1 <? depth
                  then next self3 (queue ++ [(target_id, current_depth + 1)])
                  else next self3 queue
                else next self2 queue
            | Raised e => Raised e
            | OutOfFuel => OutOfFuel
            end
      end
  end.

(** The body of [for m in directions], folded over the directions. *)
Fixpoint expand (directions : list string) (current_pid : string)
         (current_depth depth : Z) (widths : list Z) (influential_only : bool)
         (since_year until_year : option Z) (fetch_limit : Z)
         (self : PaperGraph) (queue : list (string * Z)) (w : World)
  : Outcome (PaperGraph * list (string * Z) * World) :=
  match directions with
  | [] => Done (self, queue, w)
  | m :: directions' =>
      match list_item widths (Z.min current_depth (len widths - 1)) with
      | Done cur_width =>
          let '(relations, self1, w1) :=
            _get_relations current_pid m influential_only since_year until_year
                           fetch_limit self w in
          let items :=
            List.filter (fun item => match fst item with
                                     | Some info => paper_truthy info
                                     | None => false
                                     end)
                        (slice_to cur_width relations) in
          match visit_items m current_pid current_depth depth items self1 queue with
          | Done (self2, queue2) =>
              expand directions' current_pid current_depth depth widths influential_only
                     since_year until_year fetch_limit self2 queue2 w1
          | Raised e => Raised e
          | OutOfFuel => OutOfFuel
          end
      | Raised e => Raised e
      | OutOfFuel => OutOfFuel
      end
  end.

(** The [while queue] loop. *)
Fixpoint bfs (fuel : nat) (directions : list string) (depth : Z) (widths : list Z)
         (influential_only : bool) (since_year until_year : option Z) (fetch_limit : Z)
         (queue : list (string * Z)) (self : PaperGraph) (w : World)
  : Outcome (PaperGraph * World) :=
  match queue with
  | [] => Done (self, w)
  | (current_pid, current_depth) :: queue' =>
      match fuel with
      | O => OutOfFuel
      | S fuel' =>
          if depth <=? current_depth
          then bfs fuel' directions depth widths influential_only since_year until_year
                   fetch_limit queue' self w
          else
            match expand directions current_pid current_depth depth widths
                         influential_only since_year until_year fetch_limit
                         self queue' w with
            | Done (self1, queue1, w1) =>
                bfs fuel' directions depth widths influential_only since_year until_year
                    fetch_limit queue1 self1 (time_sleep 500 w1)
            | Raised e => Raised e
            | OutOfFuel => OutOfFuel
            end
      end
  end.

(** The inner loop of the densification pass, for one node [pid]. *)
Definition densify_node (nodes : gset string) (pid : string) (relations : Relations)
           (self : PaperGraph) : PaperGraph :=
  foldl (fun self' item =>
           let ref_id := from_option (fun info : Paper =>
                                        if paper_truthy info then dict_get (paperId info)
                                        else None) None (fst item) in
           match ref_id with
           | Some ref_id =>
               if bool_decide (ref_id ∈ nodes) then _add_edge pid ref_id (snd item) self'
               else self'
           | None => self'
           end) self relations.

(** Step 3 of [build]: the densification pass. *)
Definition densify (influential_only : bool) (since_year until_year : option Z)
           (fetch_limit : Z) (self : PaperGraph) (w : World) : PaperGraph * World :=
  let nodes : gset string := list_to_set (node_ids (G self)) in
  foldl (fun st pid =>
           let '(relations, self1, w1) :=
             _get_relations pid "references" influential_only since_year until_year
                            fetch_limit (fst st) (snd st) in
           (densify_node nodes pid relations self1, w1))
        (self, w) (set_order nodes).

Definition build (fuel : nat) (start_title mode : string) (depth : Z) (width : Width)
           (influential_only : bool) (since_year until_year : option Z) (fetch_limit : Z)
           (self : PaperGraph) (w : World) : Outcome (PaperGraph * World) :=
  let widths := match width with WInt n => [n] | WList l => l end in
  match search_paper server start_title w with
  | (Done (root_id, _), w1) =>
      if negb (truthy_str root_id) then Done (self, w1)
      else
        let root_id := default ""%string root_id in
        let '(root_data, w2) :=
          request_with_retry server (BASE_URL +:+ "/" +:+ root_id)
            [("fields", PStr "paperId,title,year,citationCount")]%string
            default_max_retries w1 in
        if negb (data_truthy root_data) then Done (self, print MsgSeedDetailsFailed w2)
        else
          match add_node (from_option json_paper empty_paper root_data) 0 self with
          | Done (_, self1) =>
              let self2 :=
                mkPaperGraph (G self1) ({[root_id]} ∪ visited self1) (_cache self1) in
              let directions :=
                (if String.eqb mode "all" then ["references"; "citations"] else [mode])%string in
              match bfs fuel directions depth widths influential_only since_year
                        until_year fetch_limit [(root_id, 0)] self2 w2 with
              | Done (self3, w3) =>
                  Done (densify influential_only since_year until_year fetch_limit self3 w3)
              | Raised e => Raised e
              | OutOfFuel => OutOfFuel
              end
          | Raised e => Raised e
          | OutOfFuel => OutOfFuel
          end
  | (Raised e, _) => Raised e
  | (OutOfFuel, _) => OutOfFuel
  end.

(** [save]: the rendering is the collaborator's. What is kept is the
    call [net.save_graph(filename)]: it opens [filename] for writing,
    which raises where the path cannot be opened, and else leaves the
    page there ([Saved filename]). The failure of [webbrowser.open] is
    caught and changes nothing. *)
Definition save (filename : string) (self : PaperGraph) (w : World) : Outcome World :=
  if number_of_nodes (G self) =? 0 then Done (print MsgGraphEmpty w)
  else
    let w1 := print MsgDrawing w in
    if disk filename then Done (print (MsgFileWritten filename) (Saved filename :: w1))
    else Raised OSError.

Definition main (fuel : nat) (title mode : string) (depth : Z) (width : Width)
           (influential_only : bool) (since_year until_year : option Z) (fetch_limit : Z)
           (save_results : bool) (save_path : option string) (w : World) : Outcome World :=
  let g := init in
  match build fuel title mode depth width influential_only since_year until_year
              fetch_limit g w with
  | Done (g, w1) =>
      if save_results then
        let output_dir := if truthy_str save_path then default ""%string save_path else "."%string in
        save (output_dir +:+ "/graph_" +:+ mode +:+ "_" +:+ safe_filename isalnum title
                +:+ ".html") g w1
      else Done w1
  | Raised e => Raised e
  | OutOfFuel => OutOfFuel
  end.

End WithServer.

End Graph.

(* ===================================================================== *)
(** ** Vocabulary of the specification *)
(* ===================================================================== *)

Module Spec.
Import Utils Graph.

(** *** Retry policy *)

(** The world in which attempt [i] of a request is made when every
    earlier attempt, starting in world [w], was answered 429: each of
    them logged the request, the notice and a wait of [(j+1)*3] s. *)
Fixpoint world_at (req : Request) (w : World) (i : nat) : World :=
  match i with
  | O => w
  | S j =>
      let wait := (Z.of_nat j + 1) * 3 in
      time_sleep (seconds wait) (print (MsgRateLimited wait) (Sent req :: world_at req w j))
  end.

(** The first [k] attempts are all answered 429. *)
Definition rate_limited (server : Server) (req : Request) (w : World) (k : nat) : Prop :=
  forall i, (i < k)%nat -> exists body, server (world_at req w i) req = Http 429 body.

(** *** Sorting *)

Definition primary_keys : list string := ["citation"; "influential"; "year"]%string.

(** The three dimensions of an entry, read off its fields: the citation
    count of the related paper, 0 when there is none; 1 when the entry is
    flagged influential and 0 when it is not; the year of the related
    paper, 0 when there is none. *)
Definition citation_count (paper_key : string) (x : Entry) : Z :=
  match entry_get paper_key x with
  | Some p => match citationCount p with Val n => n | _ => 0 end
  | None => 0
  end.

Definition influential_flag (x : Entry) : Z :=
  match isInfluential x with Val true => 1 | _ => 0 end.

Definition publication_year (paper_key : string) (x : Entry) : Z :=
  match entry_get paper_key x with
  | Some p => match year p with Val y => y | _ => 0 end
  | None => 0
  end.

(** The triple an entry is ranked by: the primary dimension first, the
    other two after it in the order citation count, influential, year. *)
Definition rank (paper_key strategy : string) (x : Entry) : Z * Z * Z :=
  let c := citation_count paper_key x in
  let i := influential_flag x in
  let y := publication_year paper_key x in
  if String.eqb strategy "influential" then (i, c, y)
  else if String.eqb strategy "year" then (y, c, i)
  else (c, i, y).

(** [a] ranks at least as high as [b]: at the first component where the
    two triples differ, that of [a] is the greater. *)
Definition rank_ge (a b : Z * Z * Z) : Prop :=
  let '(a1, a2, a3) := a in
  let '(b1, b2, b3) := b in
  b1 < a1 \/ (a1 = b1 /\ (b2 < a2 \/ (a2 = b2 /\ b3 <= a3))).

(** A triple as the tuple that Python compares. *)
Definition as_tuple (t : Z * Z * Z) : list Z := let '(a, b, c) := t in [a; b; c].

(** *** Filtering, as the specification words it *)

(** A bound is set when it is given; a year is known when it is given. *)
Definition kept_as_specified (paper_key : string) (influential_only : bool)
           (since_year until_year : option Z) (x : Entry) : Prop :=
  (influential_only = true -> dict_get (isInfluential x) = Some true) /\
  (forall since, since_year = Some since ->
     exists y, dict_get (year (entry_paper paper_key x)) = Some y /\ since <= y) /\
  (forall until, until_year = Some until ->
     exists y, dict_get (year (entry_paper paper_key x)) = Some y /\ y <= until).

(** A bound is set when it is given and not 0; a year is known when it
    is given and not 0. *)
Definition kept_by_truthiness (paper_key : string) (influential_only : bool)
           (since_year until_year : option Z) (x : Entry) : Prop :=
  (influential_only = true -> dict_get (isInfluential x) = Some true) /\
  (forall since, since_year = Some since -> since <> 0 ->
     exists y, dict_get (year (entry_paper paper_key x)) = Some y /\ y <> 0 /\ since <= y) /\
  (forall until, until_year = Some until -> until <> 0 ->
     exists y, dict_get (year (entry_paper paper_key x)) = Some y /\ y <> 0 /\ y <= until).

(** *** The relation cache *)

(** The six components of a query to the cache. *)
Record RelationQuery := mkQuery {
  q_paper_id : string;
  q_relation_type : string;
  q_influential_only : bool;
  q_since_year : option Z;
  q_until_year : option Z;
  q_fetch_limit : Z
}.

(** The key [_get_relations] files a query under. *)
Definition cache_key (q : RelationQuery) : CacheKey :=
  (q_paper_id q, q_relation_type q, q_influential_only q, q_since_year q, q_until_year q).

(** Two queries agree on everything but, possibly, the fetch limit. *)
Definition same_but_limit (q1 q2 : RelationQuery) : Prop :=
  q_paper_id q1 = q_paper_id q2 /\ q_relation_type q1 = q_relation_type q2 /\
  q_influential_only q1 = q_influential_only q2 /\ q_since_year q1 = q_since_year q2 /\
  q_until_year q1 = q_until_year q2.

(** The cache's get operation. *)
Definition get (server : Server) (q : RelationQuery) (self : PaperGraph) (w : World)
  : Relations * PaperGraph * World :=
  _get_relations server (q_paper_id q) (q_relation_type q) (q_influential_only q)
                 (q_since_year q) (q_until_year q) (q_fetch_limit q) self w.

(** The retrieval that a query stands for, made in world [w]: the
    relation list of its paper, fetched within its fetch limit, filtered
    by its flag and its year bounds, as [(paper_info, is_influential)]
    pairs; and the world after the requests of the retrieval. *)
Definition retrieval (server : Server) (q : RelationQuery) (w : World) : Relations * World :=
  let '((items, key), w1) :=
    fetch_relations server (q_paper_id q) (q_relation_type q) "citation" (q_influential_only q)
                    (q_since_year q) (q_until_year q) None (q_fetch_limit q) w in
  (map (fun item => (entry_get key item, dict_get_default (isInfluential item) false)) items, w1).

(** Any number of calls to the cache, one after the other. *)
Definition gets (server : Server) (qs : list RelationQuery) (self : PaperGraph) (w : World)
  : PaperGraph * World :=
  foldl (fun st q => let '(_, self1, w1) := get server q (fst st) (snd st) in (self1, w1))
        (self, w) qs.

(** *** Graphs *)

(** A directed simple graph whose edges join nodes of the graph. *)
Definition simple_digraph (g : DiGraph) : Prop :=
  NoDup (node_ids g) /\ NoDup (edge_keys g) /\
  forall u v, (u, v) ∈ edge_keys g -> u ∈ node_ids g /\ v ∈ node_ids g.

(** [g'] is [g] with edges added at the end of the edge table: the
    nodes are those of [g], the edges of [g] are left as they are, no
    added edge repeats an edge of [g] or another added edge, and every
    added edge joins two nodes of [g]. *)
Definition adds_edges (g g' : DiGraph) : Prop :=
  nodes g' = nodes g /\
  exists es, edges g' = edges g ++ es /\ NoDup (map fst es) /\
             forall u v, (u, v) ∈ map fst es ->
                         u ∈ node_ids g /\ v ∈ node_ids g /\ (u, v) ∉ edge_keys g.

(** [g'] is [g] with nodes and edges added at the end of the two tables:
    what [g] holds is left as it is, every added node satisfies [L], and
    [g'] is a simple digraph if [g] is. *)
Definition grows (L : string * NodeAttrs -> Prop) (g g' : DiGraph) : Prop :=
  (exists ns, nodes g' = nodes g ++ ns /\ Forall L ns) /\
  (exists es, edges g' = edges g ++ es) /\
  (simple_digraph g -> simple_digraph g').

(** The layer of a node that the expansion inserts: one more than the
    depth of a dequeued entry that is below the maximum depth. *)
Definition expansion_layer (depth : Z) (n : string * NodeAttrs) : Prop :=
  exists d, 0 <= d < depth /\ layer (snd n) = d + 1.

Definition seed_layer (n : string * NodeAttrs) : Prop := layer (snd n) = 0.

(** Levels left below the maximum depth for a queue entry. *)
Definition remaining (depth : Z) (e : string * Z) : nat := Z.to_nat (depth - snd e).

(** The entries that one dequeued entry at depth [d] adds to the queue. *)
Definition enqueued (d depth : Z) (added : list (string * Z)) : Prop :=
  Forall (fun e => snd e = d + 1 /\ d + 1 < depth) added.

(** The files written so far: the pages that [net.save_graph] was called
    for and returned. *)
Definition files_written (w : World) : list string :=
  omap (fun e => match e with Saved f => Some f | _ => None end) w.

End Spec.

(* ===================================================================== *)
(** ** A small citation network to run the program on *)
(* ===================================================================== *)

Module Demo.
Import Utils Graph.

Definition paper (id : string) (citations : Z) : Paper :=
  mkPaper (Val id) (Val ("Paper " +:+ id)) (Val 2017) (Val citations).

Definition reference (id : string) (citations : Z) (influential : bool) : Entry :=
  mkEntry (Val influential) Missing (Val (paper id citations)).

(** References that every primary key orders in another way: A and D
    are level on citations and influence, B alone is influential, and E
    has neither a citation count nor a flag nor a year. *)
Definition mixed_references : list Entry :=
  [mkEntry (Val false) Missing (Val (mkPaper (Val "A") (Val "Paper A") (Val 2019) (Val 50)));
   mkEntry (Val true) Missing (Val (mkPaper (Val "B") (Val "Paper B") (Val 2015) (Val 10)));
   mkEntry (Val false) Missing (Val (mkPaper (Val "C") (Val "Paper C") (Val 2017) (Val 80)));
   mkEntry (Val false) Missing (Val (mkPaper (Val "D") (Val "Paper D") (Val 2021) (Val 50)));
   mkEntry Null Missing (Val (mkPaper (Val "E") (Val "Paper E") Null Missing))]%string.

(** The ids of the related papers of a list of references. *)
Definition cited_ids (l : list Entry) : list (option string) :=
  map (fun x => dict_get (paperId (entry_paper "citedPaper" x))) l.

(** The seed X has five references, with 50, 10, 80, 5 and 30 citations;
    only the one with 80 is flagged influential. *)
Definition references_of_X : list Entry :=
  [reference "A" 50 false; reference "B" 10 false; reference "C" 80 true;
   reference "D" 5 false; reference "E" 30 false]%string.

(** The API: the search finds X, X has the references above, and every
    other relation request is answered 404. *)
Definition server : Server := fun _ req =>
  if String.eqb (url req) (BASE_URL +:+ "/search") then
    Http 200 (JSearch (Val [mkPaper (Val "X") (Val "Attention Is All You Need") (Val 2017) Missing]))%string
  else if String.eqb (url req) (BASE_URL +:+ "/X") then
    Http 200 (JPaper (paper "X" 100000))
  else if String.eqb (url req) (BASE_URL +:+ "/X/references") then
    Http 200 (JPage (Val references_of_X))
  else Http 404 JEmpty.

(** The same API, except that the details of X cannot be had. *)
Definition server_without_details : Server := fun w req =>
  if String.eqb (url req) (BASE_URL +:+ "/X") then Http 500 JEmpty else server w req.

(** An API that answers 429 three times and then succeeds. *)
Definition busy_server : Server := fun w req =>
  if (requests w <? 3)%nat then Http 429 JEmpty else Http 200 (JPaper (paper "X" 1)).

Definition title : string := "Attention Is All You Need".

(** A Unicode table that knows one letter outside ASCII, e with an acute
    accent (the bytes 195, 169); a disk where every path can be written,
    and one where none can. *)
Definition e_acute : string :=
  String (ascii_of_nat 195) (String (ascii_of_nat 169) EmptyString).

Definition unicode : Unicode := fun ch => String.eqb ch e_acute.

Definition disk : Disk := fun _ => true.

Definition read_only_disk : Disk := fun _ => false.

(** [build(title, mode="references", depth=1, width=[3],
    influential_only=False)] on a fresh [PaperGraph]. *)
Definition run : Outcome (PaperGraph * World) :=
  build server elements 5 title "references" 1 (WList [3]) false None None 10000 init [].

Definition graph : PaperGraph :=
  Eval vm_compute in match run with Done (g, _) => g | _ => init end.

Definition world : World :=
  Eval vm_compute in match run with Done (_, w) => w | _ => [] end.

End Demo.

(* ===================================================================== *)
(** ** src/utils.py: the pagination loop of the older [fetch_relations] *)
(* ===================================================================== *)

Module LegacyFetch.

Definition BASE_URL : string := "https://api.semanticscholar.org/graph/v1/paper".

(** The older copy does not ask for the related paper's id. *)
Definition relation_fields (paper_key : string) : string :=
  "isInfluential," +:+ paper_key +:+ ".title," +:+ paper_key +:+ ".year,"
    +:+ paper_key +:+ ".citationCount".

(** ["data" in data]: the key is there, whatever it holds. *)
Definition has_data (j : Json) : bool :=
  match j with
  | JPage Missing | JSearch Missing => false
  | JPage _ | JSearch _ => true
  | JEmpty | JPaper _ => false
  end.

Section WithServer.
Variable server : Server.

(** The [while True] loop of [fetch_relations]. Nothing bounds the number
    of its rounds, so the model takes fuel; [results.extend(None)] raises
    [TypeError] when the page holds [data: null]. *)
Fixpoint fetch_pages (fuel : nat) (paper_id relation_type fields : string)
         (results : list Entry) (offset : Z) (w : World) : Outcome (list Entry) * World :=
  match fuel with
  | O => (OutOfFuel, w)
  | S fuel' =>
      let '(data, w1) :=
        LegacyUtils.request_with_retry server
          (BASE_URL +:+ "/" +:+ paper_id +:+ "/" +:+ relation_type)
          [("fields", PStr fields); ("offset", PInt offset); ("limit", PInt 1000)]%string
          LegacyUtils.default_max_retries w in
      match data with
      | Some j =>
          if json_truthy j && has_data j then
            match json_entries j with
            | None => (Raised TypeError, w1)
            | Some batch =>
                let results' := results ++ batch in
                if len batch <? 1000 then (Done results', w1)
                else fetch_pages fuel' paper_id relation_type fields results'
                                 (offset + 1000) (time_sleep (seconds 1) w1)
            end
          else (Done results, w1)
      | None => (Done results, w1)
      end
  end.

End WithServer.

End LegacyFetch.

(* ===================================================================== *)
(** ** src/scholar/utils.py and src/scholar/relation.py: the relation
       lookup, its table and its CSV file *)
(* ===================================================================== *)

Module Relation.
Import Utils.

(** A Python value in a printed or written cell. *)
Inductive Cell :=
| CNone
| CInt (n : Z)
| CStr (s : string).

(** One row that [save_to_csv] hands to [csv.DictWriter.writerow], under
    the header [isInfluential, citationCount, year, title]. *)
Record CsvRow := mkCsvRow {
  csv_isInfluential : bool;
  csv_citationCount : Z;
  csv_year : Cell;
  csv_title : Cell
}.

Definition csv_row (paper_key : string) (item : Entry) : CsvRow :=
  let p := entry_paper paper_key item in
  mkCsvRow (truthy_bool (dict_get (isInfluential item)))
           (or_zero (dict_get (citationCount p)))
           (match year p with
            | Missing => CStr "N/A"
            | Null => CNone
            | Val y => CInt y
            end)
           (match title p with
            | Missing => CStr "Unknown"
            | Null => CNone
            | Val t => CStr t
            end).

(** One line of the table of [print_results]: the index, the year, the
    citation count, the influence mark and the title cut to 50
    characters. *)
Record TableLine := mkTableLine {
  line_index : Z;
  line_year : Cell;
  line_citations : Z;
  line_influential : bool;
  line_title : string
}.

(** [(p.get('title') or 'Unknown')[:50]] *)
Definition table_title (p : Paper) : string :=
  let t := dict_get (title p) in
  str_take 50 (if truthy_str t then default ""%string t else "Unknown"%string).

(** The loop [for i, item in enumerate(data, 1)] of [print_results], from
    index [i] on. The year is formatted with [:<6], which raises
    [TypeError] on [None]. *)
Fixpoint table_lines (i : Z) (data : list Entry) (paper_key : string)
  : Outcome (list TableLine) :=
  match data with
  | [] => Done []
  | item :: rest =>
      let p := entry_paper paper_key item in
      match year p with
      | Null => Raised TypeError
      | y =>
          let line :=
            mkTableLine i (match y with Val n => CInt n | _ => CStr "N/A" end)
                        (or_zero (dict_get (citationCount p)))
                        (truthy_bool (dict_get (isInfluential item)))
                        (table_title p) in
          match table_lines (i + 1) rest paper_key with
          | Done lines => Done (line :: lines)
          | Raised e => Raised e
          | OutOfFuel => OutOfFuel
          end
      end
  end.

(** What the relation lookup shows and writes, in order. *)
Inductive output :=
| InvalidFind
| Locked
| NoResults
| Table (lines : list TableLine)
| CsvFile (output_path : string) (rows : list CsvRow).

Definition print_results (data : list Entry) (paper_key : string) : Outcome output :=
  match data with
  | [] => Done NoResults
  | _ =>
      match table_lines 1 data paper_key with
      | Done lines => Done (Table lines)
      | Raised e => Raised e
      | OutOfFuel => OutOfFuel
      end
  end.

Section WithServer.
Variable server : Server.
Variable isalnum : Unicode.
Variable disk : Disk.

(** [save_to_csv]: [open(output_path, "w")] raises where the path cannot
    be opened; else the header and one row per entry are written. *)
Definition save_to_csv (data : list Entry) (paper_key output_path : string) : Outcome output :=
  if disk output_path then Done (CsvFile output_path (map (csv_row paper_key) data))
  else Raised OSError.

(** [main] of src/scholar/relation.py. *)
Definition main (title find : string) (num_results fetch_limit : Z) (influential_only : bool)
           (sort_by : string) (since_year until_year : option Z) (save_results : bool)
           (save_path : option string) (w : World) : Outcome (list output) * World :=
  if negb (String.eqb find "reference" || String.eqb find "citation")
  then (Done [InvalidFind], w)
  else
    match search_paper server title w with
    | (Done (paper_id, _), w1) =>
        if negb (truthy_str paper_id) then (Done [], w1)
        else
          let paper_id := default ""%string paper_id in
          let relation_type :=
            (if String.eqb find "reference" then "references" else "citations")%string in
          let '((data, paper_key), w2) :=
            fetch_relations server paper_id relation_type sort_by influential_only
                            since_year until_year None fetch_limit w1 in
          let printed :=
            if 0 <? num_results
            then match print_results (slice_to num_results data) paper_key with
                 | Done o => Done [o]
                 | Raised e => Raised e
                 | OutOfFuel => OutOfFuel
                 end
            else Done [] in
          match printed with
          | Done shown =>
              if save_results then
                let output_dir :=
                  if truthy_str save_path then default ""%string save_path else "."%string in
                match save_to_csv data paper_key
                        (output_dir +:+ "/" +:+ relation_type +:+ "_"
                           +:+ Graph.safe_filename isalnum title +:+ ".csv") with
                | Done file => (Done ([Locked] ++ shown ++ [file]), w2)
                | Raised e => (Raised e, w2)
                | OutOfFuel => (OutOfFuel, w2)
                end
              else (Done ([Locked] ++ shown), w2)
          | Raised e => (Raised e, w2)
          | OutOfFuel => (OutOfFuel, w2)
          end
    | (Raised e, w1) => (Raised e, w1)
    | (OutOfFuel, w1) => (OutOfFuel, w1)
    end.

End WithServer.

End Relation.

(* ===================================================================== *)
(** ** The expansion loop with the list of the entries it dequeues *)
(* ===================================================================== *)

Module Trace.
Import Graph.

Section WithServer.
Variable server : Server.

(** [bfs] again, returning besides its outcome the entries that
    [queue.pop(0)] took out, in order (lemma [bfs_trace_outcome] shows
    that the outcome is that of [bfs]). *)
Fixpoint bfs_trace (fuel : nat) (directions : list string) (depth : Z) (widths : list Z)
         (influential_only : bool) (since_year until_year : option Z) (fetch_limit : Z)
         (queue : list (string * Z)) (self : PaperGraph) (w : World)
  : Outcome (PaperGraph * World) * list (string * Z) :=
  match queue with
  | [] => (Done (self, w), [])
  | (current_pid, current_depth) :: queue' =>
      match fuel with
      | O => (OutOfFuel, [])
      | S fuel' =>
          let '(outcome, dequeued) :=
            if depth <=? current_depth
            then bfs_trace fuel' directions depth widths influential_only since_year
                           until_year fetch_limit queue' self w
            else
              match expand server directions current_pid current_depth depth widths
                           influential_only since_year until_year fetch_limit
                           self queue' w with
              | Done (self1, queue1, w1) =>
                  bfs_trace fuel' directions depth widths influential_only since_year
                            until_year fetch_limit queue1 self1 (time_sleep 500 w1)
              | Raised e => (Raised e, [])
              | OutOfFuel => (OutOfFuel, [])
              end in
          (outcome, (current_pid, current_depth) :: dequeued)
      end
  end.

End WithServer.

End Trace.

(* ===================================================================== *)
(** ** More vocabulary *)
(* ===================================================================== *)

Module Spec2.
Import Utils Graph.

(** The sum of the waits of a run, in milliseconds. *)
Definition total_wait (w : World) : Z := foldr Z.add 0 (waits w).

(** A title made of ASCII characters only. *)
Definition ascii_only (s : string) : Prop :=
  Forall (fun c => (nat_of_ascii c < 128)%nat) (String.list_ascii_of_string s).

(** A letter, a digit, a hyphen or an underscore. *)
Definition safe_char (c : ascii) : Prop :=
  let n := nat_of_ascii c in
  (48 <= n <= 57 \/ 65 <= n <= 90 \/ 97 <= n <= 122 \/ n = 45 \/ n = 95)%nat.

(** [ref_info.get('paperId') if ref_info else None], for one item of a
    cached relation list. *)
Definition ref_id_of (item : option Paper * option bool) : option string :=
  from_option (fun info : Paper => if paper_truthy info then dict_get (paperId info) else None)
              None (fst item).

(** The key under which the densification pass looks up the references
    of [pid]. *)
Definition references_key (pid : string) (influential_only : bool)
           (since_year until_year : option Z) : CacheKey :=
  (pid, "references"%string, influential_only, since_year, until_year).

(** An API whose every answer is a full page of relation entries. *)
Definition always_full_pages (server : Server) : Prop :=
  forall w req, exists l, server w req = Http 200 (JPage (Val l)) /\ 1000 <= len l.

(** An API that keeps to its page size. *)
Definition pages_within_limit (server : Server) : Prop :=
  forall w req body l, server w req = Http 200 body -> json_entries body = Some l ->
                       len l <= 1000.

(** An entry whose related paper has [year: null]. *)
Definition year_is_null (paper_key : string) (item : Entry) : Prop :=
  year (entry_paper paper_key item) = Null.

End Spec2.

Module Demo2.
Import Utils.

(** An API that answers every request with 1000 blank entries. *)
Definition endless_server : Server := fun _ _ =>
  Http 200 (JPage (Val (replicate 1000 empty_entry))).

(** The references of X, the second with [year: null]. *)
Definition references_with_null_year : list Entry :=
  [Demo.reference "A" 50 false;
   mkEntry (Val false) Missing (Val (mkPaper (Val "B") (Val "Paper B") Null (Val 10)))]%string.

(** The references of X looked up, three of them shown, all of them
    saved: [main(title, find="reference", num_results=3,
    save_results=True)] of src/scholar/relation.py. *)
Definition lookup : Outcome (list Relation.output) * World :=
  Relation.main Demo.server Demo.unicode Demo.disk Demo.title "reference" 3 10000 false
                "citation" None None true None [].

Definition lookup_outputs : list Relation.output :=
  Eval vm_compute in match fst lookup with Done outputs => outputs | _ => [] end.

Definition lookup_world : World := Eval vm_compute in snd lookup.

Definition lookup_rows : list Relation.CsvRow :=
  Eval vm_compute in
    match last lookup_outputs with Some (Relation.CsvFile _ rows) => rows | _ => [] end.

End Demo2.

Import Utils Graph Spec.

(* ===================================================================== *)
(** ** The retry policy of [request_with_retry] *)
(* ===================================================================== *)

Section RetryPolicy.
Variable server : Server.
Variable req : Request.
Variable w : World.

Lemma attempt_skips_rate_limited (k budget j : nat) :
  (forall i, (j <= i < j + k)%nat -> exists body, server (world_at req w i) req = Http 429 body) ->
  attempt server req (Z.of_nat j) (k + budget) (world_at req w j)
  = attempt server req (Z.of_nat (j + k)) budget (world_at req w (j + k)).
Proof.
  revert j. induction k as [|k IH]; intros j Hlim.
  - by rewrite Nat.add_0_r.
  - destruct (Hlim j) as [body Hbody]; [lia|].
    replace (j + S k)%nat with (S j + k)%nat by lia.
    rewrite <- IH by (intros i Hi; apply Hlim; lia).
    cbn [Nat.add attempt world_at]. rewrite Hbody. cbn [Z.eqb Pos.eqb].
    f_equal. lia.
Qed.

Lemma attempt_after_rate_limited (k budget : nat) :
  rate_limited server req w k ->
  attempt server req 0 (k + budget) w
  = attempt server req (Z.of_nat k) budget (world_at req w k).
Proof.
  intros Hlim.
  apply (attempt_skips_rate_limited k budget 0). intros i Hi. apply Hlim. lia.
Qed.

Lemma waits_world_at (k : nat) :
  waits (world_at req w k)
  = waits w ++ map (fun i => seconds ((Z.of_nat i + 1) * 3)) (seq 0 k).
Proof.
  induction k as [|k IH].
  - by rewrite app_nil_r.
  - rewrite seq_S, map_app, app_assoc, <- IH. reflexivity.
Qed.

Lemma requests_world_at (k : nat) :
  requests (world_at req w k) = (requests w + k)%nat.
Proof.
  induction k as [|k IH]; [cbn [world_at]; lia|].
  unfold requests in *. cbn. rewrite IH. lia.
Qed.

End RetryPolicy.

Lemma legacy_attempt_eq server req i budget w :
  LegacyUtils.attempt server req i budget w = Utils.attempt server req i budget w.
Proof.
  revert i w. induction budget as [|b IH]; intros i w; [done|].
  cbn. destruct (server w req); [|done]. by rewrite IH.
Qed.

(** C7. [request_with_retry] retries on HTTP 429 only. When the first [k]
    attempts are answered 429, the waits are 3 s, 6 s, ..., [k*3] s, one
    after each of them, and [k] requests have been sent; then
    - if the budget [max_retries] is used up, the call returns the failure
      value [None] (a value, not an exception) after saying so;
    - if attempt [k] is answered 200, its body is returned;
    - if attempt [k] is answered by any other status or by a transport
      fault, [None] is returned at once, with no further request.
    The budget is 10 where the graph builder imports the function from and
    5 in the older copy of the plain relation lookup, which is the same
    function otherwise. *)
Theorem request_with_retry_policy (server : Server) (url : string)
        (params : list (string * ParamValue)) (max_retries : Z) (w : World) (k : nat) :
  let req := mkRequest url params in
  let budget := Z.to_nat max_retries in
  (k <= budget)%nat ->
  rate_limited server req w k ->
  (waits (world_at req w k)
   = waits w ++ map (fun i => seconds ((Z.of_nat i + 1) * 3)) (seq 0 k) /\
   requests (world_at req w k) = (requests w + k)%nat) /\
  (k = budget ->
   Utils.request_with_retry server url params max_retries w
   = (None, print MsgRetriesExhausted (world_at req w k))) /\
  ((k < budget)%nat ->
   (forall body, server (world_at req w k) req = Http 200 body ->
      Utils.request_with_retry server url params max_retries w
      = (Some body, Sent req :: world_at req w k)) /\
   (forall status body, status <> 200 -> status <> 429 ->
      server (world_at req w k) req = Http status body ->
      Utils.request_with_retry server url params max_retries w
      = (None, Sent req :: world_at req w k)) /\
   (server (world_at req w k) req = RequestException ->
      Utils.request_with_retry server url params max_retries w
      = (None, print MsgRequestError (Sent req :: world_at req w k)))) /\
  Utils.default_max_retries = 10 /\
  LegacyUtils.default_max_retries = 5 /\
  LegacyUtils.request_with_retry server url params max_retries w
  = Utils.request_with_retry server url params max_retries w.
Proof.
  intros req budget Hk Hlim.
  assert (Hrun : forall rest, budget = (k + rest)%nat ->
            Utils.request_with_retry server url params max_retries w
            = attempt server req (Z.of_nat k) rest (world_at req w k)).
  { intros rest Hrest. unfold Utils.request_with_retry. fold req. fold budget.
    rewrite Hrest. by apply attempt_after_rate_limited. }
  split; [split; [apply waits_world_at | apply requests_world_at]|].
  split.
  { intros ->. rewrite (Hrun 0%nat) by lia. reflexivity. }
  split.
  { intros Hlt.
    destruct (budget - k)%nat as [|rest] eqn:Hrest; [lia|].
    rewrite (Hrun (S rest)) by lia.
    split; [|split].
    - intros body Hbody. cbn [attempt]. by rewrite Hbody.
    - intros status body H200 H429 Hbody. cbn [attempt]. rewrite Hbody.
      destruct (Z.eqb_spec status 200); [done|].
      by destruct (Z.eqb_spec status 429).
    - intros Hbody. cbn [attempt]. by rewrite Hbody. }
  split; [done|]. split; [done|].
  unfold LegacyUtils.request_with_retry, Utils.request_with_retry.
  apply legacy_attempt_eq.
Qed.

(** The scenario of the specification: three answers 429, then success.
    The waits are 3 s, 6 s and 9 s, and the payload is returned. *)
Lemma request_with_retry_policy_witness :
  waits (world_at (mkRequest "u" []) [] 3) = [3000; 6000; 9000] /\
  (fst (Utils.request_with_retry Demo.busy_server "u" [] 10 [])
   = Some (JPaper (Demo.paper "X" 1))).
Proof.
  pose proof (request_with_retry_policy Demo.busy_server "u" [] 10 [] 3) as H.
  cbv zeta in H.
  destruct H as [[Hwaits _] [_ [Hok _]]].
  - vm_compute. lia.
  - intros i Hi. exists JEmpty.
    destruct i as [|[|[|i]]]; [reflexivity | reflexivity | reflexivity | lia].
  - split; [exact Hwaits|].
    destruct Hok as [Hok _]; [vm_compute; lia|].
    rewrite (Hok (JPaper (Demo.paper "X" 1))); reflexivity.
Defined.

(* ===================================================================== *)
(** ** Sorting: [sort_papers] *)
(* ===================================================================== *)

Lemma tuple_ltb_irrefl (a : list Z) : tuple_ltb a a = false.
Proof.
  induction a as [|x a IH]; [done|].
  cbn. by rewrite Z.ltb_irrefl.
Qed.

Lemma tuple_ltb_asym (a b : list Z) : tuple_ltb a b = true -> tuple_ltb b a = false.
Proof.
  revert b. induction a as [|x a IH]; intros [|y b]; cbn; try done.
  destruct (Z.ltb_spec x y), (Z.ltb_spec y x); try done; try lia.
  apply IH.
Qed.

Lemma tuple_ge_trans (a b c : list Z) :
  tuple_ltb a b = false -> tuple_ltb b c = false -> tuple_ltb a c = false.
Proof.
  revert b c. induction a as [|x a IH]; intros [|y b] [|z c]; cbn; try done.
  destruct (Z.ltb_spec x y), (Z.ltb_spec y x), (Z.ltb_spec y z), (Z.ltb_spec z y),
    (Z.ltb_spec x z), (Z.ltb_spec z x); try done; try lia.
  apply IH.
Qed.

(** Python's order on triples, spelled out. *)
Lemma tuple_ltb_triple (a1 a2 a3 b1 b2 b3 : Z) :
  tuple_ltb [a1; a2; a3] [b1; b2; b3] = true <->
  a1 < b1 \/ (a1 = b1 /\ (a2 < b2 \/ (a2 = b2 /\ a3 < b3))).
Proof.
  cbn.
  destruct (Z.ltb_spec a1 b1), (Z.ltb_spec b1 a1), (Z.ltb_spec a2 b2), (Z.ltb_spec b2 a2),
    (Z.ltb_spec a3 b3), (Z.ltb_spec b3 a3); split; intros; try done; try lia.
Qed.

Section SortFacts.
Context {A : Type} (key : A -> list Z).

Let ge (a b : A) : Prop := tuple_ltb (key a) (key b) = false.

Lemma insert_desc_perm (x : A) (l : list A) : Permutation (insert_desc key x l) (x :: l).
Proof.
  induction l as [|y l IH]; [done|].
  cbn. destruct (tuple_ltb (key x) (key y)); [|done].
  rewrite IH. apply perm_swap.
Qed.

Lemma list_sort_reverse_perm (l : list A) : Permutation (list_sort_reverse key l) l.
Proof.
  induction l as [|x l IH]; [done|].
  cbn. fold (list_sort_reverse key l). rewrite insert_desc_perm. by constructor.
Qed.

Lemma insert_desc_hd (x y : A) (l : list A) :
  ge y x -> HdRel ge y l -> HdRel ge y (insert_desc key x l).
Proof.
  intros Hyx Hhd. destruct l as [|z l]; cbn; [by constructor|].
  destruct (tuple_ltb (key x) (key z)); constructor; [|done].
  by inversion Hhd.
Qed.

Lemma insert_desc_sorted (x : A) (l : list A) :
  Sorted ge l -> Sorted ge (insert_desc key x l).
Proof.
  induction 1 as [|y l Hl IH Hhd]; cbn; [by repeat constructor|].
  destruct (tuple_ltb (key x) (key y)) eqn:Hlt.
  - constructor; [done|]. apply insert_desc_hd; [|done].
    by apply tuple_ltb_asym.
  - constructor; [by constructor|]. by constructor.
Qed.

Lemma list_sort_reverse_sorted (l : list A) : Sorted ge (list_sort_reverse key l).
Proof.
  induction l as [|x l IH]; [constructor|].
  cbn. by apply insert_desc_sorted.
Qed.

Lemma list_sort_reverse_strongly_sorted (l : list A) :
  StronglySorted ge (list_sort_reverse key l).
Proof.
  apply Sorted_StronglySorted; [|apply list_sort_reverse_sorted].
  intros a b c. apply tuple_ge_trans.
Qed.

(** Stability: among the entries with one given key, the order of the
    input is kept. *)
Lemma insert_desc_stable (k : list Z) (x : A) (l : list A) :
  filter (fun a => key a = k) (insert_desc key x l) = filter (fun a => key a = k) (x :: l).
Proof.
  induction l as [|y l IH]; [done|].
  cbn. destruct (tuple_ltb (key x) (key y)) eqn:Hlt; [|done].
  rewrite filter_cons, IH, !filter_cons.
  destruct (decide (key x = k)) as [Hx|Hx], (decide (key y = k)) as [Hy|Hy]; try done.
  rewrite Hx, Hy, tuple_ltb_irrefl in Hlt. done.
Qed.

Lemma list_sort_reverse_stable (k : list Z) (l : list A) :
  filter (fun a => key a = k) (list_sort_reverse key l) = filter (fun a => key a = k) l.
Proof.
  induction l as [|x l IH]; [done|].
  cbn. fold (list_sort_reverse key l).
  by rewrite insert_desc_stable, !filter_cons, IH.
Qed.

Lemma list_sort_reverse_of_sorted (l : list A) :
  Sorted ge l -> list_sort_reverse key l = l.
Proof.
  induction 1 as [|x l Hl IH Hhd]; [done|].
  cbn. fold (list_sort_reverse key l). rewrite IH.
  destruct Hhd as [|y l Hxy]; [done|].
  cbn. unfold ge in Hxy. by rewrite Hxy.
Qed.

Lemma list_sort_reverse_idempotent (l : list A) :
  list_sort_reverse key (list_sort_reverse key l) = list_sort_reverse key l.
Proof. apply list_sort_reverse_of_sorted, list_sort_reverse_sorted. Qed.

End SortFacts.

(** The dimensions that [sort_papers] computes are those fields. *)
Lemma dims_citation (paper_key : string) (x : Entry) :
  dims paper_key x "citation" = citation_count paper_key x.
Proof.
  unfold dims, citation_count, entry_paper. cbn [String.eqb Ascii.eqb Bool.eqb].
  destruct (entry_get paper_key x) as [[[] [] [] []]|]; reflexivity.
Qed.

Lemma dims_influential (paper_key : string) (x : Entry) :
  dims paper_key x "influential" = influential_flag x.
Proof. unfold dims, influential_flag. cbn. by destruct (isInfluential x) as [| |[]]. Qed.

Lemma dims_year (paper_key : string) (x : Entry) :
  dims paper_key x "year" = publication_year paper_key x.
Proof.
  unfold dims, publication_year, entry_paper. cbn [String.eqb Ascii.eqb Bool.eqb].
  destruct (entry_get paper_key x) as [[[] [] [] []]|]; reflexivity.
Qed.

Lemma key_fn_rank (paper_key strategy : string) (x : Entry) :
  strategy ∈ primary_keys ->
  key_fn paper_key strategy x = as_tuple (rank paper_key strategy x).
Proof.
  intros Hin. unfold primary_keys in Hin.
  repeat (apply elem_of_cons in Hin as [->|Hin];
          [change (key_fn paper_key ?s x) with (map (dims paper_key x) (key_order s));
           cbn [key_order];
           match goal with
           | |- map _ ?order = _ =>
               let order' := eval vm_compute in order in change order with order'
           end;
           cbn [map]; rewrite dims_citation, dims_influential, dims_year; reflexivity|]).
  by apply elem_of_nil in Hin.
Qed.

Lemma rank_ge_tuple (a b : Z * Z * Z) :
  tuple_ltb (as_tuple a) (as_tuple b) = false <-> rank_ge a b.
Proof.
  destruct a as [[a1 a2] a3], b as [[b1 b2] b3]. cbn.
  destruct (Z.ltb_spec a1 b1), (Z.ltb_spec b1 a1), (Z.ltb_spec a2 b2), (Z.ltb_spec b2 a2),
    (Z.ltb_spec a3 b3), (Z.ltb_spec b3 a3); split; intros; try done; try lia.
Qed.

Lemma as_tuple_inj (a b : Z * Z * Z) : as_tuple a = as_tuple b <-> a = b.
Proof.
  destruct a as [[a1 a2] a3], b as [[b1 b2] b3]. cbn. split; [intros [= -> -> ->]|intros [= -> -> ->]]; done.
Qed.

Lemma strongly_sorted_impl {A : Type} (R R' : A -> A -> Prop) (l : list A) :
  (forall a b, R a b -> R' a b) -> StronglySorted R l -> StronglySorted R' l.
Proof.
  intros HR. induction 1 as [|x l Hl IH Hx]; constructor; [done|].
  eapply Forall_impl; [exact Hx|]. intros y. apply HR.
Qed.

(** C5. For each primary key among citation, influential and year,
    [sort_papers] ranks an entry by a triple of its three dimensions: the
    citation count of the related paper (0 when there is none), whether
    the entry is flagged influential (1 or 0), and the year of the related
    paper (0 when there is none), the primary one first and the other two
    after it in the order citation count, influential, year. The key that
    the code computes is that triple. The result holds the entries of the
    input, in descending order of the triple (no entry is followed,
    however far, by one that ranks higher); entries with the same triple
    keep the order of the input, and sorting the result again changes
    nothing, so that the ordering is fixed by the input and the primary
    key. *)
Theorem sort_papers_descending (papers : list Entry) (paper_key strategy : string) :
  strategy ∈ primary_keys ->
  let sorted := sort_papers papers paper_key strategy in
  (forall x, key_fn paper_key strategy x = as_tuple (rank paper_key strategy x)) /\
  Permutation sorted papers /\
  StronglySorted (fun a b => rank_ge (rank paper_key strategy a) (rank paper_key strategy b))
                 sorted /\
  (forall t, filter (fun x => rank paper_key strategy x = t) sorted
             = filter (fun x => rank paper_key strategy x = t) papers) /\
  sort_papers sorted paper_key strategy = sorted.
Proof.
  intros Hin sorted. split; [|split; [|split; [|split]]].
  - intros x. by apply key_fn_rank.
  - apply list_sort_reverse_perm.
  - eapply strongly_sorted_impl; [|apply list_sort_reverse_strongly_sorted].
    intros a b. cbv beta. rewrite !key_fn_rank by done. apply rank_ge_tuple.
  - intros t.
    rewrite (list_filter_iff (fun x => rank paper_key strategy x = t)
                             (fun x => key_fn paper_key strategy x = as_tuple t) sorted),
            (list_filter_iff (fun x => rank paper_key strategy x = t)
                             (fun x => key_fn paper_key strategy x = as_tuple t) papers).
    + apply list_sort_reverse_stable.
    + intros x. rewrite key_fn_rank by done. symmetry. apply as_tuple_inj.
    + intros x. rewrite key_fn_rank by done. symmetry. apply as_tuple_inj.
  - apply list_sort_reverse_idempotent.
Qed.

(** Five references that each primary key orders in its own way. By
    citation count: C (80), then D and A (50 both, D the later year), B
    (10), E (none). By influence: B, the only influential one, comes
    first. By year: D (2021), A (2019), C (2017), B (2015), E (none). *)
Lemma sort_papers_descending_witness :
  Demo.cited_ids (sort_papers Demo.mixed_references "citedPaper" "citation")
  = [Some "C"; Some "D"; Some "A"; Some "B"; Some "E"]%string /\
  Demo.cited_ids (sort_papers Demo.mixed_references "citedPaper" "influential")
  = [Some "B"; Some "C"; Some "D"; Some "A"; Some "E"]%string /\
  Demo.cited_ids (sort_papers Demo.mixed_references "citedPaper" "year")
  = [Some "D"; Some "A"; Some "C"; Some "B"; Some "E"]%string /\
  map (rank "citedPaper" "year") (sort_papers Demo.mixed_references "citedPaper" "year")
  = [(2021, 50, 0); (2019, 50, 0); (2017, 80, 0); (2015, 10, 1); (0, 0, 0)] /\
  StronglySorted (fun a b => rank_ge (rank "citedPaper" "year" a) (rank "citedPaper" "year" b))
                 (sort_papers Demo.mixed_references "citedPaper" "year").
Proof.
  do 4 (split; [reflexivity|]).
  assert (Hin : "year"%string ∈ primary_keys) by (unfold primary_keys; set_solver).
  exact (proj1 (proj2 (proj2 (sort_papers_descending Demo.mixed_references "citedPaper" "year"
                                                     Hin)))).
Defined.

(* ===================================================================== *)
(** ** Filtering: [passes_filter] *)
(* ===================================================================== *)

(** C6, as the code has it. The filter keeps an entry if and only if:
    when the influential-only flag is set, its [isInfluential] flag is
    true; and for each year bound that is given and is not 0, its year is
    given, is not 0 and lies on the right side of the bound (bounds
    included). A bound of 0 counts as no bound and a year of 0 as no
    year, so an entry without a year is dropped whenever a bound other
    than 0 is set. *)
Theorem passes_filter_iff (paper_key : string) (influential_only : bool)
        (since_year until_year : option Z) (x : Entry) :
  passes_filter paper_key influential_only since_year until_year x = true <->
  kept_by_truthiness paper_key influential_only since_year until_year x.
Proof.
  unfold passes_filter, kept_by_truthiness.
  generalize (dict_get (year (entry_paper paper_key x))) as y.
  generalize (dict_get (isInfluential x)) as inf.
  intros inf y.
  destruct influential_only, inf as [[]|], since_year as [s|], until_year as [u|], y as [y|];
    cbn;
    repeat match goal with
           | |- context [?a =? ?b] => destruct (Z.eqb_spec a b)
           | |- context [?a <? ?b] => destruct (Z.ltb_spec a b)
           end; cbn;
    (split;
     [ intros Hpass; try discriminate Hpass;
       (split; [done|]); split; intros b Hb Hnz; simplify_eq; try lia; eexists; eauto with lia
     | intros (Hinf & Hsince & Huntil); try done;
       try (specialize (Hinf eq_refl); discriminate Hinf);
       try (destruct (Hsince _ eq_refl) as (? & ? & ? & ?); [done|]; simplify_eq; lia);
       try (destruct (Huntil _ eq_refl) as (? & ? & ? & ?); [done|]; simplify_eq; lia) ]).
Qed.

(** C6, as the specification words it, fails: with [since_year = 0] the
    year window is not applied, and an entry without a year is kept. *)
Lemma passes_filter_zero_bound :
  ~ (forall paper_key influential_only since_year until_year x,
       passes_filter paper_key influential_only since_year until_year x = true <->
       kept_as_specified paper_key influential_only since_year until_year x).
Proof.
  intros H.
  destruct (H "citedPaper"%string false (Some 0) None empty_entry) as [Hkeep _].
  destruct (Hkeep eq_refl) as (_ & Hsince & _).
  destruct (Hsince 0 eq_refl) as (y & Hy & _).
  discriminate Hy.
Qed.

(* ===================================================================== *)
(** ** The relation cache: [_get_relations] *)
(* ===================================================================== *)

Section Cache.
Variable server : Server.

Lemma get_hit (q : RelationQuery) (self : PaperGraph) (w : World) (cached : Relations) :
  _cache self !! cache_key q = Some cached ->
  get server q self w = (cached, self, w).
Proof.
  intros Hhit. unfold get, _get_relations. fold (cache_key q). by rewrite Hhit.
Qed.

(** A call leaves the graph and the visited set alone, keeps every
    cached record, and files its result under the key of its query. *)
Lemma get_spec (q : RelationQuery) (self : PaperGraph) (w : World) :
  forall r self' w', get server q self w = (r, self', w') ->
    G self' = G self /\ visited self' = visited self /\
    _cache self' !! cache_key q = Some r /\
    (forall k v, _cache self !! k = Some v -> _cache self' !! k = Some v).
Proof.
  intros r self' w'. unfold get, _get_relations. fold (cache_key q).
  destruct (_cache self !! cache_key q) as [cached|] eqn:Hlook.
  - intros [= <- <- <-]. done.
  - destruct (fetch_relations _ _ _ _ _ _ _ _ _ _) as [[items key] w1].
    intros [= <- <- <-]. cbn. split; [done|]. split; [done|].
    split; [apply lookup_insert_eq|].
    intros k v Hk. rewrite lookup_insert_ne; [done|]. by intros <-; rewrite Hk in Hlook.
Qed.

Lemma gets_spec (qs : list RelationQuery) (self : PaperGraph) (w : World) :
  forall self' w', gets server qs self w = (self', w') ->
    G self' = G self /\ visited self' = visited self /\
    (forall k v, _cache self !! k = Some v -> _cache self' !! k = Some v).
Proof.
  revert self w. induction qs as [|q qs IH]; intros self w self' w'.
  - intros [= <- <-]. done.
  - unfold gets. cbn [foldl fst snd].
    destruct (get server q self w) as [[r self1] w1] eqn:Hget.
    intros Hrest. apply IH in Hrest as (HG & Hv & Hc).
    apply get_spec in Hget as (HG1 & Hv1 & _ & Hc1).
    split; [congruence|]. split; [congruence|]. eauto.
Qed.

(** A call changes the cache at the key of its query only. *)
Lemma get_frame (q : RelationQuery) (self : PaperGraph) (w : World) :
  forall r self' w', get server q self w = (r, self', w') ->
    forall k, k <> cache_key q -> _cache self' !! k = _cache self !! k.
Proof.
  intros r self' w'. unfold get, _get_relations. fold (cache_key q).
  destruct (_cache self !! cache_key q) as [cached|] eqn:Hlook.
  - intros [= <- <- <-]. done.
  - destruct (fetch_relations _ _ _ _ _ _ _ _ _ _) as [[items key] w1].
    intros [= <- <- <-] k Hk. cbn. by rewrite lookup_insert_ne.
Qed.

(** A query that has no record is answered by its retrieval. *)
Lemma get_miss (q : RelationQuery) (self : PaperGraph) (w : World) :
  _cache self !! cache_key q = None ->
  let '(r, _, w') := get server q self w in (r, w') = retrieval server q w.
Proof.
  intros Hmiss. unfold get, _get_relations, retrieval. fold (cache_key q). rewrite Hmiss.
  by destruct (fetch_relations _ _ _ _ _ _ _ _ _ _) as [[items key] w1].
Qed.

(** Two queries filed under one key: whatever calls lie between them,
    the second is answered from the cache with the record of the first. *)
Lemma get_again (q1 q2 : RelationQuery) (qs : list RelationQuery)
      (self : PaperGraph) (w : World) :
  cache_key q1 = cache_key q2 ->
  let '(r1, self1, w1) := get server q1 self w in
  let '(self2, w2) := gets server qs self1 w1 in
  let '(r2, self3, w3) := get server q2 self2 w2 in
  r2 = r1 /\ w3 = w2 /\ self3 = self2.
Proof.
  intros Hkey.
  destruct (get server q1 self w) as [[r1 self1] w1] eqn:H1.
  destruct (gets server qs self1 w1) as [self2 w2] eqn:H2.
  apply get_spec in H1 as (_ & _ & Hr1 & _).
  apply gets_spec in H2 as (_ & _ & Hkeep).
  rewrite (get_hit q2 self2 w2 r1); [done|].
  rewrite <- Hkey. by apply Hkeep.
Qed.

End Cache.

(** C1. After a first call to the cache for a query, and whatever other
    calls to the cache follow, a call with the same query sends no request
    (the world, and with it the count of requests, is unchanged), leaves
    the cache as it is and returns the list that the first call returned. *)
Theorem cache_get_repeated (server : Server) (q : RelationQuery) (qs : list RelationQuery)
        (self : PaperGraph) (w : World) :
  let '(r1, self1, w1) := get server q self w in
  let '(self2, w2) := gets server qs self1 w1 in
  let '(r2, self3, w3) := get server q self2 w2 in
  r2 = r1 /\ requests w3 = requests w2 /\ w3 = w2 /\ self3 = self2.
Proof.
  pose proof (get_again server q q qs self w eq_refl) as H.
  destruct (get server q self w) as [[r1 self1] w1].
  destruct (gets server qs self1 w1) as [self2 w2].
  destruct (get server q self2 w2) as [[r2 self3] w3].
  destruct H as (-> & -> & ->). done.
Qed.

(** C9, as the code has it. [_get_relations] files the record of a query
    under the five components publication id, relation type,
    influential-only flag, since-year bound and until-year bound, and
    under nothing else: a call stores what it returns under that key and
    leaves every other key of the cache as it was. So two queries share a
    record exactly when they agree on these five. The fetch limit is not
    among them: of two queries that differ in the fetch limit only, the
    second is answered from the cache, with the record of the first and
    without any retrieval. Each of the five is: when the second query
    differs from the first in one of them and has no record yet, the
    record of the first is not used for it; the second call makes the
    retrieval of its own query and stores the result beside the record of
    the first. *)
Theorem cache_key_five_components (server : Server) (q1 q2 : RelationQuery)
        (qs : list RelationQuery) (self : PaperGraph) (w : World) :
  (cache_key q1 = cache_key q2 <-> same_but_limit q1 q2) /\
  (let '(r1, self1, _) := get server q1 self w in
   _cache self1 !! cache_key q1 = Some r1 /\
   forall k, k <> cache_key q1 -> _cache self1 !! k = _cache self !! k) /\
  (same_but_limit q1 q2 ->
   let '(r1, self1, w1) := get server q1 self w in
   let '(self2, w2) := gets server qs self1 w1 in
   let '(r2, self3, w3) := get server q2 self2 w2 in
   r2 = r1 /\ requests w3 = requests w2 /\ _cache self3 = _cache self2) /\
  (~ same_but_limit q1 q2 ->
   _cache self !! cache_key q2 = None ->
   let '(r1, self1, w1) := get server q1 self w in
   let '(r2, self2, w2) := get server q2 self1 w1 in
   (r2, w2) = retrieval server q2 w1 /\
   _cache self2 !! cache_key q1 = Some r1 /\
   _cache self2 !! cache_key q2 = Some r2).
Proof.
  assert (Hiff : cache_key q1 = cache_key q2 <-> same_but_limit q1 q2).
  { unfold cache_key, same_but_limit. split.
    - intros [= -> -> -> -> ->]. done.
    - intros (-> & -> & -> & -> & ->). done. }
  split; [exact Hiff|]. split; [|split].
  - pose proof (get_frame server q1 self w) as Hframe.
    pose proof (get_spec server q1 self w) as Hspec.
    destruct (get server q1 self w) as [[r1 self1] w1].
    destruct (Hspec _ _ _ eq_refl) as (_ & _ & Hr1 & _).
    split; [exact Hr1|]. intros k Hk. by apply (Hframe _ _ _ eq_refl).
  - intros Hsame. apply Hiff in Hsame.
    pose proof (get_again server q1 q2 qs self w Hsame) as H.
    destruct (get server q1 self w) as [[r1 self1] w1].
    destruct (gets server qs self1 w1) as [self2 w2].
    destruct (get server q2 self2 w2) as [[r2 self3] w3].
    destruct H as (-> & -> & ->). done.
  - intros Hdiff Hfresh.
    assert (Hkey : cache_key q2 <> cache_key q1) by (intros Heq; apply Hdiff, Hiff; done).
    pose proof (get_frame server q1 self w) as Hframe.
    pose proof (get_spec server q1 self w) as Hspec.
    destruct (get server q1 self w) as [[r1 self1] w1].
    destruct (Hspec _ _ _ eq_refl) as (_ & _ & Hr1 & _).
    pose proof (Hframe _ _ _ eq_refl _ Hkey) as Hmiss. rewrite Hfresh in Hmiss.
    pose proof (get_miss server q2 self1 w1 Hmiss) as Hget.
    pose proof (get_spec server q2 self1 w1) as Hspec2.
    destruct (get server q2 self1 w1) as [[r2 self2] w2].
    destruct (Hspec2 _ _ _ eq_refl) as (_ & _ & Hr2 & Hkeep).
    split; [exact Hget|]. split; [by apply Hkeep|exact Hr2].
Qed.

(** Two queries for the references of X with fetch limits 0 and 10000
    share a key. Two queries for the references of X, of which only the
    second wants the influential ones, do not: after the first has
    retrieved the five references, the second sends a request of its own
    and is given the one influential reference. *)
Lemma cache_key_five_components_witness :
  (same_but_limit (mkQuery "X" "references" false None None 0)
                  (mkQuery "X" "references" false None None 10000) /\
   cache_key (mkQuery "X" "references" false None None 0)
   = cache_key (mkQuery "X" "references" false None None 10000)) /\
  (let q1 := mkQuery "X" "references" false None None 10000 in
   let q2 := mkQuery "X" "references" true None None 10000 in
   ~ same_but_limit q1 q2 /\
   let '(r1, self1, w1) := get Demo.server q1 init [] in
   let '(r2, self2, w2) := get Demo.server q2 self1 w1 in
   (r2, w2) = retrieval Demo.server q2 w1 /\
   length r1 = 5%nat /\ length r2 = 1%nat /\ requests w1 = 1%nat /\ requests w2 = 2%nat).
Proof.
  split.
  - assert (Hsame : same_but_limit (mkQuery "X" "references" false None None 0)
                                   (mkQuery "X" "references" false None None 10000))
      by (cbv; auto).
    split; [exact Hsame|].
    by apply (cache_key_five_components Demo.server _ _ [] init []).
  - cbv zeta.
    assert (Hdiff : ~ same_but_limit (mkQuery "X" "references" false None None 10000)
                                     (mkQuery "X" "references" true None None 10000)).
    { intros (_ & _ & Hflag & _). discriminate Hflag. }
    split; [exact Hdiff|].
    pose proof (proj2 (proj2 (proj2
      (cache_key_five_components Demo.server
         (mkQuery "X" "references" false None None 10000)
         (mkQuery "X" "references" true None None 10000) [] init []))) Hdiff eq_refl) as Hown.
    destruct (get Demo.server (mkQuery "X" "references" false None None 10000) init [])
      as [[r1 self1] w1] eqn:H1.
    destruct (get Demo.server (mkQuery "X" "references" true None None 10000) self1 w1)
      as [[r2 self2] w2] eqn:H2.
    split; [exact (proj1 Hown)|].
    vm_compute in H1. injection H1 as <- <- <-.
    vm_compute in H2. injection H2 as <- <- <-.
    vm_compute. done.
Defined.

(** C9, as the specification words it, fails: no two queries that differ
    in the fetch limit only have different keys. On the demonstration
    network, a query with fetch limit 0 retrieves nothing; the query with
    fetch limit 10000 that follows is then given that empty record and
    sends no request, although on a fresh cache it retrieves the five
    references of X. *)
Lemma cache_key_ignores_fetch_limit :
  ~ (exists q1 q2, same_but_limit q1 q2 /\ q_fetch_limit q1 <> q_fetch_limit q2 /\
                   cache_key q1 <> cache_key q2) /\
  (let q1 := mkQuery "X" "references" false None None 0 in
   let q2 := mkQuery "X" "references" false None None 10000 in
   let '(r1, self1, w1) := get Demo.server q1 init [] in
   let '(r2, self2, w2) := get Demo.server q2 self1 w1 in
   let '(r, _, w') := get Demo.server q2 init [] in
   r1 = [] /\ r2 = [] /\ requests w2 = 0%nat /\ length r = 5%nat /\ requests w' = 1%nat).
Proof.
  split.
  - intros (q1 & q2 & (H1 & H2 & H3 & H4 & H5) & _ & Hkey).
    apply Hkey. unfold cache_key. congruence.
  - vm_compute. done.
Qed.

(* ===================================================================== *)
(** ** The graph: nodes and edges *)
(* ===================================================================== *)

Section Tables.
Context {K V : Type} `{EqDecision K}.

Lemma table_set_fresh (k : K) (v : V) (t : list (K * V)) :
  k ∉ map fst t -> table_set k v t = t ++ [(k, v)].
Proof.
  induction t as [|[k' v'] t IH]; [done|].
  cbn. intros Hk. apply not_elem_of_cons in Hk as [Hne Hk].
  destruct (decide (k = k')); [done|]. by rewrite IH.
Qed.

Lemma table_get_app (k : K) (v : V) (t t' : list (K * V)) :
  table_get k t = Some v -> table_get k (t ++ t') = Some v.
Proof.
  induction t as [|[k' v'] t IH]; [done|].
  cbn. destruct (decide (k = k')); [done|]. apply IH.
Qed.

End Tables.

Lemma has_node_true (g : DiGraph) (n : string) : has_node g n = true <-> n ∈ node_ids g.
Proof. unfold has_node. apply bool_decide_eq_true. Qed.

Lemma has_node_false (g : DiGraph) (n : string) : has_node g n = false <-> n ∉ node_ids g.
Proof. unfold has_node. apply bool_decide_eq_false. Qed.

Lemma has_edge_false (g : DiGraph) (u v : string) :
  has_edge g u v = false <-> (u, v) ∉ edge_keys g.
Proof. unfold has_edge. apply bool_decide_eq_false. Qed.

Lemma simple_digraph_empty : simple_digraph empty_digraph.
Proof.
  split; [constructor|]. split; [constructor|].
  intros u v Huv. by apply elem_of_nil in Huv.
Qed.

Lemma adds_edges_refl (g : DiGraph) : adds_edges g g.
Proof.
  split; [done|]. exists []. rewrite app_nil_r. split; [done|]. split; [constructor|].
  intros u v Huv. by apply elem_of_nil in Huv.
Qed.

Lemma adds_edges_trans (g1 g2 g3 : DiGraph) :
  adds_edges g1 g2 -> adds_edges g2 g3 -> adds_edges g1 g3.
Proof.
  intros (Hn1 & es1 & He1 & Hnd1 & Hin1) (Hn2 & es2 & He2 & Hnd2 & Hin2).
  assert (Hids : node_ids g2 = node_ids g1) by (unfold node_ids; by rewrite Hn1).
  split; [congruence|].
  exists (es1 ++ es2). split; [by rewrite He2, He1, app_assoc|].
  assert (Hkeys : edge_keys g2 = edge_keys g1 ++ map fst es1)
    by (unfold edge_keys; by rewrite He1, map_app).
  split.
  - rewrite map_app. apply NoDup_app. split; [done|]. split; [|done].
    intros e He1' He2'. destruct e as [u v].
    destruct (Hin2 u v He2') as (_ & _ & Hfresh).
    apply Hfresh. rewrite Hkeys. apply elem_of_app. by right.
  - intros u v Huv. rewrite map_app in Huv. apply elem_of_app in Huv as [Huv|Huv].
    + by apply Hin1.
    + destruct (Hin2 u v Huv) as (Hu & Hv & Hfresh). rewrite Hids in Hu, Hv.
      split; [done|]. split; [done|].
      intros Hold. apply Hfresh. rewrite Hkeys. apply elem_of_app. by left.
Qed.

Lemma adds_edges_simple (g g' : DiGraph) :
  adds_edges g g' -> simple_digraph g -> simple_digraph g'.
Proof.
  intros (Hn & es & He & Hnd & Hin) (Hnodes & Hedges & Hends).
  assert (Hids : node_ids g' = node_ids g) by (unfold node_ids; by rewrite Hn).
  assert (Hkeys : edge_keys g' = edge_keys g ++ map fst es)
    by (unfold edge_keys; by rewrite He, map_app).
  split; [by rewrite Hids|]. split.
  - rewrite Hkeys. apply NoDup_app. split; [done|]. split; [|done].
    intros [u v] Hold Hnew. by destruct (Hin u v Hnew) as (_ & _ & Hfresh).
  - intros u v Huv. rewrite Hids. rewrite Hkeys in Huv.
    apply elem_of_app in Huv as [Huv|Huv]; [by apply Hends|].
    by destruct (Hin u v Huv) as (Hu & Hv & _).
Qed.

Lemma adds_edges_grows (L : string * NodeAttrs -> Prop) (g g' : DiGraph) :
  adds_edges g g' -> grows L g g'.
Proof.
  intros Hadd. split; [|split].
  - exists []. rewrite app_nil_r. split; [apply Hadd|constructor].
  - destruct Hadd as (_ & es & He & _). by exists es.
  - by apply adds_edges_simple.
Qed.

Lemma grows_refl (L : string * NodeAttrs -> Prop) (g : DiGraph) : grows L g g.
Proof. apply adds_edges_grows, adds_edges_refl. Qed.

Lemma grows_trans (L : string * NodeAttrs -> Prop) (g1 g2 g3 : DiGraph) :
  grows L g1 g2 -> grows L g2 g3 -> grows L g1 g3.
Proof.
  intros ((ns1 & Hn1 & HL1) & (es1 & He1) & Hs1) ((ns2 & Hn2 & HL2) & (es2 & He2) & Hs2).
  split; [|split].
  - exists (ns1 ++ ns2). split; [by rewrite Hn2, Hn1, app_assoc|]. by apply Forall_app.
  - exists (es1 ++ es2). by rewrite He2, He1, app_assoc.
  - auto.
Qed.

Lemma grows_weaken (L L' : string * NodeAttrs -> Prop) (g g' : DiGraph) :
  (forall n, L n -> L' n) -> grows L g g' -> grows L' g g'.
Proof.
  intros HLL' ((ns & Hn & HL) & He & Hs).
  split; [|done]. exists ns. split; [done|]. eapply Forall_impl; eauto.
Qed.

(** What [_add_edge] does: nothing, or one new edge between two nodes. *)
Lemma add_edge_spec (source target : string) (is_influential : option bool)
      (self : PaperGraph) :
  let self' := _add_edge source target is_influential self in
  visited self' = visited self /\ _cache self' = _cache self /\
  nodes (G self') = nodes (G self) /\
  (edges (G self') = edges (G self) \/
   exists a, edges (G self') = edges (G self) ++ [((source, target), a)] /\
             source ∈ node_ids (G self) /\ target ∈ node_ids (G self) /\
             (source, target) ∉ edge_keys (G self)).
Proof.
  unfold _add_edge.
  destruct (has_node (G self) source) eqn:Hs; [|cbn; auto].
  destruct (has_node (G self) target) eqn:Ht; [|cbn; auto].
  destruct (has_edge (G self) source target) eqn:He; [cbn; auto|].
  apply has_node_true in Hs, Ht. apply has_edge_false in He.
  cbn. do 3 (split; [done|]). right. eexists. split; [|done].
  by apply table_set_fresh.
Qed.

Lemma add_edge_adds_edges (source target : string) (is_influential : option bool)
      (self : PaperGraph) :
  adds_edges (G self) (G (_add_edge source target is_influential self)).
Proof.
  destruct (add_edge_spec source target is_influential self) as (_ & _ & Hn & [He|He]).
  - split; [done|]. exists []. rewrite app_nil_r. split; [done|]. split; [constructor|].
    intros u v Huv. by apply elem_of_nil in Huv.
  - destruct He as (a & He & Hs & Ht & Hfresh).
    split; [done|]. exists [((source, target), a)]. split; [done|].
    split; [apply NoDup_singleton|].
    intros u v Huv. apply list_elem_of_singleton in Huv as [= -> ->]. done.
Qed.

(** What [add_node] does when it returns: nothing, or one new node, at the
    end of the node table, with the layer it was called with. *)
Lemma add_node_spec (paper_info : Paper) (l : Z) (self : PaperGraph) (b : bool)
      (self' : PaperGraph) :
  add_node paper_info l self = Done (b, self') ->
  visited self' = visited self /\ _cache self' = _cache self /\
  edges (G self') = edges (G self) /\
  (nodes (G self') = nodes (G self) \/
   exists pid a, nodes (G self') = nodes (G self) ++ [(pid, a)] /\
                 dict_get (paperId paper_info) = Some pid /\
                 (pid ∉ node_ids (G self)) /\ layer a = l).
Proof.
  unfold add_node.
  destruct (paper_truthy paper_info); cbn; [|intros [= <- <-]; auto].
  destruct (dict_get (paperId paper_info)) as [pid|]; [|intros [= <- <-]; auto].
  destruct (String.eqb pid ""); [intros [= <- <-]; auto|].
  destruct (has_node (G self) pid) eqn:Hhas; [intros [= <- <-]; auto|].
  destruct (dict_get_default (title paper_info) _) as [title|]; [|done].
  intros [= <- <-]. cbn. do 3 (split; [done|]). right.
  apply has_node_false in Hhas.
  eexists _, _. split; [by apply table_set_fresh|]. done.
Qed.

Lemma add_node_grows (paper_info : Paper) (l : Z) (self : PaperGraph) (b : bool)
      (self' : PaperGraph) :
  add_node paper_info l self = Done (b, self') ->
  grows (fun n => layer (snd n) = l) (G self) (G self').
Proof.
  intros Hadd. apply add_node_spec in Hadd as (_ & _ & He & [Hn|Hn]).
  - apply adds_edges_grows. split; [done|]. exists []. rewrite app_nil_r.
    split; [done|]. split; [constructor|]. intros u v Huv. by apply elem_of_nil in Huv.
  - destruct Hn as (pid & a & Hn & _ & Hfresh & Hl).
    split; [|split].
    + exists [(pid, a)]. split; [done|]. by repeat constructor.
    + exists []. by rewrite app_nil_r.
    + intros (Hnodes & Hedges & Hends).
      assert (Hids : node_ids (G self') = node_ids (G self) ++ [pid])
        by (unfold node_ids; by rewrite Hn, map_app).
      assert (Hkeys : edge_keys (G self') = edge_keys (G self))
        by (unfold edge_keys; by rewrite He).
      split; [|split].
      * rewrite Hids. apply NoDup_app. split; [done|]. split; [|apply NoDup_singleton].
        intros x Hx Hx'. apply list_elem_of_singleton in Hx'. by subst.
      * by rewrite Hkeys.
      * intros u v Huv. rewrite Hkeys in Huv. destruct (Hends u v Huv) as [Hu Hv].
        rewrite Hids. split; apply elem_of_app; by left.
Qed.

(** [add_node] never overwrites: a node that is in the graph keeps its
    attributes, its layer among them, whatever the later call. *)
Lemma add_node_keeps (paper_info : Paper) (l : Z) (self : PaperGraph) (b : bool)
      (self' : PaperGraph) (n : string) (a : NodeAttrs) :
  add_node paper_info l self = Done (b, self') ->
  node_attrs (G self) n = Some a -> node_attrs (G self') n = Some a.
Proof.
  intros Hadd Hn. apply add_node_spec in Hadd as (_ & _ & _ & [Heq|Heq]).
  - unfold node_attrs. by rewrite Heq.
  - destruct Heq as (pid & a' & Heq & _). unfold node_attrs. rewrite Heq.
    by apply table_get_app.
Qed.

(* ===================================================================== *)
(** ** The breadth-first expansion *)
(* ===================================================================== *)

Section Expansion.
Variable server : Server.
Variable set_order : gset string -> list string.

Lemma visit_items_spec (m current_pid : string) (d depth : Z) (items : Relations) :
  forall self queue self' queue',
    visit_items m current_pid d depth items self queue = Done (self', queue') ->
    grows (fun n => layer (snd n) = d + 1) (G self) (G self') /\
    _cache self' = _cache self /\
    exists added, queue' = queue ++ added /\ enqueued d depth added.
Proof.
  induction items as [|[p_info is_influential] items IH]; intros self queue self' queue'.
  - intros [= <- <-]. split; [apply grows_refl|]. split; [done|].
    exists []. split; [by rewrite app_nil_r|constructor].
  - cbn [visit_items].
    destruct p_info as [p_info|]; [|apply IH].
    destruct (negb (paper_truthy p_info) || negb (truthy_str (dict_get (paperId p_info))));
      [apply IH|].
    destruct (add_node p_info (d + 1) self) as [[b self1]| |] eqn:Hadd; [|done|done].
    pose proof (add_node_grows _ _ _ _ _ Hadd) as Hg1.
    apply add_node_spec in Hadd as (_ & Hc1 & _).
    set (target_id := default ""%string (dict_get (paperId p_info))).
    set (self2 := if String.eqb m "references"
                  then _add_edge current_pid target_id is_influential self1
                  else _add_edge target_id current_pid is_influential self1).
    assert (Hg2 : adds_edges (G self1) (G self2) /\ _cache self2 = _cache self1).
    { subst self2. destruct (String.eqb m "references");
        (split; [apply add_edge_adds_edges | apply add_edge_spec]). }
    destruct Hg2 as [Hg2 Hc2].
    assert (Hg : grows (fun n => layer (snd n) = d + 1) (G self) (G self2)).
    { eapply grows_trans; [exact Hg1|]. by apply adds_edges_grows. }
    destruct (bool_decide (target_id ∉ visited self2)).
    + destruct (Z.ltb_spec (d + 1) depth) as [Hlt|Hge].
      * intros Hrest. apply IH in Hrest as (Hg3 & Hc3 & added & -> & Hadded).
        split; [eapply grows_trans; [exact Hg|exact Hg3]|].
        split; [cbn in Hc3; congruence|].
        exists ((target_id, d + 1) :: added). split; [by rewrite <- app_assoc|].
        by constructor.
      * intros Hrest. apply IH in Hrest as (Hg3 & Hc3 & added & -> & Hadded).
        split; [eapply grows_trans; [exact Hg|exact Hg3]|].
        split; [cbn in Hc3; congruence|]. by exists added.
    + intros Hrest. apply IH in Hrest as (Hg3 & Hc3 & added & -> & Hadded).
      split; [eapply grows_trans; [exact Hg|exact Hg3]|].
      split; [congruence|]. by exists added.
Qed.

Lemma get_relations_spec (paper_id relation_type : string) (influential_only : bool)
      (since_year until_year : option Z) (fetch_limit : Z) (self : PaperGraph) (w : World) :
  forall r self' w',
    _get_relations server paper_id relation_type influential_only since_year until_year
                   fetch_limit self w = (r, self', w') ->
    G self' = G self /\ visited self' = visited self.
Proof.
  intros r self' w' Hget.
  pose proof (get_spec server (mkQuery paper_id relation_type influential_only since_year
                                       until_year fetch_limit) self w r self' w' Hget)
    as (HG & Hv & _).
  done.
Qed.

Lemma expand_spec (directions : list string) (current_pid : string) (d depth : Z)
      (widths : list Z) (influential_only : bool) (since_year until_year : option Z)
      (fetch_limit : Z) :
  forall self queue w self' queue' w',
    expand server directions current_pid d depth widths influential_only since_year
           until_year fetch_limit self queue w = Done (self', queue', w') ->
    grows (fun n => layer (snd n) = d + 1) (G self) (G self') /\
    exists added, queue' = queue ++ added /\ enqueued d depth added.
Proof.
  induction directions as [|m directions IH]; intros self queue w self' queue' w'.
  - intros [= <- <- <-]. split; [apply grows_refl|].
    exists []. split; [by rewrite app_nil_r|constructor].
  - cbn [expand].
    destruct (list_item widths _) as [cur_width| |]; [|done|done].
    destruct (_get_relations _ _ _ _ _ _ _ _ _) as [[relations self1] w1] eqn:Hget.
    apply get_relations_spec in Hget as (HG1 & _).
    destruct (visit_items _ _ _ _ _ _ _) as [[self2 queue2]| |] eqn:Hvisit; [|done|done].
    apply visit_items_spec in Hvisit as (Hg2 & _ & added2 & -> & Hadded2).
    intros Hrest. apply IH in Hrest as (Hg3 & added3 & -> & Hadded3).
    split.
    + rewrite <- HG1. eapply grows_trans; [exact Hg2|exact Hg3].
    + exists (added2 ++ added3). split; [by rewrite app_assoc|]. by apply Forall_app.
Qed.

(** The expansion only adds to the graph, and every node it adds has the
    layer [d + 1] of some dequeued depth [0 <= d < depth]. *)
Lemma bfs_grows (fuel : nat) (directions : list string) (depth : Z) (widths : list Z)
      (influential_only : bool) (since_year until_year : option Z) (fetch_limit : Z) :
  forall queue self w self' w',
    Forall (fun e => 0 <= snd e) queue ->
    bfs server fuel directions depth widths influential_only since_year until_year
        fetch_limit queue self w = Done (self', w') ->
    grows (expansion_layer depth) (G self) (G self').
Proof.
  induction fuel as [|fuel IH]; intros queue self w self' w' Hqueue.
  - destruct queue as [|[pid d] queue]; [|done].
    intros [= <- <-]. apply grows_refl.
  - destruct queue as [|[pid d] queue]; [intros [= <- <-]; apply grows_refl|].
    apply Forall_cons in Hqueue as [Hd Hqueue]. cbn in Hd.
    cbn [bfs]. destruct (Z.leb_spec depth d) as [Hskip|Hgo]; [by apply IH|].
    destruct (expand _ _ _ _ _ _ _ _ _ _ _ _ _) as [[[self1 queue1] w1]| |] eqn:Hexp;
      [|done|done].
    apply expand_spec in Hexp as (Hg1 & added & -> & Hadded).
    intros Hrest. apply IH in Hrest.
    + eapply grows_trans; [|exact Hrest].
      eapply grows_weaken; [|exact Hg1].
      intros n Hn. exists d. split; [lia|done].
    + apply Forall_app. split; [done|].
      eapply Forall_impl; [exact Hadded|]. intros e [-> _]. lia.
Qed.

(** *** The densification pass *)

Lemma densify_node_spec (ids : gset string) (pid : string) (relations : Relations) :
  forall self,
    adds_edges (G self) (G (densify_node ids pid relations self)) /\
    visited (densify_node ids pid relations self) = visited self /\
    _cache (densify_node ids pid relations self) = _cache self.
Proof.
  unfold densify_node.
  induction relations as [|item relations IH]; intros self.
  - cbn. split; [apply adds_edges_refl|done].
  - cbn [foldl].
    match goal with |- context [foldl _ ?x relations] => set (self1 := x) end.
    assert (H1 : adds_edges (G self) (G self1) /\ visited self1 = visited self /\
                 _cache self1 = _cache self).
    { subst self1. destruct (from_option _ None (fst item)) as [ref_id|];
        [|split; [apply adds_edges_refl|done]].
      destruct (bool_decide (ref_id ∈ ids)); [|split; [apply adds_edges_refl|done]].
      split; [apply add_edge_adds_edges|].
      split; apply add_edge_spec. }
    destruct H1 as (Hg1 & Hv1 & Hc1).
    destruct (IH self1) as (Hg2 & Hv2 & Hc2).
    split; [eapply adds_edges_trans; [exact Hg1|exact Hg2]|].
    split; congruence.
Qed.

Lemma densify_loop_spec (ids : gset string) (influential_only : bool)
      (since_year until_year : option Z) (fetch_limit : Z) (order : list string) :
  forall st,
    let step := fun (st : PaperGraph * World) (pid : string) =>
                  let '(relations, self1, w1) :=
                    _get_relations server pid "references" influential_only since_year
                                   until_year fetch_limit (fst st) (snd st) in
                  (densify_node ids pid relations self1, w1) in
    adds_edges (G (fst st)) (G (fst (foldl step st order))) /\
    visited (fst (foldl step st order)) = visited (fst st).
Proof.
  intros st step. revert st.
  induction order as [|pid order IH]; intros st.
  - cbn. split; [apply adds_edges_refl|done].
  - cbn [foldl]. destruct (IH (step st pid)) as (Hg3 & Hv3).
    assert (H1 : adds_edges (G (fst st)) (G (fst (step st pid))) /\
                 visited (fst (step st pid)) = visited (fst st)).
    { subst step. cbn beta.
      destruct (_get_relations _ _ _ _ _ _ _ _ _) as [[relations self1] w1] eqn:Hget.
      apply get_relations_spec in Hget as (HG1 & Hv1).
      destruct (densify_node_spec ids pid relations self1) as (Hg2 & Hv2 & _).
      cbn [fst]. rewrite <- HG1. split; [done|congruence]. }
    destruct H1 as (Hg1 & Hv1).
    split; [eapply adds_edges_trans; [exact Hg1|exact Hg3]|congruence].
Qed.

Lemma densify_spec (influential_only : bool) (since_year until_year : option Z)
      (fetch_limit : Z) (self : PaperGraph) (w : World) :
  let self' := fst (densify server set_order influential_only since_year until_year
                            fetch_limit self w) in
  adds_edges (G self) (G self') /\ visited self' = visited self.
Proof.
  apply (densify_loop_spec (list_to_set (node_ids (G self))) influential_only since_year
                           until_year fetch_limit _ (self, w)).
Qed.

End Expansion.

(* ===================================================================== *)
(** ** [build] as a whole *)
(* ===================================================================== *)

Section Build.
Variable server : Server.
Variable set_order : gset string -> list string.

(** The three phases of a build that returns: at most one node for the
    seed, at layer 0; then the nodes of the expansion; then the edges of
    the densification pass. *)
Lemma build_phases (fuel : nat) (start_title mode : string) (depth : Z) (width : Width)
      (influential_only : bool) (since_year until_year : option Z) (fetch_limit : Z)
      (self : PaperGraph) (w : World) (self' : PaperGraph) (w' : World) :
  build server set_order fuel start_title mode depth width influential_only since_year
        until_year fetch_limit self w = Done (self', w') ->
  (exists seed rest,
      nodes (G self') = nodes (G self) ++ seed ++ rest /\ (length seed <= 1)%nat /\
      Forall seed_layer seed /\ Forall (expansion_layer depth) rest) /\
  (simple_digraph (G self) -> simple_digraph (G self')).
Proof.
  assert (Hsame : forall g : DiGraph,
             (exists seed rest,
                 nodes g = nodes g ++ seed ++ rest /\ (length seed <= 1)%nat /\
                 Forall seed_layer seed /\ Forall (expansion_layer depth) rest) /\
             (simple_digraph g -> simple_digraph g)).
  { intros g. split; [|done]. exists [], []. rewrite app_nil_r. cbn. split; [done|].
    split; [lia|]. split; constructor. }
  unfold build.
  destruct (search_paper server start_title w) as [[[root_id info]|e|] w1]; [|done|done].
  destruct (truthy_str root_id); cbn [negb]; [|intros [= <- <-]; apply Hsame].
  destruct (request_with_retry _ _ _ _ _) as [root_data w2].
  destruct (data_truthy root_data); cbn [negb]; [|intros [= <- <-]; apply Hsame].
  destruct (add_node _ 0 self) as [[b self1]| |] eqn:Hadd; [|done|done].
  destruct (bfs _ _ _ _ _ _ _ _ _ _ _ _) as [[self3 w3]| |] eqn:Hbfs; [|done|done].
  intros Hdone.
  assert (Hd : adds_edges (G self3) (G self')).
  { pose proof (densify_spec server set_order influential_only since_year until_year
                             fetch_limit self3 w3) as [Hd _].
    injection Hdone as Hdone. by rewrite Hdone in Hd. }
  apply bfs_grows in Hbfs; [|by repeat constructor]. cbn [G] in Hbfs.
  pose proof (add_node_grows _ _ _ _ _ Hadd) as Hseed.
  apply add_node_spec in Hadd as (_ & _ & _ & Hnodes).
  destruct Hbfs as ((rest & Hrest & HL) & _ & Hs3).
  destruct Hd as (Hn' & Hd'). split.
  - rewrite Hn', Hrest.
    destruct Hnodes as [->|(pid & a & -> & _ & _ & Hl)].
    + exists [], rest. cbn. split; [done|]. split; [lia|]. split; [constructor|done].
    + exists [(pid, a)], rest. rewrite <- app_assoc. split; [done|]. cbn. split; [lia|].
      split; [by repeat constructor|done].
  - intros Hs. eapply adds_edges_simple; [by split|].
    apply Hs3. by apply Hseed.
Qed.

Lemma attempt_files (req : Request) (budget : nat) :
  forall i w, files_written (snd (attempt server req i budget w)) = files_written w.
Proof.
  induction budget as [|budget IH]; intros i w; [done|].
  cbn [attempt]. destruct (server w req) as [status body|]; [|done].
  destruct (status =? 200); [done|]. destruct (status =? 429); [|done].
  by rewrite IH.
Qed.

End Build.

(** C2. The graph of every build that returns, started on a fresh
    [PaperGraph], is a directed simple graph: no two entries of the node
    table have the same publication id, no two entries of the edge table
    have the same ordered pair, and both ends of every edge are nodes.
    They already are when the edge is inserted: whenever [_add_edge]
    changes the graph, its source and its target are nodes, and the pair
    is not an edge yet. *)
Theorem build_simple_digraph (server : Server) (set_order : gset string -> list string)
        (fuel : nat) (start_title mode : string) (depth : Z) (width : Width)
        (influential_only : bool) (since_year until_year : option Z) (fetch_limit : Z)
        (w : World) (self' : PaperGraph) (w' : World) :
  build server set_order fuel start_title mode depth width influential_only since_year
        until_year fetch_limit init w = Done (self', w') ->
  simple_digraph (G self') /\
  (forall source target is_influential self,
      G (_add_edge source target is_influential self) <> G self ->
      source ∈ node_ids (G self) /\ target ∈ node_ids (G self) /\
      (source, target) ∉ edge_keys (G self)).
Proof.
  intros Hbuild. split.
  - apply build_phases in Hbuild as [_ Hsimple]. apply Hsimple, simple_digraph_empty.
  - intros source target is_influential self Hchanged.
    destruct (add_edge_spec source target is_influential self) as (_ & _ & Hn & [He|He]).
    + exfalso. apply Hchanged.
      destruct (G (_add_edge source target is_influential self)), (G self).
      cbn in Hn, He. congruence.
    + by destruct He as (_ & _ & ? & ? & ?).
Qed.

(** The build of the demonstration: the seed, its three most cited
    references, and the three edges to them. *)
Lemma demo_build :
  build Demo.server elements 5 Demo.title "references" 1 (WList [3]) false None None 10000
        init [] = Done (Demo.graph, Demo.world).
Proof. vm_compute. reflexivity. Qed.

Lemma build_simple_digraph_witness :
  simple_digraph (G Demo.graph) /\ node_ids (G Demo.graph) = ["X"; "C"; "A"; "E"]%string.
Proof.
  split; [|reflexivity].
  exact (proj1 (build_simple_digraph _ _ _ _ _ _ _ _ _ _ _ _ _ _ demo_build)).
Defined.

(** C3. In every build with maximum depth [depth >= 0] that returns, the
    node table is made of at most one node at layer 0, inserted for the
    seed, followed by nodes whose layer is [d + 1] for a dequeued depth
    [0 <= d < depth]; so every node has a layer between 0 and [depth]. A
    layer is never overwritten: a call of [add_node] leaves every node that
    is in the graph with the attributes it has, its layer among them. *)
Theorem build_layers (server : Server) (set_order : gset string -> list string)
        (fuel : nat) (start_title mode : string) (depth : Z) (width : Width)
        (influential_only : bool) (since_year until_year : option Z) (fetch_limit : Z)
        (w : World) (self' : PaperGraph) (w' : World) :
  0 <= depth ->
  build server set_order fuel start_title mode depth width influential_only since_year
        until_year fetch_limit init w = Done (self', w') ->
  (exists seed rest,
      nodes (G self') = seed ++ rest /\ (length seed <= 1)%nat /\
      Forall seed_layer seed /\ Forall (expansion_layer depth) rest) /\
  (forall n, n ∈ nodes (G self') -> 0 <= layer (snd n) <= depth) /\
  (forall paper_info l self b self1 n a,
      add_node paper_info l self = Done (b, self1) ->
      node_attrs (G self) n = Some a -> node_attrs (G self1) n = Some a).
Proof.
  intros Hdepth Hbuild.
  apply build_phases in Hbuild as [(seed & rest & Hnodes & Hlen & Hseed & Hrest) _].
  cbn in Hnodes. split; [by exists seed, rest|]. split.
  - intros n Hn. rewrite Hnodes in Hn. apply elem_of_app in Hn as [Hn|Hn].
    + rewrite Forall_forall in Hseed. apply Hseed in Hn. unfold seed_layer in Hn. lia.
    + rewrite Forall_forall in Hrest. apply Hrest in Hn as (d & Hd & ->). lia.
  - intros paper_info l self b self1 n a. apply add_node_keeps.
Qed.

Lemma build_layers_witness :
  map (fun n => layer (snd n)) (nodes (G Demo.graph)) = [0; 1; 1; 1] /\
  (forall n, n ∈ nodes (G Demo.graph) -> 0 <= layer (snd n) <= 1).
Proof.
  split; [reflexivity|].
  refine (proj1 (proj2 (build_layers _ _ _ _ _ _ _ _ _ _ _ _ _ _ _ demo_build))).
  lia.
Defined.

(** C4. Whatever the state in which the densification pass starts, it
    leaves the node table as it is (same nodes, same number of nodes); the
    edges it adds come after those that were there, each joins two nodes
    that were there, and none repeats an edge that was there or another
    added edge; an edge that was there keeps its attributes. *)
Theorem densify_adds_edges_only (server : Server) (set_order : gset string -> list string)
        (influential_only : bool) (since_year until_year : option Z) (fetch_limit : Z)
        (self : PaperGraph) (w : World) :
  let self' := fst (densify server set_order influential_only since_year until_year
                            fetch_limit self w) in
  nodes (G self') = nodes (G self) /\
  number_of_nodes (G self') = number_of_nodes (G self) /\
  (exists es, edges (G self') = edges (G self) ++ es /\ NoDup (map fst es) /\
              forall u v, (u, v) ∈ map fst es ->
                          u ∈ node_ids (G self) /\ v ∈ node_ids (G self) /\
                          (u, v) ∉ edge_keys (G self)) /\
  (forall u v a, edge_attrs (G self) u v = Some a -> edge_attrs (G self') u v = Some a).
Proof.
  intros self'.
  destruct (densify_spec server set_order influential_only since_year until_year
                         fetch_limit self w) as [(Hn & es & He & Hnd & Hin) _].
  fold self' in Hn, He.
  split; [done|]. split; [unfold number_of_nodes; by rewrite Hn|].
  split; [by exists es|].
  intros u v a Ha. unfold edge_attrs. rewrite He. by apply table_get_app.
Qed.

(** C10. When the search finds the seed but the request for the seed's
    details yields nothing, [build] returns without raising, whatever the
    fuel, and leaves the fresh [PaperGraph] as it was: no node, no edge,
    nothing visited. [main] then goes on to [save], which reports an empty
    graph and writes no file. *)
Theorem build_without_seed_details (server : Server) (set_order : gset string -> list string)
        (isalnum : Unicode) (disk : Disk) (fuel : nat) (start_title mode : string) (depth : Z) (width : Width)
        (influential_only : bool) (since_year until_year : option Z) (fetch_limit : Z)
        (save_path : option string) (w : World)
        (root_id : string) (info : option (option string * Field Z)) (w1 : World)
        (root_data : option Json) (w2 : World) :
  search_paper server start_title w = (Done (Some root_id, info), w1) ->
  root_id <> ""%string ->
  request_with_retry server (BASE_URL +:+ "/" +:+ root_id)
                     [("fields", PStr "paperId,title,year,citationCount")]%string
                     default_max_retries w1 = (root_data, w2) ->
  data_truthy root_data = false ->
  build server set_order fuel start_title mode depth width influential_only since_year
        until_year fetch_limit init w = Done (init, print MsgSeedDetailsFailed w2) /\
  nodes (G init) = [] /\ edges (G init) = [] /\ visited init = ∅ /\
  main server set_order isalnum disk fuel start_title mode depth width influential_only
       since_year until_year fetch_limit true save_path w
  = Done (print MsgGraphEmpty (print MsgSeedDetailsFailed w2)) /\
  files_written (print MsgGraphEmpty (print MsgSeedDetailsFailed w2)) = files_written w.
Proof.
  intros Hsearch Hid Hdetails Hnone.
  assert (Hbuild : build server set_order fuel start_title mode depth width influential_only
                         since_year until_year fetch_limit init w
                   = Done (init, print MsgSeedDetailsFailed w2)).
  { unfold build. rewrite Hsearch. cbn [truthy_str].
    apply String.eqb_neq in Hid. rewrite Hid. cbn [negb default from_option id].
    rewrite Hdetails, Hnone. reflexivity. }
  split; [exact Hbuild|]. do 3 (split; [reflexivity|]).
  split; [unfold main; rewrite Hbuild; reflexivity|].
  change (files_written w2 = files_written w). unfold request_with_retry in Hdetails.
  pose proof (attempt_files server (mkRequest (BASE_URL +:+ "/" +:+ root_id)
                [("fields", PStr "paperId,title,year,citationCount")]%string)
                (Z.to_nat default_max_retries) 0 w1) as Hf2.
  rewrite Hdetails in Hf2. cbn [snd] in Hf2. rewrite Hf2.
  unfold search_paper, request_with_retry in Hsearch.
  pose proof (attempt_files server (mkRequest (BASE_URL +:+ "/search")
                [("query", PStr start_title); ("limit", PInt 1);
                 ("fields", PStr "paperId,title,year")]%string)
                (Z.to_nat default_max_retries) 0 w) as Hf1.
  destruct (attempt server _ 0 (Z.to_nat default_max_retries) w) as [data w0].
  cbn [snd] in Hf1. rewrite <- Hf1.
  destruct (if data_truthy data then from_option json_hits None data else None)
    as [[|p hits]|]; [by inversion Hsearch| |by inversion Hsearch].
  destruct (dict_item (paperId p)); [|by inversion Hsearch|by inversion Hsearch].
  destruct (dict_item (title p)); by inversion Hsearch.
Qed.

(** On the demonstration network without the details of X: the search
    succeeds, the details request is answered 500, and no file is written. *)
Lemma build_without_seed_details_witness :
  main Demo.server_without_details elements Demo.unicode Demo.disk 0 Demo.title "all" 2
       (WList [4; 2]) true None None 10000 true None []
  = Done [Printed MsgGraphEmpty; Printed MsgSeedDetailsFailed;
          Sent (mkRequest (BASE_URL +:+ "/X")
                          [("fields", PStr "paperId,title,year,citationCount")]%string);
          Sent (mkRequest (BASE_URL +:+ "/search")
                          [("query", PStr Demo.title); ("limit", PInt 1);
                           ("fields", PStr "paperId,title,year")]%string)].
Proof.
  refine (proj1 (proj2 (proj2 (proj2 (proj2
    (build_without_seed_details Demo.server_without_details elements Demo.unicode Demo.disk 0
       Demo.title "all" 2 (WList [4; 2]) true None None 10000 None [] "X"
       (Some (Some "Attention Is All You Need"%string, Val 2017))
       _ None _ _ _ _ _)))))).
  - reflexivity.
  - discriminate.
  - reflexivity.
  - reflexivity.
Defined.

(* ===================================================================== *)
(** ** Termination *)
(* ===================================================================== *)

Section Termination.
Variable server : Server.

(** The pagination loop never needs more than [page_rounds] rounds: with
    more fuel than the entries still missing, more fuel changes nothing. *)
Lemma fetch_pages_fuel (paper_id relation_type fields : string) (fetch_limit : Z)
      (fuel extra : nat) :
  forall results offset w,
    (Z.to_nat (fetch_limit - len results) < fuel)%nat ->
    fetch_pages server (fuel + extra) paper_id relation_type fields fetch_limit results offset w
    = fetch_pages server fuel paper_id relation_type fields fetch_limit results offset w.
Proof.
  induction fuel as [|fuel IH]; intros results offset w Hfuel; [lia|].
  cbn [Nat.add fetch_pages].
  destruct (Z.ltb_spec (len results) fetch_limit) as [Hlt|Hge]; [|done].
  destruct (request_with_retry _ _ _ _ _) as [data w1].
  destruct (if data_truthy data then _ else _) as [[|b bs]|]; [done| |done].
  destruct (Z.ltb_spec (len (b :: bs)) 1000) as [Hshort|Hfull]; [done|].
  apply IH. unfold len in *. rewrite length_app. lia.
Qed.

Lemma add_node_returns (paper_info : Paper) (l : Z) (self : PaperGraph) :
  add_node paper_info l self <> OutOfFuel.
Proof.
  unfold add_node.
  destruct (paper_truthy paper_info); cbn; [|done].
  destruct (dict_get (paperId paper_info)) as [pid|]; [|done].
  destruct (String.eqb pid ""); [done|].
  destruct (has_node (G self) pid); [done|].
  by destruct (dict_get_default (title paper_info) _).
Qed.

Lemma visit_items_returns (m current_pid : string) (d depth : Z) (items : Relations) :
  forall self queue, visit_items m current_pid d depth items self queue <> OutOfFuel.
Proof.
  induction items as [|[p_info is_influential] items IH]; intros self queue; [done|].
  cbn [visit_items]. destruct p_info as [p_info|]; [|apply IH].
  destruct (negb (paper_truthy p_info) || negb (truthy_str (dict_get (paperId p_info))));
    [apply IH|].
  pose proof (add_node_returns p_info (d + 1) self) as Hadd.
  destruct (add_node p_info (d + 1) self) as [[b self1]| |]; [|done|done].
  destruct (bool_decide _); [|apply IH].
  destruct (d + 1 <? depth); apply IH.
Qed.

Lemma expand_returns (directions : list string) (current_pid : string) (d depth : Z)
      (widths : list Z) (influential_only : bool) (since_year until_year : option Z)
      (fetch_limit : Z) :
  forall self queue w,
    expand server directions current_pid d depth widths influential_only since_year
           until_year fetch_limit self queue w <> OutOfFuel.
Proof.
  induction directions as [|m directions IH]; intros self queue w; [done|].
  cbn [expand]. unfold list_item.
  destruct (_ <? 0); [done|]. destruct (widths !! _); [|done].
  destruct (_get_relations _ _ _ _ _ _ _ _ _) as [[relations self1] w1].
  pose proof (visit_items_returns m current_pid d depth
                (List.filter (fun item => match fst item with
                                          | Some info => paper_truthy info
                                          | None => false
                                          end) (slice_to z relations)) self1 queue) as Hv.
  destruct (visit_items _ _ _ _ _ _ _) as [[self2 queue2]| |]; [apply IH|done|done].
Qed.

Section Loop.
Variables (directions : list string) (depth : Z) (widths : list Z) (influential_only : bool)
          (since_year until_year : option Z) (fetch_limit : Z).

Let loop (fuel : nat) := bfs server fuel directions depth widths influential_only since_year
                             until_year fetch_limit.

(** A result is not changed by more fuel. *)
Lemma bfs_more_fuel (fuel extra : nat) :
  forall queue self w r,
    loop fuel queue self w = Done r -> loop (fuel + extra) queue self w = Done r.
Proof.
  unfold loop. induction fuel as [|fuel IH]; intros queue self w r.
  - destruct queue as [|[pid d] queue]; [|done]. by destruct extra.
  - destruct queue as [|[pid d] queue]; [done|].
    cbn [Nat.add bfs]. destruct (depth <=? d); [apply IH|].
    destruct (expand _ _ _ _ _ _ _ _ _ _ _ _ _) as [[[self1 queue1] w1]| |]; [apply IH|done|done].
Qed.

(** The entries of [q1], none more than [n] levels from the maximum depth,
    are all dequeued after [k] rounds, unless one of them raises; what
    they add to the queue is less than [n] levels from it. *)
Lemma bfs_batch (n : nat) :
  forall q1 q2 self w,
    Forall (fun e => (remaining depth e <= n)%nat) q1 ->
    exists k,
      (exists e, forall fuel, loop (k + fuel) (q1 ++ q2) self w = Raised e) \/
      (exists self' w' added,
          Forall (fun e => (remaining depth e < n)%nat) added /\
          forall fuel, loop (k + fuel) (q1 ++ q2) self w = loop fuel (q2 ++ added) self' w').
Proof.
  unfold loop. induction q1 as [|[pid d] q1 IH]; intros q2 self w Hq1.
  - exists 0%nat. right. exists self, w, []. split; [constructor|].
    intros fuel. by rewrite app_nil_r.
  - apply Forall_cons in Hq1 as [Hd Hq1]. unfold remaining in Hd. cbn [snd] in Hd.
    destruct (Z.leb_spec depth d) as [Hskip|Hgo].
    + destruct (IH q2 self w Hq1) as [k [[e He]|(self' & w' & added & Hadded & Hrun)]].
      * exists (S k). left. exists e. intros fuel. cbn [Nat.add app bfs].
        destruct (Z.leb_spec depth d); [apply He|lia].
      * exists (S k). right. exists self', w', added. split; [done|].
        intros fuel. cbn [Nat.add app bfs].
        destruct (Z.leb_spec depth d); [apply Hrun|lia].
    + pose proof (expand_returns directions pid d depth widths influential_only since_year
                                 until_year fetch_limit self (q1 ++ q2) w) as Hret.
      destruct (expand server directions pid d depth widths influential_only since_year
                       until_year fetch_limit self (q1 ++ q2) w)
        as [[[self1 queue1] w1]|e|] eqn:Hexp; [| |done].
      * pose proof (expand_spec _ _ _ _ _ _ _ _ _ _ _ _ _ _ _ _ Hexp)
          as (_ & added1 & -> & Hadded1).
        destruct (IH (q2 ++ added1) self1 (time_sleep 500 w1) Hq1)
          as [k [[e He]|(self' & w' & added & Hadded & Hrun)]].
        -- exists (S k). left. exists e. intros fuel. cbn [Nat.add app bfs].
           destruct (Z.leb_spec depth d); [lia|].
           rewrite Hexp. rewrite <- app_assoc. apply He.
        -- exists (S k). right. exists self', w', (added1 ++ added). split.
           ++ apply Forall_app. split; [|done].
              eapply Forall_impl; [exact Hadded1|].
              intros e [He _]. unfold remaining. rewrite He. lia.
           ++ intros fuel. cbn [Nat.add app bfs].
              destruct (Z.leb_spec depth d); [lia|].
              rewrite Hexp. rewrite <- app_assoc, Hrun. by rewrite <- app_assoc.
      * exists 1%nat. left. exists e. intros fuel. cbn [Nat.add app bfs].
        destruct (Z.leb_spec depth d); [lia|]. by rewrite Hexp.
Qed.

(** The expansion loop comes to an end: with enough fuel it returns or
    raises. *)
Lemma bfs_terminates (n : nat) :
  forall queue self w,
    Forall (fun e => (remaining depth e <= n)%nat) queue ->
    exists fuel, loop fuel queue self w <> OutOfFuel.
Proof.
  induction n as [|n IH]; intros queue self w Hqueue.
  - destruct (bfs_batch 0 queue [] self w Hqueue)
      as [k [[e He]|(self' & w' & added & Hadded & Hrun)]].
    + exists (k + 0)%nat. specialize (He 0%nat). rewrite app_nil_r in He. by rewrite He.
    + exists (k + 0)%nat. specialize (Hrun 0%nat). rewrite app_nil_r in Hrun. rewrite Hrun.
      destruct added as [|e added]; [done|].
      apply Forall_cons in Hadded as [He _]. lia.
  - destruct (bfs_batch (S n) queue [] self w Hqueue)
      as [k [[e He]|(self' & w' & added & Hadded & Hrun)]].
    + exists (k + 0)%nat. specialize (He 0%nat). rewrite app_nil_r in He. by rewrite He.
    + destruct (IH added self' w') as [fuel Hfuel].
      { eapply Forall_impl; [exact Hadded|]. intros e He. cbn in He. lia. }
      exists (k + fuel)%nat. specialize (Hrun fuel). rewrite app_nil_r in Hrun.
      by rewrite Hrun.
Qed.

End Loop.

(** Every build comes to an end: for every input and every behaviour of
    the server there is fuel with which [build] returns or raises. *)
Lemma build_terminates (set_order : gset string -> list string) (start_title mode : string)
      (depth : Z) (width : Width) (influential_only : bool)
      (since_year until_year : option Z) (fetch_limit : Z) (self : PaperGraph) (w : World) :
  exists fuel,
    build server set_order fuel start_title mode depth width influential_only since_year
          until_year fetch_limit self w <> OutOfFuel.
Proof.
  unfold build.
  destruct (search_paper server start_title w) as [[[root_id info]|e|] w1] eqn:Hsearch.
  - destruct (negb (truthy_str root_id)); [by exists 0%nat|].
    destruct (request_with_retry _ _ _ _ _) as [root_data w2].
    destruct (negb (data_truthy root_data)); [by exists 0%nat|].
    pose proof (add_node_returns (from_option json_paper empty_paper root_data) 0 self) as Hadd.
    destruct (add_node _ 0 self) as [[b self1]| |]; [|by exists 0%nat|done].
    match goal with
    | |- context [bfs server _ ?dirs depth ?ws _ _ _ _ ?q ?s ?w0] =>
        destruct (bfs_terminates dirs depth ws influential_only since_year until_year
                                 fetch_limit (Z.to_nat depth) q s w0) as [fuel Hfuel]
    end.
    { repeat constructor. unfold remaining. cbn. lia. }
    exists fuel. by destruct (bfs _ _ _ _ _ _ _ _ _ _ _ _) as [[self3 w3]| |].
  - by exists 0%nat.
  - exfalso. unfold search_paper in Hsearch.
    destruct (request_with_retry _ _ _ _ _) as [data w0].
    destruct (if data_truthy data then _ else _) as [[|p hits]|]; [done| |done].
    destruct (dict_item (paperId p)) eqn:Hp; [|done|by destruct (paperId p)].
    destruct (dict_item (title p)) eqn:Ht; [done|done|by destruct (title p)].
Qed.

(** The result of a build does not depend on the fuel, once there is
    enough of it. *)
Lemma build_more_fuel (set_order : gset string -> list string) (fuel extra : nat)
      (start_title mode : string) (depth : Z) (width : Width) (influential_only : bool)
      (since_year until_year : option Z) (fetch_limit : Z) (self : PaperGraph) (w : World)
      (r : PaperGraph * World) :
  build server set_order fuel start_title mode depth width influential_only since_year
        until_year fetch_limit self w = Done r ->
  build server set_order (fuel + extra) start_title mode depth width influential_only
        since_year until_year fetch_limit self w = Done r.
Proof.
  unfold build.
  destruct (search_paper server start_title w) as [[[root_id info]|e|] w1]; [|done|done].
  destruct (negb (truthy_str root_id)); [done|].
  destruct (request_with_retry _ _ _ _ _) as [root_data w2].
  destruct (negb (data_truthy root_data)); [done|].
  destruct (add_node _ 0 self) as [[b self1]| |]; [|done|done].
  destruct (bfs server fuel _ _ _ _ _ _ _ _ _ _) as [[self3 w3]| |] eqn:Hbfs; [|done|done].
  by rewrite (bfs_more_fuel _ _ _ _ _ _ _ _ _ _ _ _ _ Hbfs).
Qed.

End Termination.

(* ===================================================================== *)
(** ** The fetch limit *)
(* ===================================================================== *)

Section FetchLimit.
Variable server : Server.

(** The fuel that [fetch_relations] gives the pagination loop is enough:
    any more of it changes nothing. *)
Lemma fetch_relations_fuel (paper_id relation_type fields : string) (fetch_limit : Z)
      (extra : nat) (w : World) :
  fetch_pages server (page_rounds fetch_limit + extra) paper_id relation_type fields
              fetch_limit [] 0 w
  = fetch_pages server (page_rounds fetch_limit) paper_id relation_type fields
                fetch_limit [] 0 w.
Proof. apply fetch_pages_fuel. unfold page_rounds, len. cbn. lia. Qed.

(** Only a response with status 200 gives a body. *)
Lemma attempt_some (req : Request) (budget : nat) :
  forall i w body w',
    attempt server req i budget w = (Some body, w') ->
    exists w0, server w0 req = Http 200 body.
Proof.
  induction budget as [|budget IH]; intros i w body w'; [done|].
  cbn [attempt]. destruct (server w req) as [status b|] eqn:Hresp; [|done].
  destruct (Z.eqb_spec status 200) as [->|_].
  - intros [= <- <-]. by exists w.
  - destruct (status =? 429); [apply IH|done].
Qed.

(** Entries fetched from earlier pages are never lost: whatever happens
    to later pages, the loop returns them, followed by what came after. *)
Lemma fetch_pages_extends (fuel : nat) (paper_id relation_type fields : string)
      (fetch_limit : Z) :
  forall results offset w,
    exists more,
      fst (fetch_pages server fuel paper_id relation_type fields fetch_limit results offset w)
      = results ++ more.
Proof.
  induction fuel as [|fuel IH]; intros results offset w.
  - exists []. by rewrite app_nil_r.
  - cbn [fetch_pages]. destruct (len results <? fetch_limit).
    + destruct (request_with_retry _ _ _ _ _) as [data w1].
      destruct (if data_truthy data then _ else _) as [[|b bs]|];
        [exists []; by rewrite app_nil_r| |exists []; by rewrite app_nil_r].
      destruct (len (b :: bs) <? 1000); [by exists (b :: bs)|].
      destruct (IH (results ++ b :: bs) (offset + 1000) (time_sleep (seconds 1) w1))
        as [more Hmore].
      exists ((b :: bs) ++ more). by rewrite Hmore, app_assoc.
    + exists []. by rewrite app_nil_r.
Qed.

(** What the fetch limit does bound: when no page holds more than 1000
    entries, fewer than [fetch_limit + 1000] entries are fetched. *)
Lemma fetch_pages_bound (fuel : nat) (paper_id relation_type fields : string)
      (fetch_limit : Z) :
  (forall w req body l, server w req = Http 200 body ->
                        json_entries body = Some l -> len l <= 1000) ->
  forall results offset w,
    len (fst (fetch_pages server fuel paper_id relation_type fields fetch_limit
                          results offset w))
    <= Z.max (len results) (fetch_limit + 999).
Proof.
  intros Hpage. induction fuel as [|fuel IH]; intros results offset w; [cbn; lia|].
  cbn [fetch_pages]. destruct (Z.ltb_spec (len results) fetch_limit) as [Hlt|Hge]; [|cbn; lia].
  destruct (request_with_retry _ _ _ _ _) as [data w1] eqn:Hreq.
  destruct (if data_truthy data then _ else _) as [[|b bs]|] eqn:Hbatch;
    [cbn; lia| |cbn; lia].
  assert (Hlen : len (b :: bs) <= 1000).
  { destruct data as [body|]; [|by destruct (data_truthy None)].
    apply attempt_some in Hreq as [w0 Hw0].
    destruct (data_truthy (Some body)); [|done].
    by apply (Hpage _ _ _ _ Hw0). }
  assert (Hnew : len (results ++ b :: bs) <= fetch_limit + 999).
  { unfold len in *. rewrite length_app. lia. }
  destruct (len (b :: bs) <? 1000); [cbn [fst]; lia|].
  etransitivity; [apply IH|]. lia.
Qed.

Lemma fetch_relations_bound (paper_id relation_type sort_by : string)
      (influential_only : bool) (since_year until_year : option Z) (fetch_limit : Z)
      (w : World) :
  (forall w req body l, server w req = Http 200 body ->
                        json_entries body = Some l -> len l <= 1000) ->
  len (fst (fst (fetch_relations server paper_id relation_type sort_by influential_only
                                 since_year until_year None fetch_limit w)))
  <= Z.max 0 (fetch_limit + 999).
Proof.
  intros Hpage. unfold fetch_relations.
  pose proof (fetch_pages_bound (page_rounds fetch_limit) paper_id relation_type
                (relation_fields (if String.eqb relation_type "citations"
                                  then "citingPaper" else "citedPaper")%string)
                fetch_limit Hpage [] 0 w) as Hbound.
  destruct (fetch_pages _ _ _ _ _ _ _ _ _) as [results w1].
  cbn [fst slice_to_opt] in *. unfold sort_papers.
  pose proof (Permutation_length
                (list_sort_reverse_perm
                   (key_fn (if String.eqb relation_type "citations"
                            then "citingPaper" else "citedPaper")%string sort_by)
                   (List.filter (passes_filter
                                   (if String.eqb relation_type "citations"
                                    then "citingPaper" else "citedPaper")%string
                                   influential_only since_year until_year) results)))
    as Hperm.
  pose proof (filter_length_le
                (passes_filter (if String.eqb relation_type "citations"
                                then "citingPaper" else "citedPaper")%string
                               influential_only since_year until_year) results) as Hfilter.
  unfold len in *. cbn [length] in Hbound. lia.
Qed.

End FetchLimit.

(** C8, where the code departs from it. With a fetch limit of 2, the
    references of X are fetched in one page of five entries, and all five
    are returned: the limit only decides whether another page is asked
    for, the list is never cut down to it. *)
Theorem fetch_relations_exceeds_fetch_limit :
  let '((results, _), w') :=
    fetch_relations Demo.server "X" "references" "citation" false None None None 2 [] in
  length results = 5%nat /\ requests w' = 1%nat.
Proof. vm_compute. done. Qed.

(* ===================================================================== *)
(** ** The scenarios of the specification, run on the model *)
(* ===================================================================== *)

(** Depth 1, references, width 3, five references with 50, 10, 80, 5 and
    30 citations: the seed at layer 0, the three most cited references at
    layer 1, and an edge from the seed to each. *)
Example scenario_top_three :
  map (fun n => (fst n, size_arg (snd n), layer (snd n))) (nodes (G Demo.graph))
  = [("X", 100000, 0); ("C", 80, 1); ("A", 50, 1); ("E", 30, 1)]%string /\
  edge_keys (G Demo.graph) = [("X", "C"); ("X", "A"); ("X", "E")]%string /\
  requests Demo.world = 6%nat.
Proof. vm_compute. done. Qed.

(** The same with the influential-only flag: only the reference flagged
    influential is left, whatever the width. *)
Example scenario_influential_only :
  match build Demo.server elements 5 Demo.title "references" 1 (WList [3]) true None None
              10000 init [] with
  | Done (g, _) =>
      node_ids (G g) = ["X"; "C"]%string /\ edge_keys (G g) = [("X", "C")]%string
  | _ => False
  end.
Proof. vm_compute. done. Qed.

(** An empty list of widths makes the first expansion raise. *)
Example scenario_no_width :
  build Demo.server elements 5 Demo.title "references" 1 (WList []) false None None
        10000 init [] = Raised IndexError.
Proof. vm_compute. done. Qed.

(* ===================================================================== *)
(** ** Further properties of the code *)
(* ===================================================================== *)

Import Spec2.

#[local] Set Warnings "-clear-no-such-hyp".

(** *** Fuel *)

Section FuelIndependence.
Variable server : Server.
Variable set_order : gset string -> list string.

Lemma bfs_fuel_stable (directions : list string) (depth : Z) (widths : list Z)
      (influential_only : bool) (since_year until_year : option Z) (fetch_limit : Z)
      (fuel extra : nat) :
  forall queue self w,
    bfs server fuel directions depth widths influential_only since_year until_year
        fetch_limit queue self w <> OutOfFuel ->
    bfs server (fuel + extra) directions depth widths influential_only since_year until_year
        fetch_limit queue self w
    = bfs server fuel directions depth widths influential_only since_year until_year
          fetch_limit queue self w.
Proof.
  induction fuel as [|fuel IH]; intros queue self w.
  - destruct queue as [|[pid d] queue]; [|done]. by destruct extra.
  - destruct queue as [|[pid d] queue]; [done|].
    cbn [Nat.add bfs]. destruct (depth <=? d); [apply IH|].
    destruct (expand _ _ _ _ _ _ _ _ _ _ _ _ _) as [[[self1 queue1] w1]| |]; [apply IH|done|done].
Qed.

Lemma build_fuel_stable (fuel extra : nat) (start_title mode : string) (depth : Z)
      (width : Width) (influential_only : bool) (since_year until_year : option Z)
      (fetch_limit : Z) (self : PaperGraph) (w : World) :
  build server set_order fuel start_title mode depth width influential_only since_year
        until_year fetch_limit self w <> OutOfFuel ->
  build server set_order (fuel + extra) start_title mode depth width influential_only
        since_year until_year fetch_limit self w
  = build server set_order fuel start_title mode depth width influential_only since_year
          until_year fetch_limit self w.
Proof.
  unfold build.
  destruct (search_paper server start_title w) as [[[root_id info]|e|] w1]; [|done|done].
  destruct (negb (truthy_str root_id)); [done|].
  destruct (request_with_retry _ _ _ _ _) as [root_data w2].
  destruct (negb (data_truthy root_data)); [done|].
  destruct (add_node _ 0 self) as [[b self1]| |]; [|done|done].
  intros Hfuel.
  rewrite bfs_fuel_stable; [done|].
  intros Hout. by rewrite Hout in Hfuel.
Qed.

End FuelIndependence.

(** X1. Every build comes to an end, whatever the server answers: there is
    an amount of fuel with which [build] returns or raises, and with any
    more fuel its outcome, graph and world included, is the same. *)
Theorem build_total (server : Server) (set_order : gset string -> list string)
        (start_title mode : string) (depth : Z) (width : Width) (influential_only : bool)
        (since_year until_year : option Z) (fetch_limit : Z) (self : PaperGraph) (w : World) :
  exists fuel,
    build server set_order fuel start_title mode depth width influential_only since_year
          until_year fetch_limit self w <> OutOfFuel /\
    forall extra,
      build server set_order (fuel + extra) start_title mode depth width influential_only
            since_year until_year fetch_limit self w
      = build server set_order fuel start_title mode depth width influential_only since_year
              until_year fetch_limit self w.
Proof.
  destruct (build_terminates server set_order start_title mode depth width influential_only
                             since_year until_year fetch_limit self w) as [fuel Hfuel].
  exists fuel. split; [done|]. intros extra. by apply build_fuel_stable.
Qed.

(** *** The cost of a request *)

Lemma total_wait_slept (ms : Z) (w : World) : total_wait (Slept ms :: w) = total_wait w + ms.
Proof.
  unfold total_wait, waits. cbn. rewrite foldr_app. cbn.
  generalize (rev (omap (fun e => match e with Slept ms0 => Some ms0 | _ => None end) w)).
  intros l. induction l as [|x l IH]; cbn; lia.
Qed.

Lemma total_wait_sent (r : Request) (w : World) : total_wait (Sent r :: w) = total_wait w.
Proof. reflexivity. Qed.

Lemma total_wait_printed (m : Message) (w : World) : total_wait (Printed m :: w) = total_wait w.
Proof. reflexivity. Qed.

Lemma attempt_cost (server : Server) (req : Request) (budget : nat) :
  forall i w,
    0 <= i ->
    (requests (snd (attempt server req i budget w)) <= requests w + budget)%nat /\
    (requests w <= requests (snd (attempt server req i budget w)))%nat /\
    total_wait w <= total_wait (snd (attempt server req i budget w))
                 <= total_wait w + 1500 * Z.of_nat budget * (2 * i + Z.of_nat budget + 1).
Proof.
  induction budget as [|budget IH]; intros i w Hi.
  - cbn [attempt snd]. unfold print. rewrite total_wait_printed.
    change (requests (Printed MsgRetriesExhausted :: w)) with (requests w). lia.
  - cbn [attempt].
    assert (Hreq : requests (Sent req :: w) = S (requests w)) by reflexivity.
    destruct (server w req) as [status body|].
    + destruct (status =? 200).
      { cbn [snd]. rewrite total_wait_sent, Hreq. nia. }
      destruct (status =? 429).
      * destruct (IH (i + 1)
                    (time_sleep (seconds ((i + 1) * 3))
                                (print (MsgRateLimited ((i + 1) * 3)) (Sent req :: w))))
          as (Hr1 & Hr2 & Hw1 & Hw2); [lia|].
        unfold time_sleep, print in *.
        rewrite total_wait_slept, total_wait_printed, total_wait_sent in Hw1, Hw2.
        change (requests (Slept (seconds ((i + 1) * 3))
                            :: Printed (MsgRateLimited ((i + 1) * 3)) :: Sent req :: w))
          with (S (requests w)) in Hr1, Hr2.
        unfold seconds in *. split; [lia|]. split; [lia|]. nia.
      * cbn [snd]. rewrite total_wait_sent, Hreq. nia.
    + cbn [snd]. unfold print. rewrite total_wait_printed, total_wait_sent.
      change (requests (Printed MsgRequestError :: Sent req :: w)) with (S (requests w)). nia.
Qed.

(** X2. One call of [request_with_retry] sends at least no and at most
    [max_retries] requests, whatever the server answers, and the time it
    spends waiting is at most 3 + 6 + ... + 3n seconds for a budget of
    [n]: 165 s with the default budget of 10. *)
Theorem request_with_retry_cost (server : Server) (url : string)
        (params : list (string * ParamValue)) (max_retries : Z) (w : World) :
  let w' := snd (Utils.request_with_retry server url params max_retries w) in
  let n := Z.max 0 max_retries in
  (requests w <= requests w' <= requests w + Z.to_nat max_retries)%nat /\
  total_wait w <= total_wait w' <= total_wait w + seconds (3 * (n * (n + 1) / 2)) /\
  (max_retries = default_max_retries -> total_wait w' <= total_wait w + seconds 165).
Proof.
  intros w' n. subst w'. unfold Utils.request_with_retry.
  destruct (attempt_cost server (mkRequest url params) (Z.to_nat max_retries) 0 w)
    as (Hr1 & Hr2 & Hw1 & Hw2); [lia|].
  assert (Hn : Z.of_nat (Z.to_nat max_retries) = n) by lia.
  rewrite Hn in Hw2.
  assert (Heven : 2 * (n * (n + 1) / 2) = n * (n + 1)).
  { assert (Hmod : (n * (n + 1)) mod 2 = 0).
    { rewrite Z.mul_mod by lia.
      assert (Hcase : n mod 2 = 0 \/ n mod 2 = 1) by (pose proof (Z.mod_pos_bound n 2); lia).
      destruct Hcase as [H0|H1].
      - rewrite H0. reflexivity.
      - assert (Hs : (n + 1) mod 2 = 0).
        { rewrite Z.add_mod by lia. rewrite H1. reflexivity. }
        rewrite Hs, Z.mul_0_r. reflexivity. }
    pose proof (Z.div_mod (n * (n + 1)) 2). lia. }
  unfold seconds. split; [lia|]. split; [nia|].
  intros ->. unfold default_max_retries in *. subst n. cbn in *. lia.
Qed.

(** *** The cost of a relation retrieval *)

Lemma fetch_pages_requests (server : Server) (fuel : nat)
      (paper_id relation_type fields : string) (fetch_limit : Z) :
  forall results offset w,
    Z.of_nat (requests (snd (fetch_pages server fuel paper_id relation_type fields
                                         fetch_limit results offset w)))
    <= Z.of_nat (requests w) + 10 * Z.max 0 ((fetch_limit - len results + 999) / 1000).
Proof.
  induction fuel as [|fuel IH]; intros results offset w; [cbn [fetch_pages snd]; lia|].
  cbn [fetch_pages].
  destruct (Z.ltb_spec (len results) fetch_limit) as [Hlt|Hge]; [|cbn [snd]; lia].
  assert (Hone : 1 <= (fetch_limit - len results + 999) / 1000).
  { apply Z.div_le_lower_bound; lia. }
  unfold request_with_retry.
  destruct (attempt_cost server
              (mkRequest (BASE_URL +:+ "/" +:+ paper_id +:+ "/" +:+ relation_type)
                 [("fields", PStr fields); ("offset", PInt offset);
                  ("limit", PInt 1000)]%string)
              (Z.to_nat default_max_retries) 0 w) as (Hreq & _); [lia|].
  destruct (attempt server _ 0 (Z.to_nat default_max_retries) w) as [data w1].
  cbn [snd] in Hreq.
  change (Z.to_nat default_max_retries) with 10%nat in Hreq.
  destruct (if data_truthy data then _ else _) as [[|b bs]|]; [cbn [snd]; lia| |cbn [snd]; lia].
  destruct (Z.ltb_spec (len (b :: bs)) 1000) as [Hshort|Hfull]; [cbn [snd]; lia|].
  etransitivity; [apply IH|].
  change (requests (time_sleep (seconds 1) w1)) with (requests w1).
  assert (Hless : (fetch_limit - len (results ++ b :: bs) + 999) / 1000
                  <= (fetch_limit - len results + 999) / 1000 - 1).
  { unfold len in *. rewrite length_app.
    replace ((fetch_limit - Z.of_nat (length results) + 999) / 1000 - 1)
      with ((fetch_limit - Z.of_nat (length results) + 999 + (-1) * 1000) / 1000)
      by (rewrite Z.div_add by lia; lia).
    apply Z.div_le_mono; lia. }
  lia.
Qed.

(** X3. One relation retrieval sends at most ten requests for each page of
    1000 entries that the fetch limit allows, whatever the server answers:
    at most [10 * ceil(fetch_limit / 1000)] requests, so at most 100 with
    the default fetch limit of 10000, and none when the limit is not
    positive. *)
Theorem fetch_relations_requests (server : Server) (paper_id relation_type sort_by : string)
        (influential_only : bool) (since_year until_year num_results : option Z)
        (fetch_limit : Z) (w : World) :
  let w' := snd (fetch_relations server paper_id relation_type sort_by influential_only
                                 since_year until_year num_results fetch_limit w) in
  Z.of_nat (requests w') <= Z.of_nat (requests w) + 10 * Z.max 0 ((fetch_limit + 999) / 1000) /\
  (fetch_limit = 10000 -> (requests w' <= requests w + 100)%nat) /\
  (fetch_limit <= 0 -> w' = w).
Proof.
  intros w'. subst w'. unfold fetch_relations.
  pose proof (fetch_pages_requests server (page_rounds fetch_limit) paper_id relation_type
                (relation_fields (if String.eqb relation_type "citations"
                                  then "citingPaper" else "citedPaper")%string)
                fetch_limit [] 0 w) as Hbound.
  assert (Hzero : fetch_limit <= 0 ->
                  fetch_pages server (page_rounds fetch_limit) paper_id relation_type
                    (relation_fields (if String.eqb relation_type "citations"
                                      then "citingPaper" else "citedPaper")%string)
                    fetch_limit [] 0 w = ([], w)).
  { intros Hle. unfold page_rounds. cbn [fetch_pages].
    by destruct (Z.ltb_spec (len (@nil Entry)) fetch_limit) as [Hlt|_]; [unfold len in Hlt; cbn in Hlt; lia|]. }
  destruct (fetch_pages _ _ _ _ _ _ _ _ _) as [results w1]. cbn [snd] in *.
  unfold len in Hbound. cbn [length] in Hbound. rewrite Z.sub_0_r in Hbound.
  split; [exact Hbound|]. split.
  - intros ->. change ((10000 + 999) / 1000) with 10 in Hbound. lia.
  - intros Hle. specialize (Hzero Hle). congruence.
Qed.

(** *** Filtering and sorting *)

Section SortFilter.
Context {A : Type} (key : A -> list Z) (f : A -> bool).

Lemma insert_desc_front (x : A) (l : list A) :
  Forall (fun z => tuple_ltb (key x) (key z) = false) l -> insert_desc key x l = x :: l.
Proof.
  intros Hl. destruct l as [|y l]; [done|].
  apply Forall_cons in Hl as [Hy _]. cbn. by rewrite Hy.
Qed.

Lemma insert_desc_filter (x : A) (l : list A) :
  StronglySorted (fun a b => tuple_ltb (key a) (key b) = false) l ->
  List.filter f (insert_desc key x l)
  = if f x then insert_desc key x (List.filter f l) else List.filter f l.
Proof.
  induction 1 as [|y l Hsorted IH Hy]; [cbn; by destruct (f x)|].
  cbn [insert_desc]. destruct (tuple_ltb (key x) (key y)) eqn:Hlt.
  - cbn [List.filter]. rewrite IH.
    destruct (f y), (f x); try done. cbn [insert_desc]. by rewrite Hlt.
  - change (List.filter f (x :: y :: l))
      with (if f x then x :: List.filter f (y :: l) else List.filter f (y :: l)).
    destruct (f x); [|done].
    symmetry. apply insert_desc_front.
    assert (Hall : Forall (fun z => tuple_ltb (key x) (key z) = false) (y :: l)).
    { constructor; [done|]. eapply Forall_impl; [exact Hy|].
      intros z Hz. cbn in Hz. by eapply tuple_ge_trans. }
    rewrite Forall_forall in Hall. apply Forall_forall.
    intros z Hz. apply Hall. apply list_elem_of_In. apply list_elem_of_In in Hz.
    apply filter_In in Hz as [Hz _]. exact Hz.
Qed.

Lemma list_sort_reverse_filter (l : list A) :
  list_sort_reverse key (List.filter f l) = List.filter f (list_sort_reverse key l).
Proof.
  induction l as [|x l IH]; [done|].
  cbn [list_sort_reverse foldr List.filter]. fold (list_sort_reverse key l).
  rewrite insert_desc_filter by apply list_sort_reverse_strongly_sorted.
  rewrite <- IH. by destruct (f x).
Qed.

End SortFilter.

(** X4. Filtering and sorting commute: [fetch_relations] filters first and
    sorts what is left (to sort less, as its comment says), and it returns
    the very list that sorting first and filtering afterwards would give,
    whatever the filter parameters and the sort key. *)
Theorem filter_then_sort (paper_key sort_by : string) (influential_only : bool)
        (since_year until_year : option Z) (papers : list Entry) :
  sort_papers (List.filter (passes_filter paper_key influential_only since_year until_year)
                           papers) paper_key sort_by
  = List.filter (passes_filter paper_key influential_only since_year until_year)
                (sort_papers papers paper_key sort_by).
Proof. apply list_sort_reverse_filter. Qed.

(** *** What the fetch limit bounds *)

Lemma slice_to_opt_length {A : Type} (n : option Z) (l : list A) :
  (length (slice_to_opt n l) <= length l)%nat.
Proof.
  destruct n as [n|]; [|done]. unfold slice_to_opt, slice_to.
  destruct (0 <=? n); rewrite length_take; lia.
Qed.

(** X5. When the server keeps to its page size of 1000, a relation
    retrieval returns fewer than [fetch_limit + 1000] entries, whatever
    the filters, the sort key and [num_results]; in particular nothing is
    returned when the fetch limit is -999 or less. *)
Theorem fetch_relations_size (server : Server) (paper_id relation_type sort_by : string)
        (influential_only : bool) (since_year until_year num_results : option Z)
        (fetch_limit : Z) (w : World) :
  pages_within_limit server ->
  len (fst (fst (fetch_relations server paper_id relation_type sort_by influential_only
                                 since_year until_year num_results fetch_limit w)))
  <= Z.max 0 (fetch_limit + 999).
Proof.
  intros Hpage. unfold fetch_relations.
  pose proof (fetch_pages_bound server (page_rounds fetch_limit) paper_id relation_type
                (relation_fields (if String.eqb relation_type "citations"
                                  then "citingPaper" else "citedPaper")%string)
                fetch_limit Hpage [] 0 w) as Hbound.
  destruct (fetch_pages _ _ _ _ _ _ _ _ _) as [results w1].
  cbn [fst] in *.
  match goal with
  | |- len (slice_to_opt _ (sort_papers (List.filter ?f _) ?pk _)) <= _ =>
      pose proof (slice_to_opt_length num_results
                    (sort_papers (List.filter f results) pk sort_by)) as Hslice;
      pose proof (Permutation_length
                    (list_sort_reverse_perm (key_fn pk sort_by) (List.filter f results)))
        as Hperm;
      pose proof (filter_length_le f results) as Hfilter
  end.
  unfold sort_papers, len in *. cbn [length] in Hbound. lia.
Qed.

Lemma demo_pages_within_limit : pages_within_limit Demo.server.
Proof.
  intros w req body l. unfold Demo.server.
  destruct (String.eqb _ _); [intros [= <-]; intros [= <-]; by vm_compute|].
  destruct (String.eqb _ _); [intros [= <-]; discriminate|].
  destruct (String.eqb _ _); [intros [= <-]; intros [= <-]; by vm_compute|].
  discriminate.
Qed.

Lemma fetch_relations_size_witness :
  len (fst (fst (fetch_relations Demo.server "X" "references" "citation" false None None
                                 None 2 []))) <= 1001.
Proof.
  exact (fetch_relations_size Demo.server "X" "references" "citation" false None None None 2
                              [] demo_pages_within_limit).
Defined.

(** *** Each publication is expanded once *)

Section Visited.
Variable server : Server.

Lemma visit_items_visited (m current_pid : string) (d depth : Z) (items : Relations) :
  forall self queue self' queue',
    visit_items m current_pid d depth items self queue = Done (self', queue') ->
    visited self ⊆ visited self' /\
    exists added, queue' = queue ++ added /\ NoDup (map fst added) /\
                  forall p, p ∈ map fst added -> (p ∉ visited self) /\ p ∈ visited self'.
Proof.
  induction items as [|[p_info is_influential] items IH]; intros self queue self' queue'.
  - intros [= <- <-]. split; [done|]. exists []. rewrite app_nil_r.
    split; [done|]. split; [constructor|]. intros p Hp. by apply elem_of_nil in Hp.
  - cbn [visit_items].
    destruct p_info as [p_info|]; [|apply IH].
    destruct (negb (paper_truthy p_info) || negb (truthy_str (dict_get (paperId p_info))));
      [apply IH|].
    destruct (add_node p_info (d + 1) self) as [[b self1]| |] eqn:Hadd; [|done|done].
    apply add_node_spec in Hadd as (Hv1 & _).
    set (target_id := default ""%string (dict_get (paperId p_info))).
    set (self2 := if String.eqb m "references"
                  then _add_edge current_pid target_id is_influential self1
                  else _add_edge target_id current_pid is_influential self1).
    assert (Hv2 : visited self2 = visited self).
    { subst self2. rewrite <- Hv1. destruct (String.eqb m "references"); apply add_edge_spec. }
    destruct (decide (target_id ∉ visited self2)) as [Hnew|Hold].
    + rewrite bool_decide_eq_true_2 by done.
      assert (Hstep : forall queue0,
                 visit_items m current_pid d depth items
                   (mkPaperGraph (G self2) ({[target_id]} ∪ visited self2) (_cache self2))
                   queue0 = Done (self', queue') ->
                 visited self ⊆ visited self' /\ target_id ∈ visited self' /\
                 exists added, queue' = queue0 ++ added /\ NoDup (map fst added) /\
                   forall p, p ∈ map fst added ->
                             p <> target_id /\ (p ∉ visited self) /\ p ∈ visited self').
      { intros queue0 Hrest. apply IH in Hrest as (Hsub & added & -> & Hnd & Hin).
        cbn [visited] in Hsub, Hin. rewrite Hv2 in Hsub, Hin.
        split; [set_solver|]. split; [set_solver|].
        exists added. split; [done|]. split; [done|].
        intros p Hp. destruct (Hin p Hp) as [Hp1 Hp2]. set_solver. }
      rewrite Hv2 in Hnew.
      destruct (d + 1 <? depth).
      * intros Hrest. apply Hstep in Hrest as (Hsub & Ht & added & -> & Hnd & Hin).
        split; [done|]. exists ((target_id, d + 1) :: added).
        split; [by rewrite <- app_assoc|]. split.
        -- cbn. constructor; [|done]. intros Hp. by destruct (Hin _ Hp) as [Hne _].
        -- intros p Hp. cbn in Hp. apply elem_of_cons in Hp as [->|Hp]; [done|].
           by destruct (Hin p Hp) as (_ & ? & ?).
      * intros Hrest. apply Hstep in Hrest as (Hsub & Ht & added & -> & Hnd & Hin).
        split; [done|]. exists added. split; [done|]. split; [done|].
        intros p Hp. by destruct (Hin p Hp) as (_ & ? & ?).
    + rewrite bool_decide_eq_false_2 by done.
      intros Hrest. apply IH in Hrest as (Hsub & added & -> & Hnd & Hin).
      rewrite Hv2 in Hsub, Hin. split; [done|]. by exists added.
Qed.

Lemma expand_visited (directions : list string) (current_pid : string) (d depth : Z)
      (widths : list Z) (influential_only : bool) (since_year until_year : option Z)
      (fetch_limit : Z) :
  forall self queue w self' queue' w',
    expand server directions current_pid d depth widths influential_only since_year
           until_year fetch_limit self queue w = Done (self', queue', w') ->
    visited self ⊆ visited self' /\
    exists added, queue' = queue ++ added /\ NoDup (map fst added) /\
                  forall p, p ∈ map fst added -> (p ∉ visited self) /\ p ∈ visited self'.
Proof.
  induction directions as [|m directions IH]; intros self queue w self' queue' w'.
  - intros [= <- <- <-]. split; [done|]. exists []. rewrite app_nil_r.
    split; [done|]. split; [constructor|]. intros p Hp. by apply elem_of_nil in Hp.
  - cbn [expand].
    destruct (list_item widths _) as [cur_width| |]; [|done|done].
    destruct (_get_relations _ _ _ _ _ _ _ _ _) as [[relations self1] w1] eqn:Hget.
    apply get_relations_spec in Hget as (_ & Hv1).
    destruct (visit_items _ _ _ _ _ _ _) as [[self2 queue2]| |] eqn:Hvisit; [|done|done].
    apply visit_items_visited in Hvisit as (Hsub2 & added2 & -> & Hnd2 & Hin2).
    rewrite Hv1 in Hsub2, Hin2.
    intros Hrest. apply IH in Hrest as (Hsub3 & added3 & -> & Hnd3 & Hin3).
    split; [set_solver|]. exists (added2 ++ added3).
    split; [by rewrite app_assoc|]. split.
    + rewrite map_app. apply NoDup_app. split; [done|]. split; [|done].
      intros p Hp2 Hp3. destruct (Hin2 p Hp2) as [_ Hp2']. by destruct (Hin3 p Hp3) as [Hp3' _].
    + intros p Hp. rewrite map_app in Hp. apply elem_of_app in Hp as [Hp|Hp].
      * destruct (Hin2 p Hp) as [? ?]. set_solver.
      * destruct (Hin3 p Hp) as [? ?]. set_solver.
Qed.

Lemma bfs_trace_outcome (fuel : nat) (directions : list string) (depth : Z) (widths : list Z)
      (influential_only : bool) (since_year until_year : option Z) (fetch_limit : Z) :
  forall queue self w,
    fst (Trace.bfs_trace server fuel directions depth widths influential_only since_year
                         until_year fetch_limit queue self w)
    = bfs server fuel directions depth widths influential_only since_year until_year
          fetch_limit queue self w.
Proof.
  induction fuel as [|fuel IH]; intros queue self w.
  - by destruct queue as [|[pid d] queue].
  - destruct queue as [|[pid d] queue]; [done|].
    cbn [Trace.bfs_trace bfs]. destruct (depth <=? d).
    + rewrite <- IH. by destruct (Trace.bfs_trace _ _ _ _ _ _ _ _ _ _ _ _).
    + destruct (expand _ _ _ _ _ _ _ _ _ _ _ _ _) as [[[self1 queue1] w1]| |]; [|done|done].
      rewrite <- IH. by destruct (Trace.bfs_trace _ _ _ _ _ _ _ _ _ _ _ _).
Qed.

Lemma bfs_trace_ids (fuel : nat) (directions : list string) (depth : Z) (widths : list Z)
      (influential_only : bool) (since_year until_year : option Z) (fetch_limit : Z) :
  forall queue self w,
    NoDup (map fst queue) ->
    (forall p, p ∈ map fst queue -> p ∈ visited self) ->
    let dequeued := snd (Trace.bfs_trace server fuel directions depth widths
                           influential_only since_year until_year fetch_limit
                           queue self w) in
    NoDup (map fst dequeued) /\
    forall p, p ∈ map fst dequeued -> p ∈ map fst queue \/ p ∉ visited self.
Proof.
  induction fuel as [|fuel IH]; intros queue self w Hnd Hvis.
  - destruct queue as [|[pid d] queue]; cbn; (split; [constructor|]);
      intros p Hp; by apply elem_of_nil in Hp.
  - destruct queue as [|[pid d] queue].
    { cbn. split; [constructor|]. intros p Hp. by apply elem_of_nil in Hp. }
    cbn [map fst] in Hnd, Hvis. apply NoDup_cons in Hnd as [Hpid Hnd].
    assert (Hpid_vis : pid ∈ visited self) by (apply Hvis; left).
    cbn [Trace.bfs_trace].
    assert (Hfinish : forall rest : list (string * Z),
               NoDup (map fst rest) ->
               (forall p, p ∈ map fst rest -> p ∈ map fst queue \/ p ∉ visited self) ->
               NoDup (map fst ((pid, d) :: rest)) /\
               forall p, p ∈ map fst ((pid, d) :: rest) ->
                         p ∈ map fst ((pid, d) :: queue) \/ p ∉ visited self).
    { intros rest Hrest_nd Hrest_in. split.
      - cbn. constructor; [|done]. intros Hp. by destruct (Hrest_in _ Hp).
      - intros p Hp. cbn in Hp. apply elem_of_cons in Hp as [->|Hp]; [left; left|].
        destruct (Hrest_in p Hp) as [Hq|Hq]; [left; by right|by right]. }
    destruct (depth <=? d).
    + destruct (IH queue self w Hnd) as [H1 H2]; [intros p Hp; apply Hvis; by right|].
      destruct (Trace.bfs_trace _ _ _ _ _ _ _ _ _ _ _ _) as [outcome rest].
      cbn [snd] in *. by apply Hfinish.
    + destruct (expand _ _ _ _ _ _ _ _ _ _ _ _ _) as [[[self1 queue1] w1]| |] eqn:Hexp.
      * apply expand_visited in Hexp as (Hsub & added & -> & Hadd_nd & Hadd_in).
        destruct (IH (queue ++ added) self1 (time_sleep 500 w1)) as [H1 H2].
        { rewrite map_app. apply NoDup_app. split; [done|]. split; [|done].
          intros p Hq Ha. destruct (Hadd_in p Ha) as [Hnot _]. apply Hnot, Hvis. by right. }
        { intros p Hp. rewrite map_app in Hp. apply elem_of_app in Hp as [Hp|Hp].
          - apply Hsub, Hvis. by right.
          - by destruct (Hadd_in p Hp). }
        destruct (Trace.bfs_trace _ _ _ _ _ _ _ _ _ _ _ _) as [outcome rest].
        cbn [snd] in *. apply Hfinish; [done|].
        intros p Hp. destruct (H2 p Hp) as [Hq|Hq].
        -- rewrite map_app in Hq. apply elem_of_app in Hq as [Hq|Hq]; [by left|].
           right. by destruct (Hadd_in p Hq).
        -- right. intros Hv. by apply Hq, Hsub.
      * cbn [snd]. apply Hfinish; [constructor|]. intros p Hp. by apply elem_of_nil in Hp.
      * cbn [snd]. apply Hfinish; [constructor|]. intros p Hp. by apply elem_of_nil in Hp.
Qed.

End Visited.

(** X6. No publication is expanded twice. When the queue holds no id
    twice and only visited ids, as it does when [build] starts the loop
    with the seed, the entries that the loop takes out of the queue, up to
    its end or to the point where it raises or runs out of fuel, all have
    different publication ids. *)
Theorem bfs_dequeues_once (server : Server) (fuel : nat) (directions : list string)
        (depth : Z) (widths : list Z) (influential_only : bool)
        (since_year until_year : option Z) (fetch_limit : Z)
        (queue : list (string * Z)) (self : PaperGraph) (w : World) :
  NoDup (map fst queue) ->
  (forall p, p ∈ map fst queue -> p ∈ visited self) ->
  fst (Trace.bfs_trace server fuel directions depth widths influential_only since_year
                       until_year fetch_limit queue self w)
  = bfs server fuel directions depth widths influential_only since_year until_year
        fetch_limit queue self w /\
  NoDup (map fst (snd (Trace.bfs_trace server fuel directions depth widths influential_only
                                       since_year until_year fetch_limit queue self w))).
Proof.
  intros Hnd Hvis. split; [apply bfs_trace_outcome|].
  by apply bfs_trace_ids.
Qed.

(** The loop of the demonstration, started as [build] starts it. *)
Lemma bfs_dequeues_once_witness :
  NoDup (map fst (snd (Trace.bfs_trace Demo.server 5 ["references"%string] 2 [3] false None
                                       None 10000 [("X"%string, 0)]
                                       (mkPaperGraph empty_digraph {["X"%string]} ∅) []))).
Proof.
  refine (proj2 (bfs_dequeues_once Demo.server 5 ["references"%string] 2 [3] false None None
                                   10000 [("X"%string, 0)]
                                   (mkPaperGraph empty_digraph {["X"%string]} ∅) [] _ _)).
  - cbn. repeat constructor. set_solver.
  - intros p Hp. cbn in Hp. set_solver.
Defined.

(** *** The width limits the branching *)

Section Branching.
Variable server : Server.

Lemma visit_items_count (m current_pid : string) (d depth : Z) (items : Relations) :
  forall self queue self' queue',
    visit_items m current_pid d depth items self queue = Done (self', queue') ->
    (length (nodes (G self')) <= length (nodes (G self)) + length items)%nat /\
    (length (edges (G self')) <= length (edges (G self)) + length items)%nat /\
    (length queue' <= length queue + length items)%nat.
Proof.
  induction items as [|[p_info is_influential] items IH]; intros self queue self' queue'.
  - intros [= <- <-]. cbn. lia.
  - cbn [visit_items length].
    assert (Hskip : forall self0 queue0,
               visit_items m current_pid d depth items self0 queue0 = Done (self', queue') ->
               (length (nodes (G self0)) <= length (nodes (G self)) + 1)%nat ->
               (length (edges (G self0)) <= length (edges (G self)) + 1)%nat ->
               (length queue0 <= length queue + 1)%nat ->
               (length (nodes (G self')) <= length (nodes (G self)) + S (length items))%nat /\
               (length (edges (G self')) <= length (edges (G self)) + S (length items))%nat /\
               (length queue' <= length queue + S (length items))%nat).
    { intros self0 queue0 Hrest Hn He Hq. apply IH in Hrest. lia. }
    destruct p_info as [p_info|]; [|intros Hrest; apply (Hskip _ _ Hrest); lia].
    destruct (negb (paper_truthy p_info) || negb (truthy_str (dict_get (paperId p_info))));
      [intros Hrest; apply (Hskip _ _ Hrest); lia|].
    destruct (add_node p_info (d + 1) self) as [[b self1]| |] eqn:Hadd; [|done|done].
    apply add_node_spec in Hadd as (_ & _ & He1 & Hn1).
    assert (Hn1' : (length (nodes (G self1)) <= length (nodes (G self)) + 1)%nat).
    { destruct Hn1 as [->|(pid & a & -> & _)]; [lia|]. rewrite length_app. cbn. lia. }
    set (target_id := default ""%string (dict_get (paperId p_info))).
    set (self2 := if String.eqb m "references"
                  then _add_edge current_pid target_id is_influential self1
                  else _add_edge target_id current_pid is_influential self1).
    assert (H2 : nodes (G self2) = nodes (G self1) /\
                 (length (edges (G self2)) <= length (edges (G self1)) + 1)%nat).
    { subst self2. destruct (String.eqb m "references").
      - destruct (add_edge_spec current_pid target_id is_influential self1)
          as (_ & _ & Hn & [->|(a & -> & _)]); (split; [done|]); [lia|].
        rewrite length_app. cbn. lia.
      - destruct (add_edge_spec target_id current_pid is_influential self1)
          as (_ & _ & Hn & [->|(a & -> & _)]); (split; [done|]); [lia|].
        rewrite length_app. cbn. lia. }
    destruct H2 as [Hn2 He2]. rewrite He1 in He2.
    destruct (bool_decide (target_id ∉ visited self2)).
    + destruct (d + 1 <? depth); intros Hrest; apply (Hskip _ _ Hrest); cbn [G];
        rewrite ?length_app; cbn [length]; rewrite ?Hn2; lia.
    + intros Hrest. apply (Hskip _ _ Hrest); rewrite ?Hn2; lia.
Qed.

Lemma slice_to_length {A : Type} (n : Z) (l : list A) :
  0 <= n -> (length (slice_to n l) <= Z.to_nat n)%nat.
Proof.
  intros Hn. unfold slice_to. destruct (Z.leb_spec 0 n); [|lia].
  rewrite length_take. lia.
Qed.

Lemma expand_count (directions : list string) (current_pid : string) (d depth : Z)
      (widths : list Z) (influential_only : bool) (since_year until_year : option Z)
      (fetch_limit : Z) (cur_width : Z) :
  list_item widths (Z.min d (len widths - 1)) = Done cur_width ->
  0 <= cur_width ->
  forall self queue w self' queue' w',
    expand server directions current_pid d depth widths influential_only since_year
           until_year fetch_limit self queue w = Done (self', queue', w') ->
    (length (nodes (G self'))
     <= length (nodes (G self)) + length directions * Z.to_nat cur_width)%nat /\
    (length (edges (G self'))
     <= length (edges (G self)) + length directions * Z.to_nat cur_width)%nat /\
    (length queue' <= length queue + length directions * Z.to_nat cur_width)%nat.
Proof.
  intros Hwidth Hpos.
  induction directions as [|m directions IH]; intros self queue w self' queue' w'.
  - intros [= <- <- <-]. cbn. lia.
  - cbn [expand]. rewrite Hwidth.
    destruct (_get_relations _ _ _ _ _ _ _ _ _) as [[relations self1] w1] eqn:Hget.
    apply get_relations_spec in Hget as (HG1 & _).
    match goal with
    | |- context [visit_items _ _ _ _ ?its _ _] =>
        assert (Hitems : (length its <= Z.to_nat cur_width)%nat)
    end.
    { etransitivity; [apply filter_length_le|]. by apply slice_to_length. }
    destruct (visit_items _ _ _ _ _ _ _) as [[self2 queue2]| |] eqn:Hvisit; [|done|done].
    apply visit_items_count in Hvisit as (Hn2 & He2 & Hq2). rewrite HG1 in Hn2, He2.
    intros Hrest. apply IH in Hrest as (Hn3 & He3 & Hq3).
    cbn [length]. lia.
Qed.

End Branching.

(** X7. The width limits the branching. Expanding one dequeued entry, with
    the width [cur_width >= 0] that the width list gives for its depth,
    adds to the graph at most [cur_width] nodes and [cur_width] edges for
    each direction, and at most as many entries to the queue; a width of
    0 adds nothing. *)
Theorem expand_within_width (server : Server) (directions : list string)
        (current_pid : string) (d depth : Z) (widths : list Z) (influential_only : bool)
        (since_year until_year : option Z) (fetch_limit : Z) (cur_width : Z)
        (self : PaperGraph) (queue : list (string * Z)) (w : World)
        (self' : PaperGraph) (queue' : list (string * Z)) (w' : World) :
  list_item widths (Z.min d (len widths - 1)) = Done cur_width ->
  0 <= cur_width ->
  expand server directions current_pid d depth widths influential_only since_year
         until_year fetch_limit self queue w = Done (self', queue', w') ->
  (length (nodes (G self'))
   <= length (nodes (G self)) + length directions * Z.to_nat cur_width)%nat /\
  (length (edges (G self'))
   <= length (edges (G self)) + length directions * Z.to_nat cur_width)%nat /\
  (length queue' <= length queue + length directions * Z.to_nat cur_width)%nat /\
  (cur_width = 0 -> G self' = G self /\ queue' = queue).
Proof.
  intros Hwidth Hpos Hexp.
  pose proof (expand_count server directions current_pid d depth widths influential_only
                since_year until_year fetch_limit cur_width Hwidth Hpos
                self queue w self' queue' w' Hexp) as (Hn & He & Hq).
  do 3 (split; [done|]).
  intros ->. rewrite Nat.mul_0_r, Nat.add_0_r in Hn, He, Hq.
  apply expand_spec in Hexp as (((ns & Hns & _) & (es & Hes) & _) & added & -> & _).
  rewrite Hns, length_app in Hn. rewrite Hes, length_app in He. rewrite length_app in Hq.
  destruct ns; [|cbn in Hn; lia]. destruct es; [|cbn in He; lia].
  destruct added; [|cbn in Hq; lia].
  rewrite app_nil_r in *. split; [|done].
  destruct (G self'), (G self). cbn in *. congruence.
Qed.

(** The seed of the demonstration, expanded with width 3 among its five
    references. *)
Lemma expand_within_width_witness :
  let seeded := mkPaperGraph (mkDiGraph [("X"%string, mkNodeAttrs "" ("", Missing, 0)
                                            (mkColor "" "" ("", "")) 1 3 0)] [])
                             {["X"%string]} ∅ in
  match expand Demo.server ["references"%string] "X" 0 1 [3] false None None 10000
               seeded [] [] with
  | Done (self', queue', _) =>
      (length (nodes (G self')) <= 1 + 1 * 3)%nat /\ (length (edges (G self')) <= 0 + 1 * 3)%nat
  | _ => False
  end.
Proof.
  intros seeded.
  destruct (expand Demo.server ["references"%string] "X" 0 1 [3] false None None 10000
                   seeded [] []) as [[[self' queue'] w']| |] eqn:Hexp;
    [|by vm_compute in Hexp|by vm_compute in Hexp].
  pose proof (expand_within_width Demo.server ["references"%string] "X" 0 1 [3] false None
                None 10000 3 seeded [] [] self' queue' w' eq_refl ltac:(lia) Hexp)
    as (Hn & He & _).
  done.
Defined.

(** *** What the densification pass achieves *)

Lemma adds_edges_keeps (g g' : DiGraph) :
  adds_edges g g' ->
  node_ids g' = node_ids g /\ forall e, e ∈ edge_keys g -> e ∈ edge_keys g'.
Proof.
  intros (Hn & es & He & _). split; [unfold node_ids; by rewrite Hn|].
  intros e Hin. unfold edge_keys. rewrite He, map_app. apply elem_of_app. by left.
Qed.

Lemma add_edge_present (source target : string) (is_influential : option bool)
      (self : PaperGraph) :
  source ∈ node_ids (G self) -> target ∈ node_ids (G self) ->
  (source, target) ∈ edge_keys (G (_add_edge source target is_influential self)).
Proof.
  intros Hs Ht. unfold _add_edge.
  apply has_node_true in Hs, Ht. rewrite Hs, Ht. cbn [negb orb].
  destruct (has_edge (G self) source target) eqn:He.
  - unfold has_edge in He. by apply bool_decide_eq_true in He.
  - apply has_edge_false in He. cbn. unfold edge_keys. cbn.
    rewrite table_set_fresh by done. rewrite map_app. apply elem_of_app. right. by left.
Qed.

Section Densification.
Variable server : Server.
Variables (influential_only : bool) (since_year until_year : option Z) (fetch_limit : Z).

(** The references of [pid] are cached, and each of them that is a node
    is joined to [pid] by an edge. *)
Let densified (ids : list string) (self : PaperGraph) (pid : string) : Prop :=
  exists relations,
    _cache self !! references_key pid influential_only since_year until_year = Some relations /\
    forall item r, item ∈ relations -> ref_id_of item = Some r -> r ∈ ids ->
                   (pid, r) ∈ edge_keys (G self).

Lemma densify_node_complete (ids : gset string) (pid : string) (relations : Relations) :
  forall self,
    pid ∈ node_ids (G self) ->
    (forall r, r ∈ ids -> r ∈ node_ids (G self)) ->
    forall item r, item ∈ relations -> ref_id_of item = Some r -> r ∈ ids ->
                   (pid, r) ∈ edge_keys (G (densify_node ids pid relations self)).
Proof.
  induction relations as [|item0 relations IH]; intros self Hpid Hids item r Hitem Hr Hin.
  - by apply elem_of_nil in Hitem.
  - unfold densify_node. cbn [foldl]. fold (ref_id_of item0).
    match goal with |- context [foldl ?f ?x relations] => set (self1 := x) end.
    change (foldl _ self1 relations) with (densify_node ids pid relations self1).
    assert (H1 : adds_edges (G self) (G self1)).
    { subst self1. destruct (ref_id_of item0) as [r0|]; [|apply adds_edges_refl].
      destruct (bool_decide (r0 ∈ ids)); [apply add_edge_adds_edges|apply adds_edges_refl]. }
    destruct (adds_edges_keeps _ _ H1) as [Hsame Hkeep].
    apply elem_of_cons in Hitem as [->|Hitem].
    + destruct (densify_node_spec ids pid relations self1) as (H2 & _).
      apply (adds_edges_keeps _ _ H2). subst self1. rewrite Hr.
      rewrite bool_decide_eq_true_2 by done. apply add_edge_present; [done|by apply Hids].
    + apply (fun Ha Hb => IH self1 Ha Hb item r Hitem Hr Hin); rewrite Hsame; done.
Qed.

Lemma densify_loop_complete (ids0 : list string) (order : list string) :
  forall st : PaperGraph * World,
    node_ids (G (fst st)) = ids0 ->
    let step := fun (st : PaperGraph * World) (pid : string) =>
                  let '(relations, self1, w1) :=
                    _get_relations server pid "references" influential_only since_year
                                   until_year fetch_limit (fst st) (snd st) in
                  (densify_node (list_to_set ids0) pid relations self1, w1) in
    node_ids (G (fst (foldl step st order))) = ids0 /\
    (forall pid, densified ids0 (fst st) pid -> densified ids0 (fst (foldl step st order)) pid) /\
    (forall pid, pid ∈ order -> pid ∈ ids0 -> densified ids0 (fst (foldl step st order)) pid).
Proof.
  intros st Hids step. revert st Hids.
  induction order as [|pid order IH]; intros st Hids.
  - cbn. split; [done|]. split; [done|]. intros p Hp. by apply elem_of_nil in Hp.
  - cbn [foldl].
    assert (Hstep : node_ids (G (fst (step st pid))) = ids0 /\
                    (forall p, densified ids0 (fst st) p -> densified ids0 (fst (step st pid)) p) /\
                    (pid ∈ ids0 -> densified ids0 (fst (step st pid)) pid)).
    { subst step. cbn beta.
      destruct (_get_relations _ _ _ _ _ _ _ _ _) as [[relations self1] w1] eqn:Hget.
      pose proof (get_spec server (mkQuery pid "references" influential_only since_year
                                           until_year fetch_limit) (fst st) (snd st)
                           relations self1 w1 Hget) as (HG1 & _ & Hcached & Hkeep).
      destruct (densify_node_spec (list_to_set ids0) pid relations self1) as (Hadd & _ & Hc).
      destruct (adds_edges_keeps _ _ Hadd) as [Hsame Hedges].
      cbn [fst]. split; [by rewrite Hsame, HG1|]. split.
      - intros p (rels & Hrels & Hall). exists rels. rewrite Hc. split; [by apply Hkeep|].
        intros item r Hitem Hr Hin. apply Hedges. rewrite HG1. by eapply Hall.
      - intros Hpid. exists relations. rewrite Hc. split; [exact Hcached|].
        intros item r Hitem Hr Hin.
        apply (fun Ha Hb => densify_node_complete (list_to_set ids0) pid relations self1
                                                  Ha Hb item r Hitem Hr);
          rewrite ?HG1, ?Hids; try done.
        + intros r0 Hr0. by apply elem_of_list_to_set in Hr0.
        + by apply elem_of_list_to_set. }
    destruct Hstep as (Hids1 & Hmono1 & Hnew1).
    destruct (IH (step st pid) Hids1) as (Hids2 & Hmono2 & Hnew2).
    split; [done|]. split; [by auto|].
    intros p Hp Hin. apply elem_of_cons in Hp as [->|Hp]; [|by apply Hnew2].
    by apply Hmono2, Hnew1.
Qed.

End Densification.

(** X8. The densification pass completes the inner edges. When the
    iteration over the node set meets every node, then after the pass the
    reference list of every node is in the cache, and every publication of
    that list that is a node of the graph is joined to the node by an
    edge from the node to it. *)
Theorem densify_complete (server : Server) (set_order : gset string -> list string)
        (influential_only : bool) (since_year until_year : option Z) (fetch_limit : Z)
        (self : PaperGraph) (w : World) :
  (forall p, p ∈ node_ids (G self) -> p ∈ set_order (list_to_set (node_ids (G self)))) ->
  let self' := fst (densify server set_order influential_only since_year until_year
                            fetch_limit self w) in
  forall pid, pid ∈ node_ids (G self') ->
    exists relations,
      _cache self' !! references_key pid influential_only since_year until_year
      = Some relations /\
      forall item r, item ∈ relations -> ref_id_of item = Some r ->
                     r ∈ node_ids (G self') -> (pid, r) ∈ edge_keys (G self').
Proof.
  intros Horder self' pid Hpid.
  pose proof (densify_loop_complete server influential_only since_year until_year fetch_limit
                (node_ids (G self)) (set_order (list_to_set (node_ids (G self))))
                (self, w) eq_refl) as (Hids & _ & Hall).
  cbv zeta in Hids, Hall.
  change (fst (foldl _ (self, w) _)) with self' in Hids, Hall.
  rewrite Hids in Hpid |- *. apply Hall; [by apply Horder|done].
Qed.

(** On the graph of the demonstration, with the order of [elements]. *)
Lemma densify_complete_witness :
  let self' := fst (densify Demo.server elements false None None 10000 Demo.graph []) in
  exists relations,
    _cache self' !! references_key "X" false None None = Some relations /\
    forall item r, item ∈ relations -> ref_id_of item = Some r ->
                   r ∈ node_ids (G self') -> ("X"%string, r) ∈ edge_keys (G self').
Proof.
  apply (densify_complete Demo.server elements false None None 10000 Demo.graph []).
  - intros p Hp. apply elem_of_elements, elem_of_list_to_set. exact Hp.
  - vm_compute. set_solver.
Defined.

(** *** An edge keeps its first style *)

(** X9. The first insertion of an edge wins: calling [_add_edge] again for
    the same ordered pair, with the same or another influence flag,
    changes nothing, and no call of [_add_edge] changes the colour or the
    width of an edge that is in the graph. *)
Theorem add_edge_first_wins (source target : string) (first later : option bool)
        (self : PaperGraph) :
  _add_edge source target later (_add_edge source target first self)
  = _add_edge source target first self /\
  (forall u v a s t flag,
      edge_attrs (G self) u v = Some a ->
      edge_attrs (G (_add_edge s t flag self)) u v = Some a).
Proof.
  split.
  - assert (Hids : node_ids (G (_add_edge source target first self)) = node_ids (G self)).
    { unfold node_ids. by destruct (add_edge_spec source target first self) as (_ & _ & -> & _). }
    pose proof (add_edge_present source target first self) as Hpresent.
    set (self1 := _add_edge source target first self) in *.
    unfold _add_edge.
    destruct (has_node (G self1) source) eqn:Hs; [|done].
    destruct (has_node (G self1) target) eqn:Ht; [|done].
    apply has_node_true in Hs, Ht. rewrite Hids in Hs, Ht.
    cbn [negb orb]. unfold has_edge. by rewrite bool_decide_eq_true_2 by auto.
  - intros u v a s t flag Ha.
    destruct (add_edge_spec s t flag self) as (_ & _ & _ & [He|(a' & He & _)]);
      unfold edge_attrs; rewrite He; [done|]. by apply table_get_app.
Qed.

(** *** File names *)

Lemma keeps_char_safe (c : ascii) :
  keeps_char c = true ->
  let c' := if (nat_of_ascii c =? 32)%nat then "_"%char else c in
  safe_char c' /\ keeps_char c' = true /\ (nat_of_ascii c' =? 32)%nat = false.
Proof.
  intros Hkeep c'. subst c'.
  destruct (Nat.eqb_spec (nat_of_ascii c) 32) as [Hsp|Hsp].
  - split; [unfold safe_char; change (nat_of_ascii "_") with 95%nat; cbv zeta; lia|].
    by split.
  - unfold keeps_char in Hkeep. unfold safe_char, keeps_char.
    repeat rewrite ?orb_true_iff, ?andb_true_iff, ?Nat.leb_le, ?Nat.eqb_eq in Hkeep.
    split; [cbv zeta; lia|]. split.
    + repeat rewrite ?orb_true_iff, ?andb_true_iff, ?Nat.leb_le, ?Nat.eqb_eq. lia.
    + by apply Nat.eqb_neq.
Qed.

Lemma safe_char_ascii (c : ascii) :
  safe_char c -> is_continuation c = false /\ (nat_of_ascii c <? 128)%nat = true.
Proof.
  unfold safe_char, is_continuation. cbv zeta. intros Hsafe. split.
  - apply andb_false_iff. left. apply Nat.leb_gt. lia.
  - apply Nat.ltb_lt. lia.
Qed.

(** On an ASCII title the Unicode table is not consulted. *)
Lemma safe_filename_from_ascii (isalnum : Unicode) (title : string) :
  ascii_only title ->
  forall keep,
    Forall safe_char (String.list_ascii_of_string (safe_filename_from isalnum keep title)) /\
    (String.length (safe_filename_from isalnum keep title) <= String.length title)%nat /\
    forall keep', safe_filename_from isalnum keep' (safe_filename_from isalnum keep title)
                  = safe_filename_from isalnum keep title.
Proof.
  unfold ascii_only. induction title as [|c title IH]; intros Hascii keep.
  - cbn. by repeat constructor.
  - cbn [String.list_ascii_of_string] in Hascii. apply Forall_cons in Hascii as [Hc Hascii].
    cbn [safe_filename_from].
    assert (Hcont : is_continuation c = false).
    { unfold is_continuation. apply andb_false_iff. left. apply Nat.leb_gt. exact Hc. }
    rewrite Hcont. apply Nat.ltb_lt in Hc. rewrite Hc.
    destruct (IH Hascii false) as (IH1 & IH2 & IH3).
    destruct (keeps_char c) eqn:Hkeep.
    + destruct (keeps_char_safe c Hkeep) as (Hsafe & Hkeep' & Hsp').
      destruct (safe_char_ascii _ Hsafe) as [Hcont' Hc'].
      cbn [String.list_ascii_of_string String.length].
      split; [by constructor|]. split; [lia|].
      intros keep'. cbn [safe_filename_from]. by rewrite Hcont', Hc', Hkeep', Hsp', IH3.
    + split; [done|]. split; [cbn [String.length]; lia|done].
Qed.

(** A title with a letter outside ASCII: the letter is kept, with both of
    its bytes, because the Unicode table knows it; the label counts it as
    one character. *)
Example safe_filename_unicode :
  safe_filename Demo.unicode ("Caf" +:+ Demo.e_acute +:+ " au lait!")
  = ("Caf" +:+ Demo.e_acute +:+ "_au_lait")%string /\
  safe_filename (fun _ => false) ("Caf" +:+ Demo.e_acute +:+ " au lait!")
  = "Caf_au_lait"%string /\
  str_len ("Caf" +:+ Demo.e_acute) = 4%nat /\
  str_take 4 ("Caf" +:+ Demo.e_acute +:+ " au lait!") = ("Caf" +:+ Demo.e_acute)%string.
Proof. repeat split. Qed.

(** X10. The file name that [safe_filename] makes of an ASCII title holds
    letters, digits, hyphens and underscores only (no space, no dot, no
    path separator); it is not longer than the title, and making a file
    name of it again gives the same name. *)
Theorem safe_filename_safe (isalnum : Unicode) (title : string) :
  ascii_only title ->
  Forall safe_char (String.list_ascii_of_string (safe_filename isalnum title)) /\
  (String.length (safe_filename isalnum title) <= String.length title)%nat /\
  safe_filename isalnum (safe_filename isalnum title) = safe_filename isalnum title.
Proof.
  intros Hascii. destruct (safe_filename_from_ascii isalnum title Hascii false) as (H1 & H2 & H3).
  split; [exact H1|]. split; [exact H2|]. apply H3.
Qed.

Lemma safe_filename_safe_witness :
  safe_filename Demo.unicode "Attention: Is All/You Need?" = "Attention_Is_AllYou_Need"%string /\
  Forall safe_char
         (String.list_ascii_of_string (safe_filename Demo.unicode "Attention: Is All/You Need?")).
Proof.
  split; [reflexivity|].
  apply (safe_filename_safe Demo.unicode "Attention: Is All/You Need?").
  unfold ascii_only. cbn. repeat constructor.
Defined.

(** *** The older pagination loop *)

(** X11. The pagination loop of the older [fetch_relations] has no fetch
    limit and need not end: against a server that answers every request
    with a full page it never returns, that is, it runs out of any amount
    of fuel. *)
Theorem legacy_fetch_never_returns (server : Server) (fuel : nat)
        (paper_id relation_type fields : string) (results : list Entry) (offset : Z)
        (w : World) :
  always_full_pages server ->
  fst (LegacyFetch.fetch_pages server fuel paper_id relation_type fields results offset w)
  = OutOfFuel.
Proof.
  intros Hfull. revert results offset w.
  induction fuel as [|fuel IH]; intros results offset w; [done|].
  cbn [LegacyFetch.fetch_pages].
  unfold LegacyUtils.request_with_retry.
  change (Z.to_nat LegacyUtils.default_max_retries) with 5%nat.
  cbn [LegacyUtils.attempt].
  destruct (Hfull w (mkRequest (LegacyFetch.BASE_URL +:+ "/" +:+ paper_id +:+ "/"
                                  +:+ relation_type)
                               [("fields", PStr fields); ("offset", PInt offset);
                                ("limit", PInt 1000)]%string)) as (l & -> & Hlen).
  cbn [Z.eqb Pos.eqb json_truthy LegacyFetch.has_data andb json_entries dict_get].
  destruct (Z.ltb_spec (len l) 1000); [lia|]. apply IH.
Qed.

Lemma legacy_fetch_never_returns_witness :
  fst (LegacyFetch.fetch_pages Demo2.endless_server 3 "X" "references" "" [] 0 []) = OutOfFuel.
Proof.
  apply legacy_fetch_never_returns.
  intros w req. exists (replicate 1000 empty_entry). split; [reflexivity|].
  unfold len. rewrite length_replicate. lia.
Defined.

(** *** The table and the CSV file of the relation lookup *)

Lemma table_lines_spec (paper_key : string) (data : list Entry) :
  forall i,
    (Exists (year_is_null paper_key) data ->
     Relation.table_lines i data paper_key = Raised TypeError) /\
    (~ Exists (year_is_null paper_key) data ->
     exists lines,
       Relation.table_lines i data paper_key = Done lines /\
       length lines = length data /\
       map Relation.line_citations lines
       = map (fun x => Relation.csv_citationCount (Relation.csv_row paper_key x)) data /\
       map Relation.line_influential lines
       = map (fun x => Relation.csv_isInfluential (Relation.csv_row paper_key x)) data).
Proof.
  induction data as [|item data IH]; intros i.
  - split; [intros H; by apply Exists_nil in H|]. intros _. by exists [].
  - destruct (IH (i + 1)) as [IHnull IHok]. cbn [Relation.table_lines].
    destruct (year (entry_paper paper_key item)) as [| |y] eqn:Hyear.
    + split.
      * intros H. apply Exists_cons in H as [H|H]; [unfold year_is_null in H; congruence|].
        by rewrite (IHnull H).
      * intros H. destruct IHok as (lines & -> & Hlen & Hc & Hf).
        { intros Hex. apply H. by right. }
        eexists. split; [done|]. cbn. by rewrite Hlen, Hc, Hf.
    + split; [done|]. intros H. exfalso. apply H. by left.
    + split.
      * intros H. apply Exists_cons in H as [H|H]; [unfold year_is_null in H; congruence|].
        by rewrite (IHnull H).
      * intros H. destruct IHok as (lines & -> & Hlen & Hc & Hf).
        { intros Hex. apply H. by right. }
        eexists. split; [done|]. cbn. by rewrite Hlen, Hc, Hf.
Qed.

(** X12. [print_results] raises [TypeError] exactly when one of the
    entries it is given has a related paper whose year is [null] (the year
    is formatted with a width, which [None] does not accept); otherwise it
    prints one line for each entry, or the no-results notice when there is
    none. *)
Theorem print_results_null_year (data : list Entry) (paper_key : string) :
  (Exists (year_is_null paper_key) data ->
   Relation.print_results data paper_key = Raised TypeError) /\
  (~ Exists (year_is_null paper_key) data ->
   match data with
   | [] => Relation.print_results data paper_key = Done Relation.NoResults
   | _ => exists lines, Relation.print_results data paper_key = Done (Relation.Table lines) /\
                        length lines = length data
   end).
Proof.
  destruct (table_lines_spec paper_key data 1) as [Hnull Hok].
  split.
  - intros H. unfold Relation.print_results.
    destruct data as [|item data]; [by apply Exists_nil in H|]. by rewrite (Hnull H).
  - intros H. destruct data as [|item data]; [done|].
    destruct (Hok H) as (lines & Hlines & Hlen & _).
    exists lines. unfold Relation.print_results. by rewrite Hlines.
Qed.

(** Two references, the second with [year: null]. *)
Lemma print_results_null_year_witness :
  Relation.print_results Demo2.references_with_null_year "citedPaper" = Raised TypeError /\
  (exists lines, Relation.print_results (take 1 Demo2.references_with_null_year) "citedPaper"
                 = Done (Relation.Table lines) /\ length lines = 1%nat).
Proof.
  split.
  - apply (print_results_null_year Demo2.references_with_null_year "citedPaper").
    apply Exists_cons_tl, Exists_cons_hd. reflexivity.
  - apply (proj2 (print_results_null_year (take 1 Demo2.references_with_null_year)
                                          "citedPaper")).
    intros H. apply Exists_cons in H as [H|H]; [discriminate H|by apply Exists_nil in H].
Defined.

Lemma strongly_sorted_map {A B : Type} (R : A -> A -> Prop) (R' : B -> B -> Prop)
      (f : A -> B) (l : list A) :
  (forall a b, R a b -> R' (f a) (f b)) ->
  StronglySorted R l -> StronglySorted R' (map f l).
Proof.
  intros HR. induction 1 as [|x l Hl IH Hx]; cbn; constructor; [done|].
  apply Forall_forall. intros y Hy. apply list_elem_of_In, in_map_iff in Hy as (z & <- & Hz).
  apply HR. rewrite Forall_forall in Hx. by apply Hx, list_elem_of_In.
Qed.

Lemma key_ge_citation (paper_key : string) (a b : Entry) :
  tuple_ltb (key_fn paper_key "citation" a) (key_fn paper_key "citation" b) = false ->
  Relation.csv_citationCount (Relation.csv_row paper_key b)
  <= Relation.csv_citationCount (Relation.csv_row paper_key a).
Proof.
  change (key_fn paper_key "citation" a)
    with [dims paper_key a "citation"; dims paper_key a "influential"; dims paper_key a "year"].
  change (key_fn paper_key "citation" b)
    with [dims paper_key b "citation"; dims paper_key b "influential"; dims paper_key b "year"].
  change (dims paper_key a "citation")
    with (Relation.csv_citationCount (Relation.csv_row paper_key a)).
  change (dims paper_key b "citation")
    with (Relation.csv_citationCount (Relation.csv_row paper_key b)).
  cbn [tuple_ltb].
  destruct (Z.ltb_spec (Relation.csv_citationCount (Relation.csv_row paper_key a))
                       (Relation.csv_citationCount (Relation.csv_row paper_key b)));
    [done|lia].
Qed.

Lemma fetch_relations_key (server : Server) (paper_id relation_type sort_by : string)
      (influential_only : bool) (since_year until_year num_results : option Z)
      (fetch_limit : Z) (w : World) :
  snd (fst (fetch_relations server paper_id relation_type sort_by influential_only
                            since_year until_year num_results fetch_limit w))
  = (if String.eqb relation_type "citations" then "citingPaper" else "citedPaper")%string.
Proof. unfold fetch_relations. by destruct (fetch_pages _ _ _ _ _ _ _ _ _). Qed.

Lemma fetch_relations_sorted (server : Server) (paper_id relation_type sort_by : string)
      (influential_only : bool) (since_year until_year : option Z)
      (fetch_limit : Z) (w : World) :
  StronglySorted
    (fun a b => tuple_ltb
                  (key_fn (if String.eqb relation_type "citations"
                           then "citingPaper" else "citedPaper")%string sort_by a)
                  (key_fn (if String.eqb relation_type "citations"
                           then "citingPaper" else "citedPaper")%string sort_by b) = false)
    (fst (fst (fetch_relations server paper_id relation_type sort_by influential_only
                               since_year until_year None fetch_limit w))).
Proof.
  unfold fetch_relations. destruct (fetch_pages _ _ _ _ _ _ _ _ _).
  cbn [fst slice_to_opt]. apply list_sort_reverse_strongly_sorted.
Qed.

(** What the table shows of [data], when it is printed. *)
Lemma shown_spec (num_results : Z) (data : list Entry) (paper_key : string)
      (shown : list Relation.output) :
  (if 0 <? num_results
   then match Relation.print_results (slice_to num_results data) paper_key with
        | Done o => Done [o]
        | Raised e => Raised e
        | OutOfFuel => OutOfFuel
        end
   else Done []) = Done shown ->
  (forall path rows, Relation.CsvFile path rows ∉ shown) /\
  (forall lines, Relation.Table lines ∈ shown ->
     map Relation.line_citations lines
     = take (Z.to_nat num_results)
            (map Relation.csv_citationCount (map (Relation.csv_row paper_key) data)) /\
     map Relation.line_influential lines
     = take (Z.to_nat num_results)
            (map Relation.csv_isInfluential (map (Relation.csv_row paper_key) data))).
Proof.
  destruct (Z.ltb_spec 0 num_results) as [Hpos|Hneg].
  - unfold Relation.print_results, slice_to.
    destruct (Z.leb_spec 0 num_results); [|lia].
    destruct (take (Z.to_nat num_results) data) as [|item rest] eqn:Htake.
    + intros [= <-]. split.
      * intros path rows Hin. apply list_elem_of_singleton in Hin. discriminate.
      * intros lines Hin. apply list_elem_of_singleton in Hin. discriminate.
    + destruct (Relation.table_lines 1 (item :: rest) paper_key) as [ls|e|] eqn:Hls;
        [|done|done].
      intros [= <-]. split.
      * intros path rows Hin. apply list_elem_of_singleton in Hin. discriminate.
      * intros lines Hin. apply list_elem_of_singleton in Hin. injection Hin as ->.
        destruct (table_lines_spec paper_key (item :: rest) 1) as [Hnull Hok].
        destruct (List.Exists_dec (year_is_null paper_key) (item :: rest)) as [Hex|Hnex].
        { intros x. unfold year_is_null.
          destruct (year (entry_paper paper_key x)); [right|left|right]; done. }
        { by rewrite (Hnull Hex) in Hls. }
        destruct (Hok Hnex) as (ls' & Hls' & _ & Hc & Hf).
        rewrite Hls in Hls'. injection Hls' as <-.
        rewrite Hc, Hf, <- Htake, !map_map, <- !firstn_map. done.
  - intros [= <-]. split.
    + intros path rows Hin. by apply elem_of_nil in Hin.
    + intros lines Hin. by apply elem_of_nil in Hin.
Qed.

(** X13. What the relation lookup writes. A CSV file is written only when
    [save_results] is set and [find] is one of the two accepted words. The
    file is about the paper that the search for [title] found: it holds
    every entry that the retrieval of that paper's references (for
    [find = "reference"]) or citations (for [find = "citation"]) returned,
    filtered and sorted as asked, whatever [num_results]; it is written to
    [<dir>/<relation>_<safe title>.csv], where [<dir>] is [save_path], or
    the current directory when that is absent or empty, and that path
    could be opened. Its rows are in descending order of citation count
    when the sort key is the citation count; and the table printed before
    it shows the first [num_results] of its rows (same citation counts and
    influence flags, in the same order). *)
Theorem relation_main_csv (server : Server) (isalnum : Unicode) (disk : Disk)
        (title find : string)
        (num_results fetch_limit : Z) (influential_only : bool) (sort_by : string)
        (since_year until_year : option Z) (save_results : bool) (save_path : option string)
        (w : World) (outputs : list Relation.output) (w' : World)
        (output_path : string) (rows : list Relation.CsvRow) :
  Relation.main server isalnum disk title find num_results fetch_limit influential_only
                sort_by since_year until_year save_results save_path w = (Done outputs, w') ->
  Relation.CsvFile output_path rows ∈ outputs ->
  save_results = true /\ (find = "reference" \/ find = "citation")%string /\
  (exists paper_id info w1,
      search_paper server title w = (Done (Some paper_id, info), w1) /\
      paper_id <> ""%string /\
      let relation := (if String.eqb find "reference" then "references" else "citations")%string in
      let paper_key := (if String.eqb find "reference" then "citedPaper" else "citingPaper")%string in
      let retrieved :=
        fetch_relations server paper_id relation sort_by influential_only since_year
                        until_year None fetch_limit w1 in
      rows = map (Relation.csv_row paper_key) (fst (fst retrieved)) /\
      w' = snd retrieved /\
      output_path
      = (match save_path with
         | Some dir => if String.eqb dir "" then "." else dir
         | None => "."
         end +:+ "/" +:+ relation +:+ "_" +:+ safe_filename isalnum title +:+ ".csv")%string /\
      disk output_path = true) /\
  (sort_by = "citation"%string ->
   StronglySorted (fun a b => Relation.csv_citationCount b <= Relation.csv_citationCount a)
                  rows) /\
  (forall lines, Relation.Table lines ∈ outputs ->
     map Relation.line_citations lines
     = take (Z.to_nat num_results) (map Relation.csv_citationCount rows) /\
     map Relation.line_influential lines
     = take (Z.to_nat num_results) (map Relation.csv_isInfluential rows)).
Proof.
  unfold Relation.main.
  destruct (String.eqb find "reference" || String.eqb find "citation") eqn:Hfind; cbn [negb].
  2: { intros [= <- <-] Hin. apply list_elem_of_singleton in Hin. discriminate. }
  assert (Hfind' : (find = "reference" \/ find = "citation")%string).
  { apply orb_true_iff in Hfind as [H|H]; apply String.eqb_eq in H; auto. }
  destruct (search_paper server title w) as [[[paper_id info]|e|] w1] eqn:Hsearch;
    [|done|done].
  destruct (truthy_str paper_id) eqn:Hfound; cbn [negb].
  2: { intros [= <- <-] Hin. by apply elem_of_nil in Hin. }
  destruct paper_id as [pid|]; [|done]. cbn [truthy_str] in Hfound.
  apply negb_true_iff, String.eqb_neq in Hfound. cbn [default from_option id].
  set (relation_type := (if String.eqb find "reference" then "references" else "citations")%string).
  pose proof (fetch_relations_key server pid relation_type sort_by influential_only
                since_year until_year None fetch_limit w1) as Hkey.
  pose proof (fetch_relations_sorted server pid relation_type sort_by influential_only
                since_year until_year fetch_limit w1) as Hsorted.
  assert (Hpk : (if String.eqb relation_type "citations" then "citingPaper" else "citedPaper")%string
                = (if String.eqb find "reference" then "citedPaper" else "citingPaper")%string).
  { subst relation_type. by destruct (String.eqb find "reference"). }
  assert (Hdir : (if truthy_str save_path then default ""%string save_path else "."%string)
                 = match save_path with
                   | Some dir => if String.eqb dir "" then "."%string else dir
                   | None => "."%string
                   end).
  { destruct save_path as [dir|]; [|done]. cbn. by destruct (String.eqb dir ""). }
  rewrite Hdir. clear Hdir.
  set (output_dir := match save_path with
                     | Some dir => if String.eqb dir "" then "."%string else dir
                     | None => "."%string
                     end).
  rewrite Hpk in Hkey.
  destruct (fetch_relations server pid relation_type sort_by influential_only since_year
                            until_year None fetch_limit w1) as [[data paper_key] w2] eqn:Hfetch.
  rewrite ?Hfetch in Hkey, Hsorted. cbn [fst snd] in Hkey, Hsorted.
  rewrite Hpk, <- Hkey in Hsorted.
  destruct (if 0 <? num_results then _ else _) as [shown| |] eqn:Hprinted; [|done|done].
  apply shown_spec in Hprinted as [Hno_csv Htable].
  destruct save_results.
  - unfold Relation.save_to_csv.
    destruct (disk (output_dir +:+ "/" +:+ relation_type +:+ "_"
                      +:+ safe_filename isalnum title +:+ ".csv")) eqn:Hdisk; [|done].
    intros [= <- <-] Hin.
    assert (Hrows : output_path = (output_dir +:+ "/" +:+ relation_type +:+ "_"
                                     +:+ safe_filename isalnum title +:+ ".csv")%string /\
                    rows = map (Relation.csv_row paper_key) data).
    { cbn [app] in Hin. apply elem_of_cons in Hin as [Hin|Hin]; [discriminate|].
      apply elem_of_app in Hin as [Hin|Hin];
        [by apply Hno_csv in Hin|].
      apply list_elem_of_singleton in Hin. by injection Hin as -> ->. }
    destruct Hrows as [-> ->]. split; [done|]. split; [done|]. split.
    { exists pid, info, w1. split; [reflexivity|]. split; [exact Hfound|]. cbv zeta.
      fold relation_type. rewrite Hfetch. cbn [fst snd]. by rewrite <- Hkey, Hdisk. }
    split.
    + intros ->.
      apply (strongly_sorted_map
               (fun a b => tuple_ltb (key_fn paper_key "citation" a)
                                     (key_fn paper_key "citation" b) = false));
        [intros a b; apply key_ge_citation|done].
    + intros lines Hlines. apply Htable.
      cbn [app] in Hlines. apply elem_of_cons in Hlines as [Hlines|Hlines]; [discriminate|].
      apply elem_of_app in Hlines as [Hlines|Hlines]; [done|].
      apply list_elem_of_singleton in Hlines. discriminate.
  - intros [= <- <-] Hin. exfalso.
    cbn [app] in Hin. apply elem_of_cons in Hin as [Hin|Hin]; [discriminate|].
    by apply Hno_csv in Hin.
Qed.

Lemma demo_lookup :
  Relation.main Demo.server Demo.unicode Demo.disk Demo.title "reference" 3 10000 false
                "citation" None None true None []
  = (Done Demo2.lookup_outputs, Demo2.lookup_world).
Proof. vm_compute. reflexivity. Qed.

(** The lookup of the demonstration: five rows, 80, 50, 30, 10 and 5
    citations, of which the table shows the first three. *)
Lemma relation_main_csv_witness :
  map Relation.csv_citationCount Demo2.lookup_rows = [80; 50; 30; 10; 5] /\
  StronglySorted (fun a b => Relation.csv_citationCount b <= Relation.csv_citationCount a)
                 Demo2.lookup_rows.
Proof.
  split; [reflexivity|].
  refine (proj1 (proj2 (proj2 (proj2
    (relation_main_csv _ _ _ _ _ _ _ _ _ _ _ _ _ _ _ _
       "./references_Attention_Is_All_You_Need.csv" Demo2.lookup_rows demo_lookup _)))) eq_refl).
  vm_compute. set_solver.
Defined.

(** *** The exceptions of a build *)

Section Exceptions.
Variable server : Server.

Lemma add_node_raises (paper_info : Paper) (l : Z) (self : PaperGraph) (e : exn) :
  add_node paper_info l self = Raised e -> e = TypeError /\ title paper_info = Null.
Proof.
  unfold add_node.
  destruct (paper_truthy paper_info); cbn; [|done].
  destruct (dict_get (paperId paper_info)) as [pid|]; [|done].
  destruct (String.eqb pid ""); [done|].
  destruct (has_node (G self) pid); [done|].
  destruct (title paper_info); cbn; [done| |done]. by intros [= <-].
Qed.

Lemma visit_items_raises (m current_pid : string) (d depth : Z) (items : Relations) :
  forall self queue e,
    visit_items m current_pid d depth items self queue = Raised e -> e = TypeError.
Proof.
  induction items as [|[p_info is_influential] items IH]; intros self queue e; [done|].
  cbn [visit_items]. destruct p_info as [p_info|]; [|apply IH].
  destruct (negb (paper_truthy p_info) || negb (truthy_str (dict_get (paperId p_info))));
    [apply IH|].
  destruct (add_node p_info (d + 1) self) as [[b self1]|e'|] eqn:Hadd; [| |done].
  - destruct (bool_decide _); [|apply IH]. destruct (d + 1 <? depth); apply IH.
  - intros [= <-]. by apply add_node_raises in Hadd as [-> _].
Qed.

Lemma list_item_width (widths : list Z) (d : Z) :
  0 <= d ->
  match list_item widths (Z.min d (len widths - 1)) with
  | Done cur_width => cur_width ∈ widths
  | Raised e => e = IndexError /\ widths = []
  | OutOfFuel => False
  end.
Proof.
  intros Hd. unfold list_item, len.
  destruct widths as [|x widths].
  - cbn [length]. replace (Z.min d (Z.of_nat 0 - 1)) with (-1) by lia. by cbn.
  - destruct (Z.ltb_spec (Z.min d (Z.of_nat (length (x :: widths)) - 1)) 0) as [Hneg|Hpos];
      [cbn [length] in Hneg; lia|].
    destruct (Z.ltb_spec (Z.min d (Z.of_nat (length (x :: widths)) - 1)) 0); [lia|].
    destruct ((x :: widths) !! Z.to_nat (Z.min d (Z.of_nat (length (x :: widths)) - 1)))
      as [cur_width|] eqn:Hlook.
    + by apply list_elem_of_lookup_2 in Hlook.
    + apply lookup_ge_None in Hlook. cbn [length] in *. lia.
Qed.

Lemma expand_raises (directions : list string) (current_pid : string) (d depth : Z)
      (widths : list Z) (influential_only : bool) (since_year until_year : option Z)
      (fetch_limit : Z) :
  0 <= d ->
  forall self queue w e,
    expand server directions current_pid d depth widths influential_only since_year
           until_year fetch_limit self queue w = Raised e ->
    e = TypeError \/ (e = IndexError /\ widths = []).
Proof.
  intros Hd. induction directions as [|m directions IH]; intros self queue w e; [done|].
  cbn [expand]. pose proof (list_item_width widths d Hd) as Hwidth.
  destruct (list_item widths _) as [cur_width|e'|]; [| |done].
  - destruct (_get_relations _ _ _ _ _ _ _ _ _) as [[relations self1] w1].
    destruct (visit_items _ _ _ _ _ _ _) as [[self2 queue2]|e'|] eqn:Hvisit; [apply IH| |done].
    intros [= <-]. left. by apply visit_items_raises in Hvisit.
  - intros [= <-]. by right.
Qed.

Lemma bfs_raises (fuel : nat) (directions : list string) (depth : Z) (widths : list Z)
      (influential_only : bool) (since_year until_year : option Z) (fetch_limit : Z) :
  forall queue self w e,
    Forall (fun entry => 0 <= snd entry) queue ->
    bfs server fuel directions depth widths influential_only since_year until_year
        fetch_limit queue self w = Raised e ->
    e = TypeError \/ (e = IndexError /\ widths = [] /\ 0 < depth).
Proof.
  induction fuel as [|fuel IH]; intros queue self w e Hqueue.
  - by destruct queue as [|[pid d] queue].
  - destruct queue as [|[pid d] queue]; [done|].
    apply Forall_cons in Hqueue as [Hd Hqueue]. cbn [snd] in Hd.
    cbn [bfs]. destruct (Z.leb_spec depth d) as [Hskip|Hgo]; [by apply IH|].
    destruct (expand _ _ _ _ _ _ _ _ _ _ _ _ _) as [[[self1 queue1] w1]|e'|] eqn:Hexp;
      [| |done].
    + apply expand_spec in Hexp as (_ & added & -> & Hadded).
      apply IH. apply Forall_app. split; [done|].
      eapply Forall_impl; [exact Hadded|]. intros entry [-> _]. lia.
    + intros [= <-].
      apply (expand_raises _ _ _ _ _ _ _ _ _ Hd) in Hexp as [->|[-> ->]]; [by left|].
      right. split; [done|]. split; [done|lia].
Qed.

End Exceptions.

(** X14. The exceptions of a build. [build] can raise nothing but:
    [KeyError], when the best match of the search comes without
    [paperId] or [title]; [TypeError], when a publication to insert has a
    [null] title; and [IndexError], which it raises only when the width
    list is empty and the maximum depth is positive. With a width list
    that is not empty, no [IndexError] is raised. *)
Theorem build_exceptions (server : Server) (set_order : gset string -> list string)
        (fuel : nat) (start_title mode : string) (depth : Z) (width : Width)
        (influential_only : bool) (since_year until_year : option Z) (fetch_limit : Z)
        (self : PaperGraph) (w : World) (e : exn) :
  build server set_order fuel start_title mode depth width influential_only since_year
        until_year fetch_limit self w = Raised e ->
  (e = KeyError /\ fst (search_paper server start_title w) = Raised KeyError) \/
  e = TypeError \/
  (e = IndexError /\ width = WList [] /\ 0 < depth).
Proof.
  unfold build.
  destruct (search_paper server start_title w) as [[[root_id info]|e'|] w1] eqn:Hsearch.
  - destruct (negb (truthy_str root_id)); [done|].
    destruct (request_with_retry _ _ _ _ _) as [root_data w2].
    destruct (negb (data_truthy root_data)); [done|].
    destruct (add_node _ 0 self) as [[b self1]|e'|] eqn:Hadd; [| |done].
    + destruct (bfs _ _ _ _ _ _ _ _ _ _ _ _) as [[self3 w3]|e'|] eqn:Hbfs; [done| |done].
      intros [= <-]. apply bfs_raises in Hbfs as [->|(-> & Hw & Hdepth)];
        [by right; left| |by repeat constructor].
      right. right. split; [done|]. split; [|done].
      destruct width as [n|l]; [done|]. by rewrite Hw.
    + intros [= <-]. apply add_node_raises in Hadd as [-> _]. by right; left.
  - intros [= <-]. left.
    assert (e' = KeyError); [|by subst].
    unfold search_paper in Hsearch.
    destruct (request_with_retry _ _ _ _ _) as [data w0].
    destruct (if data_truthy data then _ else _) as [[|p hits]|]; [done| |done].
    destruct (paperId p); cbn in Hsearch; [congruence| |];
      destruct (title p); cbn in Hsearch; congruence.
  - done.
Qed.

(** The build of the demonstration with an empty width list. *)
Lemma build_exceptions_witness :
  build Demo.server elements 5 Demo.title "references" 1 (WList []) false None None 10000
        init [] = Raised IndexError /\ WList [] = WList [] /\ 0 < 1.
Proof.
  assert (Hrun : build Demo.server elements 5 Demo.title "references" 1 (WList []) false None
                       None 10000 init [] = Raised IndexError) by (by vm_compute).
  split; [exact Hrun|].
  destruct (build_exceptions _ _ _ _ _ _ _ _ _ _ _ _ _ _ Hrun) as [[H _]|[H|(_ & Hw & Hd)]];
    [discriminate H|discriminate H|].
  by split.
Defined.

(** *** Inserting a node and finding it again *)

Lemma table_get_fresh {K V : Type} `{EqDecision K} (k : K) (v : V) (t : list (K * V)) :
  k ∉ map fst t -> table_get k (t ++ [(k, v)]) = Some v.
Proof.
  induction t as [|[k' v'] t IH]; cbn.
  - intros _. by destruct (decide (k = k)).
  - intros Hk. apply not_elem_of_cons in Hk as [Hne Hk].
    destruct (decide (k = k')); [done|]. by apply IH.
Qed.

Lemma table_get_member {K V : Type} `{EqDecision K} (k : K) (t : list (K * V)) :
  k ∈ map fst t -> is_Some (table_get k t).
Proof.
  induction t as [|[k' v'] t IH]; cbn.
  - intros Hk. by apply elem_of_nil in Hk.
  - intros Hk. destruct (decide (k = k')); [by eexists|].
    apply elem_of_cons in Hk as [Hk|Hk]; [done|]. by apply IH.
Qed.

(** X15. What [add_node] answers. It returns [True] exactly when the
    publication has a non-empty id, and the node can then be looked up in
    the graph under that id; a node that was not there before carries the
    layer of the call, the border width 3 exactly when that layer is 0,
    and a size computed from at least 1 citation. It returns [False]
    exactly when there is no usable id, and then changes nothing. It
    raises only for a new node whose title is [null]. *)
Theorem add_node_outcome (paper_info : Paper) (l : Z) (self : PaperGraph) :
  match add_node paper_info l self with
  | Done (true, self') =>
      exists pid a,
        dict_get (paperId paper_info) = Some pid /\ pid <> ""%string /\
        node_attrs (G self') pid = Some a /\
        (has_node (G self) pid = false ->
         layer a = l /\ (borderWidth a = 3 <-> l = 0) /\ 1 <= size_arg a)
  | Done (false, self') =>
      self' = self /\ truthy_str (dict_get (paperId paper_info)) = false
  | Raised e =>
      e = TypeError /\ title paper_info = Null /\
      exists pid, dict_get (paperId paper_info) = Some pid /\ has_node (G self) pid = false
  | OutOfFuel => False
  end.
Proof.
  unfold add_node.
  destruct (paper_truthy paper_info) eqn:Htruthy; cbn [negb].
  - destruct (dict_get (paperId paper_info)) as [pid|] eqn:Hpid; [|done].
    destruct (String.eqb_spec pid "") as [->|Hne]; [done|].
    destruct (has_node (G self) pid) eqn:Hhas.
    + pose proof Hhas as Hin. apply has_node_true in Hin.
      destruct (table_get_member pid (nodes (G self)) Hin) as [a Ha].
      exists pid, a. do 3 (split; [done|]). intros Hnew. congruence.
    + destruct (title paper_info) as [| |t] eqn:Htitle; cbn [dict_get_default].
      * eexists pid, _. split; [done|]. split; [done|]. split.
        -- unfold node_attrs. cbn. rewrite table_set_fresh by by apply has_node_false.
           apply table_get_fresh. by apply has_node_false.
        -- intros _. cbn. split; [done|]. split; [|lia].
           destruct (Z.eqb_spec l 0); split; intros; try done; lia.
      * split; [done|]. split; [done|]. by exists pid.
      * eexists pid, _. split; [done|]. split; [done|]. split.
        -- unfold node_attrs. cbn. rewrite table_set_fresh by by apply has_node_false.
           apply table_get_fresh. by apply has_node_false.
        -- intros _. cbn. split; [done|]. split; [|lia].
           destruct (Z.eqb_spec l 0); split; intros; try done; lia.
  - split; [done|]. unfold paper_truthy in Htruthy.
    destruct (paperId paper_info); [done| |]; by destruct (title paper_info), (year paper_info),
      (citationCount paper_info).
Qed.

(** *** What is handed to the visualisation library *)

Section Files.
Variable server : Server.
Variable set_order : gset string -> list string.

Lemma search_paper_files (start_title : string) (w : World) :
  files_written (snd (search_paper server start_title w)) = files_written w.
Proof.
  unfold search_paper, request_with_retry.
  pose proof (attempt_files server (mkRequest (BASE_URL +:+ "/search")
                [("query", PStr start_title); ("limit", PInt 1);
                 ("fields", PStr "paperId,title,year")]%string)
                (Z.to_nat default_max_retries) 0 w) as Hf.
  destruct (attempt server _ 0 (Z.to_nat default_max_retries) w) as [data w0].
  cbn [snd] in Hf.
  destruct (if data_truthy data then _ else _) as [[|p hits]|]; [done| |done].
  destruct (dict_item (paperId p)); [|done|done].
  by destruct (dict_item (title p)).
Qed.

Lemma fetch_pages_files (fuel : nat) (paper_id relation_type fields : string)
      (fetch_limit : Z) :
  forall results offset w,
    files_written (snd (fetch_pages server fuel paper_id relation_type fields fetch_limit
                                    results offset w)) = files_written w.
Proof.
  induction fuel as [|fuel IH]; intros results offset w; [done|].
  cbn [fetch_pages]. destruct (len results <? fetch_limit); [|done].
  unfold request_with_retry.
  pose proof (attempt_files server
                (mkRequest (BASE_URL +:+ "/" +:+ paper_id +:+ "/" +:+ relation_type)
                   [("fields", PStr fields); ("offset", PInt offset);
                    ("limit", PInt 1000)]%string)
                (Z.to_nat default_max_retries) 0 w) as Hf.
  destruct (attempt server _ 0 (Z.to_nat default_max_retries) w) as [data w1].
  cbn [snd] in Hf.
  destruct (if data_truthy data then _ else _) as [[|b bs]|]; [done| |done].
  destruct (len (b :: bs) <? 1000); [done|]. by rewrite IH.
Qed.

Lemma get_relations_files (paper_id relation_type : string) (influential_only : bool)
      (since_year until_year : option Z) (fetch_limit : Z) (self : PaperGraph) (w : World) :
  files_written (snd (_get_relations server paper_id relation_type influential_only
                                     since_year until_year fetch_limit self w))
  = files_written w.
Proof.
  unfold _get_relations. destruct (_cache self !! _); [done|].
  unfold fetch_relations.
  pose proof (fetch_pages_files (page_rounds fetch_limit) paper_id relation_type
                (relation_fields (if String.eqb relation_type "citations"
                                  then "citingPaper" else "citedPaper")%string)
                fetch_limit [] 0 w) as Hf.
  by destruct (fetch_pages _ _ _ _ _ _ _ _ _).
Qed.

Lemma expand_files (directions : list string) (current_pid : string) (d depth : Z)
      (widths : list Z) (influential_only : bool) (since_year until_year : option Z)
      (fetch_limit : Z) :
  forall self queue w self' queue' w',
    expand server directions current_pid d depth widths influential_only since_year
           until_year fetch_limit self queue w = Done (self', queue', w') ->
    files_written w' = files_written w.
Proof.
  induction directions as [|m directions IH]; intros self queue w self' queue' w'.
  - by intros [= <- <- <-].
  - cbn [expand]. destruct (list_item widths _) as [cur_width| |]; [|done|done].
    pose proof (get_relations_files current_pid m influential_only since_year until_year
                                    fetch_limit self w) as Hf.
    destruct (_get_relations _ _ _ _ _ _ _ _ _) as [[relations self1] w1]. cbn [snd] in Hf.
    destruct (visit_items _ _ _ _ _ _ _) as [[self2 queue2]| |]; [|done|done].
    intros Hrest. apply IH in Hrest. congruence.
Qed.

Lemma bfs_files (fuel : nat) (directions : list string) (depth : Z) (widths : list Z)
      (influential_only : bool) (since_year until_year : option Z) (fetch_limit : Z) :
  forall queue self w self' w',
    bfs server fuel directions depth widths influential_only since_year until_year
        fetch_limit queue self w = Done (self', w') ->
    files_written w' = files_written w.
Proof.
  induction fuel as [|fuel IH]; intros queue self w self' w'.
  - destruct queue as [|[pid d] queue]; [by intros [= <- <-]|done].
  - destruct queue as [|[pid d] queue]; [by intros [= <- <-]|].
    cbn [bfs]. destruct (depth <=? d); [apply IH|].
    destruct (expand _ _ _ _ _ _ _ _ _ _ _ _ _) as [[[self1 queue1] w1]| |] eqn:Hexp;
      [|done|done].
    apply expand_files in Hexp. intros Hrest. apply IH in Hrest.
    rewrite Hrest. exact Hexp.
Qed.

Lemma densify_loop_files (ids : gset string) (influential_only : bool)
      (since_year until_year : option Z) (fetch_limit : Z) (order : list string) :
  forall st : PaperGraph * World,
    files_written
      (snd (foldl (fun (st : PaperGraph * World) (pid : string) =>
                     let '(relations, self1, w1) :=
                       _get_relations server pid "references" influential_only since_year
                                      until_year fetch_limit (fst st) (snd st) in
                     (densify_node ids pid relations self1, w1)) st order))
    = files_written (snd st).
Proof.
  induction order as [|pid order IH]; intros st; [done|].
  cbn [foldl]. rewrite IH.
  pose proof (get_relations_files pid "references" influential_only since_year until_year
                                  fetch_limit (fst st) (snd st)) as Hf.
  by destruct (_get_relations _ _ _ _ _ _ _ _ _) as [[relations self1] w1].
Qed.

Lemma densify_files (influential_only : bool) (since_year until_year : option Z)
      (fetch_limit : Z) (self : PaperGraph) (w : World) :
  files_written (snd (densify server set_order influential_only since_year until_year
                              fetch_limit self w)) = files_written w.
Proof.
  apply (densify_loop_files (list_to_set (node_ids (G self))) influential_only since_year
                            until_year fetch_limit _ (self, w)).
Qed.

Lemma build_files (fuel : nat) (start_title mode : string) (depth : Z) (width : Width)
      (influential_only : bool) (since_year until_year : option Z) (fetch_limit : Z)
      (self : PaperGraph) (w : World) (self' : PaperGraph) (w' : World) :
  build server set_order fuel start_title mode depth width influential_only since_year
        until_year fetch_limit self w = Done (self', w') ->
  files_written w' = files_written w.
Proof.
  unfold build. pose proof (search_paper_files start_title w) as Hs.
  destruct (search_paper server start_title w) as [[[root_id info]|e|] w1]; [|done|done].
  cbn [snd] in Hs.
  destruct (negb (truthy_str root_id)); [by intros [= <- <-]|].
  unfold request_with_retry.
  match goal with
  | |- context [attempt server ?req 0 ?n w1] =>
      pose proof (attempt_files server req n 0 w1) as Hd;
      destruct (attempt server req 0 n w1) as [root_data w2]
  end.
  cbn [snd] in Hd.
  destruct (negb (data_truthy root_data));
    [intros [= <- <-]; change (files_written w2 = files_written w); congruence|].
  destruct (add_node _ 0 self) as [[b self1]| |]; [|done|done].
  destruct (bfs _ _ _ _ _ _ _ _ _ _ _ _) as [[self3 w3]| |] eqn:Hbfs; [|done|done].
  apply bfs_files in Hbfs.
  pose proof (densify_files influential_only since_year until_year fetch_limit self3 w3) as Hdf.
  intros [= Hdone]. rewrite Hdone in Hdf. cbn [snd] in Hdf. congruence.
Qed.

End Files.

(** X16. What the graph command hands to the visualisation library.
    [build] never calls [net.save_graph]. [main] calls it at most once,
    after [build] has returned: exactly when [save_results] is set and the
    graph that [build] left has at least one node, and for the page
    [<dir>/graph_<mode>_<safe title>.html], where [<dir>] is [save_path],
    or the current directory when that is absent or empty. Where that
    path cannot be opened, [main] raises instead of returning; it raises
    in no other case than [build] does. (The supporting files that the
    library may put beside the page are its own business.) *)
Theorem graph_main_files (server : Server) (set_order : gset string -> list string)
        (isalnum : Unicode) (disk : Disk)
        (fuel : nat) (title mode : string) (depth : Z) (width : Width)
        (influential_only : bool) (since_year until_year : option Z) (fetch_limit : Z)
        (save_results : bool) (save_path : option string) (w : World) :
  let page :=
    (match save_path with
     | Some dir => if String.eqb dir "" then "." else dir
     | None => "."
     end +:+ "/graph_" +:+ mode +:+ "_" +:+ safe_filename isalnum title +:+ ".html")%string in
  let result :=
    Graph.main server set_order isalnum disk fuel title mode depth width influential_only
               since_year until_year fetch_limit save_results save_path w in
  match build server set_order fuel title mode depth width influential_only since_year
              until_year fetch_limit init w with
  | Done (g, w1) =>
      files_written w1 = files_written w /\
      if save_results && negb (number_of_nodes (G g) =? 0) then
        if disk page
        then exists w', result = Done w' /\ files_written w' = page :: files_written w
        else result = Raised OSError
      else exists w', result = Done w' /\ files_written w' = files_written w
  | Raised e => result = Raised e
  | OutOfFuel => result = OutOfFuel
  end.
Proof.
  intros page result. subst result. unfold Graph.main.
  assert (Hdir : (if truthy_str save_path then default ""%string save_path else "."%string)
                 = match save_path with
                   | Some dir => if String.eqb dir "" then "."%string else dir
                   | None => "."%string
                   end).
  { destruct save_path as [dir|]; [|done]. cbn. by destruct (String.eqb dir ""). }
  rewrite Hdir. fold page. clear Hdir.
  destruct (build server set_order fuel title mode depth width influential_only since_year
                  until_year fetch_limit init w) as [[g w1]| |] eqn:Hbuild; [|done|done].
  apply build_files in Hbuild as Hfiles. split; [done|].
  destruct save_results; cbn [andb]; [|by exists w1].
  unfold Graph.save. destruct (number_of_nodes (G g) =? 0); cbn [negb].
  - eexists. split; [reflexivity|]. exact Hfiles.
  - destruct (disk page); [|done]. eexists. split; [reflexivity|].
    change (page :: files_written w1 = page :: files_written w). by rewrite Hfiles.
Qed.

(** On the demonstration network: one page on a disk that can be written,
    an exception on one that cannot. *)
Lemma graph_main_files_witness :
  (exists w', Graph.main Demo.server elements Demo.unicode Demo.disk 5 Demo.title "references" 1
                         (WList [3]) false None None 10000 true None [] = Done w' /\
              files_written w' = ["./graph_references_Attention_Is_All_You_Need.html"%string]) /\
  Graph.main Demo.server elements Demo.unicode Demo.read_only_disk 5 Demo.title "references" 1
             (WList [3]) false None None 10000 true None [] = Raised OSError.
Proof.
  split.
  - pose proof (graph_main_files Demo.server elements Demo.unicode Demo.disk 5 Demo.title
                                 "references" 1 (WList [3]) false None None 10000 true None [])
      as Hmain.
    cbv zeta in Hmain. rewrite demo_build in Hmain. exact (proj2 Hmain).
  - pose proof (graph_main_files Demo.server elements Demo.unicode Demo.read_only_disk 5
                                 Demo.title "references" 1 (WList [3]) false None None 10000
                                 true None []) as Hmain.
    cbv zeta in Hmain. rewrite demo_build in Hmain. exact (proj2 Hmain).
Defined.

(** The two cost bounds on the demonstration servers: a request that is
    answered 429 three times, and the retrieval of the references of X. *)
Lemma request_with_retry_cost_witness :
  total_wait (snd (Utils.request_with_retry Demo.busy_server "u" [] 10 [])) <= 165000.
Proof.
  destruct (request_with_retry_cost Demo.busy_server "u" [] 10 []) as (_ & _ & Hdefault).
  exact (Hdefault eq_refl).
Defined.

Lemma fetch_relations_requests_witness :
  (requests (snd (fetch_relations Demo.server "X" "references" "citation" false None None
                                  None 10000 [])) <= 100)%nat.
Proof.
  destruct (fetch_relations_requests Demo.server "X" "references" "citation" false None None
                                     None 10000 []) as (_ & Hdefault & _).
  exact (Hdefault eq_refl).
Defined.
